(** * chainerrl.experiments.train_agent_batch

    A shallow embedding of [src/chainerrl/experiments/train_agent_batch.py]
    and the properties of the batched training loop.

    The agent, the vector environment, the evaluator, [save_agent], the step
    hooks and [ask_yes_no] are collaborators that live outside the file: each
    is a script that says, call by call, whether the call returns or raises.
    Every call the loop makes is recorded in a trace, the results file lives
    in a finite map from paths to contents, and the local variables of
    [train_agent_batch] are part of the state so that the [except] clause
    sees the values they had when the exception was raised.  The map holds
    what the functions of this file write themselves; what a collaborator
    writes (the checkpoints of [save_agent], the files of the evaluator) is
    behind its call and is not in the map.

    Numbers.  [t], [steps], [step_offset] and [log_interval] are Python
    integers: [Z].  [episode_idx] is a numpy array of dtype ['i']: 32-bit
    two's complement, written out with [wrap32].  [episode_r] and
    [episode_len] are arrays of dtype ['f']: IEEE 754 binary32, with its
    rounding, its signed zeros, its infinities and its not-a-number, as
    [SpecFloat] of the standard library specifies them (precision 24,
    [emax] 128).  The rewards are what the environment returns, which numpy
    reads as float64 (precision 53, [emax] 1024).  Two things numpy does
    with these numbers are not IEEE operations and stay parameters: the
    order in which [np.mean] adds the entries of a non-empty window, and the
    digits [str] prints.  The scores of the evaluator are finite numbers
    that are only compared: [Qc]. *)

From Stdlib Require Import ZArith QArith Qcanon Ascii String List Lia SpecFloat.
From stdpp Require Import base tactics option list gmap strings pretty numbers.

Local Open Scope Z_scope.

(** ** Exceptions and outcomes *)

(** The classes of exception the file distinguishes.  [OtherException] is
    any other subclass of [Exception] a collaborator may raise,
    [OtherBaseException] any other class that derives from [BaseException]
    without deriving from [Exception]. *)
Inductive exn : Type :=
| AttributeError
| TypeError
| ValueError
| ZeroDivisionError
| OtherException (tag : nat)
| KeyboardInterrupt
| SystemExit
| GeneratorExit
| OtherBaseException (tag : nat).

(** [isinstance(e, Exception)] *)
Definition is_Exception (e : exn) : bool :=
  match e with
  | AttributeError | TypeError | ValueError | ZeroDivisionError
  | OtherException _ => true
  | KeyboardInterrupt | SystemExit | GeneratorExit
  | OtherBaseException _ => false
  end.

(** The clause [except (Exception, KeyboardInterrupt)] of line 150. *)
Definition matches_except_clause (e : exn) : bool :=
  match e with
  | KeyboardInterrupt => true
  | _ => is_Exception e
  end.

(** What a computation does: it returns, it raises, or it is still running
    when the fuel of the [while] loop is spent. *)
Inductive outcome (A : Type) : Type :=
| Ok (a : A)
| Raise (e : exn)
| Running.
Arguments Ok {A} a.
Arguments Raise {A} e.
Arguments Running {A}.

(** ** numpy on one-dimensional arrays *)

(** A binary ufunc: equal shapes go element by element, a shape of one
    element is broadcast, any other pair of shapes is a [ValueError]. *)
Definition np_binary {A B C : Type} (f : A → B → C)
    (xs : list A) (ys : list B) : outcome (list C) :=
  if (length xs =? length ys)%nat then Ok (zip_with f xs ys)
  else match xs, ys with
       | [x], _ => Ok (f x <$> ys)
       | _, [y] => Ok ((λ x, f x y) <$> xs)
       | _, _ => Raise ValueError
       end.

(** An in-place operator [xs op= ys]: the result has to have the shape of
    [xs], so only [ys] may be broadcast. *)
Definition np_inplace {A B : Type} (f : A → B → A)
    (xs : list A) (ys : list B) : outcome (list A) :=
  if (length xs =? length ys)%nat then Ok (zip_with f xs ys)
  else match ys with
       | [y] => Ok ((λ x, f x y) <$> xs)
       | _ => Raise ValueError
       end.

(** [np.zeros(n, dtype=...)] *)
Definition np_zeros {A : Type} (zero : A) (n : nat) : list A := replicate n zero.

(** Storing into an array of dtype ['i']: 32 bits, two's complement. *)
Definition wrap32 (z : Z) : Z := (z + 2 ^ 31) `mod` 2 ^ 32 - 2 ^ 31.

(** A boolean as an integer, as numpy casts it. *)
Definition bool_to_Z (b : bool) : Z := if b then 1 else 0.

(** ** float32 and float64 *)

(** A number of either format is a [spec_float]: a signed zero, a signed
    infinity, not-a-number, or a sign, a mantissa and an exponent. *)
#[global] Instance spec_float_eq_dec : EqDecision spec_float.
Proof. solve_decision. Defined.

(** Storing into an array of dtype ['f']: rounding to nearest, ties to
    even, to binary32. *)
Definition f32_round (x : spec_float) : spec_float :=
  match x with
  | S754_finite s m e => binary_round 24 128 s m e
  | _ => x
  end.

(** A Python integer as a float32 (rounded when it has more than 24
    significant bits) and as a float64. *)
Definition f32_of_Z (z : Z) : spec_float := binary_normalize 24 128 z 0 false.
Definition f64_of_Z (z : Z) : spec_float := binary_normalize 53 1024 z 0 false.

Definition f32_zero : spec_float := S754_zero false.
Definition f32_one : spec_float := f32_of_Z 1.

(** A boolean as a float32, as numpy casts it: 1.0 or 0.0. *)
Definition f32_of_bool (b : bool) : spec_float :=
  if b then f32_one else f32_zero.

(** The float32 operations of the in-place operators. *)
Definition f32_add (x y : spec_float) : spec_float := SFadd 24 128 x y.
Definition f32_mul (x y : spec_float) : spec_float := SFmul 24 128 x y.

(** [x += y] for a float32 [x] and a float64 [y]: numpy adds in float64
    and rounds the sum to float32 when it stores it. *)
Definition f32_add_f64 (x y : spec_float) : spec_float :=
  f32_round (SFadd 53 1024 x y).

Arguments f32_round : simpl never.
Arguments f32_of_Z : simpl never.
Arguments f64_of_Z : simpl never.
Arguments f32_add : simpl never.
Arguments f32_mul : simpl never.
Arguments f32_add_f64 : simpl never.

(** A [spec_float] that is a float32: its mantissa and exponent are those
    of the format. *)
Definition f32_valid (x : spec_float) : Prop := valid_binary 24 128 x = true.

(** [np.logical_not(np.logical_or(reset_mask, done))] *)
Definition np_logical_or (xs ys : list bool) : outcome (list bool) :=
  np_binary orb xs ys.
Definition np_logical_not (xs : list bool) : list bool := negb <$> xs.

(** [np.ma.masked_array(data, mask).compressed()]: the entries whose mask
    is False, in order. *)
Fixpoint ma_compressed {A : Type} (data : list A) (mask : list bool) : list A :=
  match data, mask with
  | x :: data', m :: mask' =>
      if m then ma_compressed data' mask' else x :: ma_compressed data' mask'
  | _, _ => []
  end.

(** [np.sum] of an array of dtype ['i'] (accumulated in 64 bits, which the
    sum of fewer than 2^32 entries of 32 bits cannot leave). *)
Definition np_sum_Z (xs : list Z) : Z := foldr Z.add 0 xs.

(** ** [collections.deque] with [maxlen] *)

(** [maxlen=None] is unbounded; otherwise an append to a full deque drops
    the entry at the other end, and a deque of capacity zero stays empty. *)
Definition deque_append {A : Type} (maxlen : option nat) (d : list A) (x : A)
    : list A :=
  match maxlen with
  | None => d ++ [x]
  | Some m => drop (length (d ++ [x]) - m)%nat (d ++ [x])
  end.

Definition deque_extend {A : Type} (maxlen : option nat) (d xs : list A)
    : list A :=
  foldl (deque_append maxlen) d xs.

(** ** Strings and files *)

(** [os.path.join(a, b)] on a POSIX system. *)
Definition starts_with_sep (s : string) : bool :=
  match s with
  | String c _ => bool_decide (c = "/"%char)
  | EmptyString => false
  end.

Fixpoint ends_with_sep (s : string) : bool :=
  match s with
  | EmptyString => false
  | String c EmptyString => bool_decide (c = "/"%char)
  | String _ s' => ends_with_sep s'
  end.

Definition os_path_join (a b : string) : string :=
  if starts_with_sep b then b
  else if bool_decide (a = "") || ends_with_sep a then a +:+ b
  else a +:+ "/" +:+ b.

(** ['\t'] and the newline [print] ends a line with. *)
Definition tab : string := String (Ascii.ascii_of_nat 9) EmptyString.
Definition newline : string := String (Ascii.ascii_of_nat 10) EmptyString.

(** ['\t'.join(parts)] *)
Fixpoint join_tab (parts : list string) : string :=
  match parts with
  | [] => ""
  | [p] => p
  | p :: ps => p +:+ tab +:+ join_tab ps
  end.

(** [str] of a Python integer is its decimal notation. *)
Definition str_int (z : Z) : string := pretty z.

(** Opening a path in mode ['a+'] and printing one line to it: the file is
    created when it does not exist, and the text goes to its end. *)
Definition file_append (fs : gmap string string) (path text : string)
    : gmap string string :=
  <[path := default "" (fs !! path) +:+ text]> fs.

(** ** [np.mean] and [str] *)

(** What numpy does with float32 numbers beyond the IEEE operations: the
    mean of a non-empty sequence of them (the order of the additions is
    numpy's own) and the digits [str] prints for a finite number. *)
Record numpy : Type := {
  np_mean_nonempty : list spec_float → spec_float;
  str_finite : spec_float → string
}.

(** [np.mean] of the window: not-a-number when the window is empty. *)
Definition np_mean (np : numpy) (xs : list spec_float) : spec_float :=
  match xs with
  | [] => S754_nan
  | _ => np_mean_nonempty np xs
  end.

(** [str] of a numpy float. *)
Definition str_npfloat (np : numpy) (x : spec_float) : string :=
  match x with
  | S754_nan => "nan"
  | S754_infinity false => "inf"
  | S754_infinity true => "-inf"
  | _ => str_finite np x
  end.

(** ** The collaborators *)

(** A value stored in an info dict: the loop only ever stores a boolean
    under ["reset"]; what the environment put there is opaque. *)
Inductive pyval : Type :=
| PyBool (b : bool)
| PyOpaque (tag : nat).

Abbreviation info_dict := (gmap string pyval).

(** What a call to a collaborator does: it returns a value or it raises. *)
Inductive result (A : Type) : Type :=
| Returns (a : A)
| Raises (e : exn).
Arguments Returns {A} a.
Arguments Raises {A} e.

Definition outcome_of {A : Type} (r : result A) : outcome A :=
  match r with
  | Returns a => Ok a
  | Raises e => Raise e
  end.

(** The evaluator: [evaluate_if_necessary] as called in the pass of the
    loop with the given index, the value of [max_score] read right after
    it, and [env.close()] of the environment it owns. *)
Record evaluator_script : Type := {
  evaluate_if_necessary : nat → result unit;
  max_score : nat → Qc;
  evaluator_env_close : result unit
}.

(** The agent, the environment, the hooks and [save_agent].  Observations
    and actions are passed from one collaborator to the other and never
    inspected, so they do not appear.  The calls made inside the loop are
    indexed by the number of the pass (0 for the first). *)
Record collaborators : Type := {
  env_num_envs : result nat;
  env_reset : result unit;
  agent_has_t : bool;
  batch_act_and_train : nat → result unit;
  env_step : nat → result (list spec_float * list bool * list info_dict);
  env_reset_masked : nat → result unit;
  batch_observe_and_train : nat → result unit;
  step_hooks : list (Z → result unit);
  get_statistics : nat → result unit;
  evaluator : option evaluator_script;
  save_agent : Z → string → result unit;
  env_close : result unit
}.

(** The keyword arguments of [train_agent_batch] that are plain data.
    [return_window_size] is a capacity ([None]: unbounded). *)
Record config : Type := {
  steps : Z;
  outdir : string;
  log_interval : option Z;
  max_episode_len : option Z;
  eval_interval : option Z;
  step_offset : Z;
  successful_score : option Qc;
  return_window_size : option nat;
  save_training_r : bool
}.

(** ** The trace and the state *)

Inductive event : Type :=
| LoggerError
| EnvReset
| BatchActAndTrain
| EnvStep
| EnvResetMasked (masks : list bool)
| BatchObserveAndTrain (r : list spec_float) (done : list bool)
    (info : list info_dict)
| StepHook (j : nat) (t : Z)
| LoggerInfoProgress (t : Z) (avg_r : spec_float) (episode : Z)
| GetStatistics
| LoggerInfoStatistics
| EvaluateIfNecessary (t : Z) (episodes : list Z)
| SaveAgent (t : Z) (suffix : string)
| EnvClose
| EvaluatorEnvClose
| AskYesNo (question : string)
| ReplayBufferSave (filename : string)
| LoggerInfoSaved (filename : string).

(** The world the function acts on ([trace], [files], [agent_t]: the
    attribute [t] of the agent when it has one) and its local variables. *)
Record state : Type := {
  trace : list event;
  files : gmap string string;
  agent_t : option Z;
  t : Z;
  episode_r : list spec_float;
  episode_idx : list Z;
  episode_len : list spec_float;
  recent_returns : list spec_float
}.

Definition record_event (ev : event) (s : state) : state :=
  {| trace := trace s ++ [ev]; files := files s; agent_t := agent_t s;
     t := t s; episode_r := episode_r s; episode_idx := episode_idx s;
     episode_len := episode_len s; recent_returns := recent_returns s |}.

Definition set_files (fs : gmap string string) (s : state) : state :=
  {| trace := trace s; files := fs; agent_t := agent_t s;
     t := t s; episode_r := episode_r s; episode_idx := episode_idx s;
     episode_len := episode_len s; recent_returns := recent_returns s |}.

Definition set_agent_t (a : option Z) (s : state) : state :=
  {| trace := trace s; files := files s; agent_t := a;
     t := t s; episode_r := episode_r s; episode_idx := episode_idx s;
     episode_len := episode_len s; recent_returns := recent_returns s |}.

Definition set_t (z : Z) (s : state) : state :=
  {| trace := trace s; files := files s; agent_t := agent_t s;
     t := z; episode_r := episode_r s; episode_idx := episode_idx s;
     episode_len := episode_len s; recent_returns := recent_returns s |}.

Definition set_episode_r (v : list spec_float) (s : state) : state :=
  {| trace := trace s; files := files s; agent_t := agent_t s;
     t := t s; episode_r := v; episode_idx := episode_idx s;
     episode_len := episode_len s; recent_returns := recent_returns s |}.

Definition set_episode_idx (v : list Z) (s : state) : state :=
  {| trace := trace s; files := files s; agent_t := agent_t s;
     t := t s; episode_r := episode_r s; episode_idx := v;
     episode_len := episode_len s; recent_returns := recent_returns s |}.

Definition set_episode_len (v : list spec_float) (s : state) : state :=
  {| trace := trace s; files := files s; agent_t := agent_t s;
     t := t s; episode_r := episode_r s; episode_idx := episode_idx s;
     episode_len := v; recent_returns := recent_returns s |}.

Definition set_recent_returns (v : list spec_float) (s : state) : state :=
  {| trace := trace s; files := files s; agent_t := agent_t s;
     t := t s; episode_r := episode_r s; episode_idx := episode_idx s;
     episode_len := episode_len s; recent_returns := v |}.

(** The state a call starts in: nothing traced yet, the files that are
    there, the agent's counter, and locals that are not bound yet. *)
Definition initial_state (fs : gmap string string) (a : option Z) : state :=
  {| trace := []; files := fs; agent_t := a;
     t := 0; episode_r := []; episode_idx := []; episode_len := [];
     recent_returns := [] |}.

(** ** A state monad with exceptions *)

Definition M (A : Type) : Type := state → state * outcome A.

Definition ret {A : Type} (a : A) : M A := λ s, (s, Ok a).

Definition bind {A B : Type} (m : M A) (k : A → M B) : M B :=
  λ s, match m s with
       | (s', Ok a) => k a s'
       | (s', Raise e) => (s', Raise e)
       | (s', Running) => (s', Running)
       end.

Notation "x <- m ;; k" := (bind m (λ x, k))
  (at level 100, m at next level, right associativity).
Notation "m ;; k" := (bind m (λ _, k))
  (at level 100, right associativity).

Definition raise {A : Type} (e : exn) : M A := λ s, (s, Raise e).
Definition lift {A : Type} (o : outcome A) : M A := λ s, (s, o).
Definition gets {A : Type} (f : state → A) : M A := λ s, (s, Ok (f s)).
Definition modify (f : state → state) : M unit := λ s, (f s, Ok tt).

(** A call to a collaborator: the call is traced, then it returns or
    raises as the script says. *)
Definition call {A : Type} (ev : event) (r : result A) : M A :=
  λ s, (record_event ev s, outcome_of r).

(** [a % b] on Python integers, [b] possibly [None] or zero. *)
Definition python_mod (a : Z) (b : option Z) : outcome Z :=
  match b with
  | None => Raise TypeError
  | Some 0 => Raise ZeroDivisionError
  | Some b => Ok (a `mod` b)
  end.

(** ** The helpers of the file *)

(** [for i, reset in zip(info, reset_mask): i['reset'] = reset]: the dicts
    are updated in place, as far as the shorter of the two sequences goes. *)
Definition package_reset (info : list info_dict) (reset_mask : list bool)
    : list info_dict :=
  zip_with (λ i reset, <["reset" := PyBool reset]> i) info reset_mask
  ++ drop (length reset_mask) info.

(** The reset mask, as lines 35-38 and lines 107-110 compute it:
    [np.zeros(num_processes, dtype=bool)] when [max_episode_len] is [None],
    [episode_len == max_episode_len] otherwise: the comparison of a float32
    array with a Python integer, which numpy makes a float32 first. *)
Definition reset_mask_of (num_processes : nat) (episode_len : list spec_float)
    (max_episode_len : option Z) : list bool :=
  match max_episode_len with
  | None => np_zeros false num_processes
  | Some m => (λ l, SFeqb l (f32_of_Z m)) <$> episode_len
  end.

(** [_get_mask], lines 34-44. *)
Definition _get_mask (num_processes : nat) (info : list info_dict)
    (done : list bool) (episode_len : list spec_float)
    (max_episode_len : option Z)
    : outcome (list info_dict * list bool) :=
  let reset_mask := reset_mask_of num_processes episode_len max_episode_len in
  let info := package_reset info reset_mask in
  match np_logical_or reset_mask done with
  | Ok either => Ok (info, np_logical_not either)
  | Raise e => Raise e
  | Running => Running
  end.

Section ReplayBuffer.

(** The agent's replay buffer, if it has one, by its length; the answer
    of the user to a question; the buffer's [save]. *)
Variable replay_buffer : option nat.
Variable ask_yes_no : string → bool.
Variable replay_buffer_save : string → result unit.

(** [save_agent_replay_buffer], lines 21-25. *)
Definition save_agent_replay_buffer (t : Z) (outdir suffix : string)
    : M unit :=
  let filename :=
    os_path_join outdir (str_int t +:+ suffix +:+ ".replay.pkl") in
  match replay_buffer with
  | None => raise AttributeError
  | Some _ =>
      call (ReplayBufferSave filename) (replay_buffer_save filename) ;;
      modify (record_event (LoggerInfoSaved filename))
  end.

(** [ask_and_save_agent_replay_buffer], lines 28-31. *)
Definition ask_and_save_agent_replay_buffer (t : Z) (outdir suffix : string)
    : M unit :=
  match replay_buffer with
  | None => ret tt
  | Some n =>
      let question :=
        "Replay buffer has " +:+ pretty n
        +:+ " transitions. Do you save them to a file?" in
      yes <- call (AskYesNo question) (Returns (ask_yes_no question)) ;;
      if yes then save_agent_replay_buffer t outdir suffix else ret tt
  end.

End ReplayBuffer.

Section TrainAgentBatch.

Variable c : collaborators.
Variable cfg : config.

Variable np : numpy.

(** [_write_to_file], lines 47-49. *)
Definition _write_to_file (outdir : string) (step : Z) (avg_r : spec_float)
    : M unit :=
  modify (λ s,
    set_files
      (file_append (files s) (os_path_join outdir "training_r.txt")
         (join_tab [str_int step; str_npfloat np avg_r] +:+ newline))
      s).

(** Lines 107-115: the reset mask, the info dicts, the continuation mask. *)
Definition compute_masks (num_processes : nat) (done : list bool)
    (info : list info_dict) : M (list info_dict * list bool) :=
  episode_len_now <- gets episode_len ;;
  let reset_mask :=
    reset_mask_of num_processes episode_len_now (max_episode_len cfg) in
  let info := package_reset info reset_mask in
  either <- lift (np_logical_or reset_mask done) ;;
  ret (info, np_logical_not either).

(** Lines 121-130: the episode bookkeeping and the step counter.  When
    the masked array is built every array has [num_processes] entries:
    the in-place operations before it have raised otherwise.  The arrays
    [episode_r] and [episode_len] are float32: every operation on them is
    the float32 one, and the masks are cast to 1.0 and 0.0. *)
Definition update_episodes (num_processes : nat) (r : list spec_float)
    (masks : list bool) : M unit :=
  (* episode_r += r *)
  a <- gets episode_r ;;
  a <- lift (np_inplace f32_add_f64 a r) ;;
  modify (set_episode_r a) ;;
  (* episode_len += 1 *)
  modify (λ s,
    set_episode_len ((λ l, f32_add l f32_one) <$> episode_len s) s) ;;
  (* episode_idx += 1 - masks *)
  a <- gets episode_idx ;;
  a <- lift (np_inplace (λ x y, wrap32 (x + y)) a
               ((λ m, 1 - bool_to_Z m) <$> masks)) ;;
  modify (set_episode_idx a) ;;
  (* recent_returns.extend(np.ma.masked_array(episode_r, masks).compressed()) *)
  modify (λ s,
    set_recent_returns
      (deque_extend (return_window_size cfg) (recent_returns s)
         (ma_compressed (episode_r s) masks))
      s) ;;
  (* episode_r *= masks *)
  a <- gets episode_r ;;
  a <- lift (np_inplace f32_mul a (f32_of_bool <$> masks)) ;;
  modify (set_episode_r a) ;;
  (* episode_len *= masks *)
  a <- gets episode_len ;;
  a <- lift (np_inplace f32_mul a (f32_of_bool <$> masks)) ;;
  modify (set_episode_len a) ;;
  (* t += num_processes *)
  modify (λ s, set_t (t s + Z.of_nat num_processes) s).

(** Lines 132-133: [for hook in step_hooks: hook(env, agent, t)]. *)
Fixpoint run_hooks (j : nat) (hooks : list (Z → result unit)) : M unit :=
  match hooks with
  | [] => ret tt
  | hook :: hooks' =>
      now <- gets t ;;
      call (StepHook j now) (hook now) ;;
      run_hooks (S j) hooks'
  end.

(** Lines 135-136. *)
Definition write_training_r : M unit :=
  if save_training_r cfg then
    now <- gets t ;;
    m <- lift (python_mod now (log_interval cfg)) ;;
    if m =? 0 then
      window <- gets recent_returns ;;
      _write_to_file (outdir cfg) now (np_mean np window)
    else ret tt
  else ret tt.

(** Lines 138-148; the result says whether [break] was reached. *)
Definition log_and_evaluate (k : nat) : M bool :=
  match eval_interval cfg with
  | None => ret false
  | Some _ =>
      now <- gets t ;;
      m <- lift (python_mod now (log_interval cfg)) ;;
      if m =? 0 then
        window <- gets recent_returns ;;
        idx <- gets episode_idx ;;
        modify (record_event
                  (LoggerInfoProgress now (np_mean np window)
                     (np_sum_Z idx))) ;;
        call GetStatistics (get_statistics c k) ;;
        modify (record_event LoggerInfoStatistics) ;;
        match evaluator c with
        | None => ret false
        | Some ev =>
            call (EvaluateIfNecessary now ((λ x, wrap32 (x + 1)) <$> idx))
                 (evaluate_if_necessary ev k) ;;
            match successful_score cfg with
            | None => ret false
            | Some score => ret (bool_decide (score ≤ max_score ev k)%Qc)
            end
        end
      else ret false
  end.

(** One pass of the [while] loop, lines 102-148. *)
Definition loop_body (num_processes : nat) (k : nat) : M bool :=
  call BatchActAndTrain (batch_act_and_train c k) ;;
  stepped <- call EnvStep (env_step c k) ;;
  let '(r, done, info) := stepped in
  packed <- compute_masks num_processes done info ;;
  let '(info, masks) := packed in
  call (EnvResetMasked masks) (env_reset_masked c k) ;;
  call (BatchObserveAndTrain r done info) (batch_observe_and_train c k) ;;
  update_episodes num_processes r masks ;;
  run_hooks 0 (step_hooks c) ;;
  write_training_r ;;
  log_and_evaluate k.

(** [while t < steps: ...], line 101.  The loop need not end (an
    environment of no instance never advances [t]), so it runs on fuel:
    one unit per pass. *)
Fixpoint training_loop (fuel : nat) (num_processes : nat) (k : nat)
    : M unit :=
  match fuel with
  | O => lift Running
  | S fuel' =>
      now <- gets t ;;
      if now <? steps cfg then
        stop <- loop_body num_processes k ;;
        if (stop : bool) then ret tt
        else training_loop fuel' num_processes (S k)
      else ret tt
  end.

(** Lines 150-156: the [except] clause. *)
Definition except_clause (e : exn) : M unit :=
  now <- gets t ;;
  call (SaveAgent now "_except") (save_agent c now "_except") ;;
  call EnvClose (env_close c) ;;
  match evaluator c with
  | Some ev => call EvaluatorEnvClose (evaluator_env_close ev)
  | None => ret tt
  end ;;
  raise e.

(** Lines 157-159: the [else] clause. *)
Definition else_clause : M unit :=
  now <- gets t ;;
  call (SaveAgent now "_finish") (save_agent c now "_finish").

(** [try: ... except (Exception, KeyboardInterrupt): ... else: ...],
    lines 100-159. *)
Definition guarded_loop (fuel : nat) (num_processes : nat) : M unit :=
  λ s, match training_loop fuel num_processes 0%nat s with
       | (s', Ok _) => else_clause s'
       | (s', Raise e) =>
           if matches_except_clause e then except_clause e s'
           else (s', Raise e)
       | (s', Running) => (s', Running)
       end.

(** Lines 81-86: [env.num_envs], with the log of a missing attribute. *)
Definition get_num_envs : M nat :=
  match env_num_envs c with
  | Returns n => ret n
  | Raises AttributeError =>
      modify (record_event LoggerError) ;; raise AttributeError
  | Raises e => raise e
  end.

(** [train_agent_batch], lines 52-159. *)
Definition train_agent_batch (fuel : nat) : M unit :=
  modify (set_recent_returns []) ;;
  num_processes <- get_num_envs ;;
  modify (set_episode_r (np_zeros f32_zero num_processes)) ;;
  modify (set_episode_idx (np_zeros 0 num_processes)) ;;
  modify (set_episode_len (np_zeros f32_zero num_processes)) ;;
  call EnvReset (env_reset c) ;;
  modify (set_t (step_offset cfg)) ;;
  (if agent_has_t c then modify (set_agent_t (Some (step_offset cfg)))
   else ret tt) ;;
  guarded_loop fuel num_processes.

End TrainAgentBatch.

(** ** Concrete collaborators and configurations *)

(** The keyword defaults of [train_agent_batch]. *)
Definition default_config (steps : Z) (outdir : string) : config :=
  {| steps := steps; outdir := outdir; log_interval := None;
     max_episode_len := None; eval_interval := None; step_offset := 0;
     successful_score := None; return_window_size := Some 100%nat;
     save_training_r := false |}.

(** Collaborators none of whose calls raises: an environment of [n]
    instances whose step in pass [k] gives the rewards and done flags
    [script k] and empty info dicts, no hook, no evaluator. *)
Definition quiet (n : nat) (script : nat → list spec_float * list bool)
    : collaborators :=
  {| env_num_envs := Returns n;
     env_reset := Returns tt;
     agent_has_t := true;
     batch_act_and_train := λ _, Returns tt;
     env_step := λ k, Returns (script k, replicate n ∅);
     env_reset_masked := λ _, Returns tt;
     batch_observe_and_train := λ _, Returns tt;
     step_hooks := [];
     get_statistics := λ _, Returns tt;
     evaluator := None;
     save_agent := λ _ _, Returns tt;
     env_close := Returns tt |}.

Definition with_env_step (c : collaborators)
    (f : nat → result (list spec_float * list bool * list info_dict))
    : collaborators :=
  {| env_num_envs := env_num_envs c; env_reset := env_reset c;
     agent_has_t := agent_has_t c;
     batch_act_and_train := batch_act_and_train c;
     env_step := f;
     env_reset_masked := env_reset_masked c;
     batch_observe_and_train := batch_observe_and_train c;
     step_hooks := step_hooks c; get_statistics := get_statistics c;
     evaluator := evaluator c; save_agent := save_agent c;
     env_close := env_close c |}.


Definition with_num_envs (c : collaborators) (n : result nat) : collaborators :=
  {| env_num_envs := n; env_reset := env_reset c;
     agent_has_t := agent_has_t c;
     batch_act_and_train := batch_act_and_train c;
     env_step := env_step c;
     env_reset_masked := env_reset_masked c;
     batch_observe_and_train := batch_observe_and_train c;
     step_hooks := step_hooks c; get_statistics := get_statistics c;
     evaluator := evaluator c; save_agent := save_agent c;
     env_close := env_close c |}.

(** An evaluator whose calls return and whose best score stays at [score]. *)
Definition quiet_evaluator (score : Qc) : evaluator_script :=
  {| evaluate_if_necessary := λ _, Returns tt;
     max_score := λ _, score;
     evaluator_env_close := Returns tt |}.

Definition with_evaluator (c : collaborators) (ev : option evaluator_script)
    : collaborators :=
  {| env_num_envs := env_num_envs c; env_reset := env_reset c;
     agent_has_t := agent_has_t c;
     batch_act_and_train := batch_act_and_train c;
     env_step := env_step c;
     env_reset_masked := env_reset_masked c;
     batch_observe_and_train := batch_observe_and_train c;
     step_hooks := step_hooks c; get_statistics := get_statistics c;
     evaluator := ev; save_agent := save_agent c;
     env_close := env_close c |}.

(** Two instances; the first step ends the episode of slot 1, the second
    step that of slot 0.  The rewards are arbitrary. *)
Definition two_slot_script (r00 r01 r10 r11 : spec_float) (k : nat)
    : list spec_float * list bool :=
  match k with
  | O => ([r00; r01], [false; true])
  | _ => ([r10; r11], [true; false])
  end.

(** The rewards 0.0 and 1.0, as the float64 numbers they are. *)
Definition reward_0 : spec_float := f64_of_Z 0.
Definition reward_1 : spec_float := f64_of_Z 1.

(** One instance that is never done and always rewarded with 1.0. *)
Definition never_done_script (k : nat) : list spec_float * list bool :=
  ([reward_1], [false]).

(** One instance whose every step ends an episode. *)
Definition always_done_script (k : nat) : list spec_float * list bool :=
  ([reward_1], [true]).

(** The state in which the [while] loop is entered. *)
Definition loop_entry (c : collaborators) (cfg : config) (n : nat) (s : state)
    : state :=
  {| trace := trace s ++ [EnvReset];
     files := files s;
     agent_t := if agent_has_t c then Some (step_offset cfg) else agent_t s;
     t := step_offset cfg;
     episode_r := np_zeros f32_zero n;
     episode_idx := np_zeros 0 n;
     episode_len := np_zeros f32_zero n;
     recent_returns := [] |}.

(** A numpy for the examples: the mean adds the entries in the order of
    the window and divides by their number, the way numpy does for a window
    of fewer than 8 entries; a finite number is printed as its mantissa and
    its binary exponent. *)
Definition mean_in_order (xs : list spec_float) : spec_float :=
  SFdiv 24 128 (foldl f32_add f32_zero xs) (f32_of_Z (Z.of_nat (length xs))).

Definition show_finite (x : spec_float) : string :=
  match x with
  | S754_zero s => if s then "-0.0" else "0.0"
  | S754_finite s m e =>
      (if s then "-" else "") +:+ pretty (Z.pos m) +:+ "p" +:+ pretty e
  | _ => ""
  end.

Definition plain_numpy : numpy :=
  {| np_mean_nonempty := mean_in_order; str_finite := show_finite |}.

(** The masks passed to [env.reset(masks)], in the order of the calls. *)
Definition masks_of_trace (tr : list event) : list (list bool) :=
  omap (λ ev, match ev with EnvResetMasked m => Some m | _ => None end) tr.

(** The checkpoints asked of [save_agent], in the order of the calls. *)
Definition checkpoints_of_trace (tr : list event) : list (Z * string) :=
  omap (λ ev, match ev with SaveAgent t sfx => Some (t, sfx) | _ => None end) tr.

Definition with_max_episode_len (cfg : config) (m : option Z) : config :=
  {| steps := steps cfg; outdir := outdir cfg; log_interval := log_interval cfg;
     max_episode_len := m; eval_interval := eval_interval cfg;
     step_offset := step_offset cfg; successful_score := successful_score cfg;
     return_window_size := return_window_size cfg;
     save_training_r := save_training_r cfg |}.

(** Logging to the results file every [li] steps. *)
Definition with_training_r (cfg : config) (li : option Z) : config :=
  {| steps := steps cfg; outdir := outdir cfg; log_interval := li;
     max_episode_len := max_episode_len cfg; eval_interval := eval_interval cfg;
     step_offset := step_offset cfg; successful_score := successful_score cfg;
     return_window_size := return_window_size cfg;
     save_training_r := true |}.

(** Evaluation configured, with the given logging interval and score to
    reach. *)
Definition with_eval_interval (cfg : config) (ei li : option Z)
    (score : option Qc) : config :=
  {| steps := steps cfg; outdir := outdir cfg; log_interval := li;
     max_episode_len := max_episode_len cfg; eval_interval := ei;
     step_offset := step_offset cfg; successful_score := score;
     return_window_size := return_window_size cfg;
     save_training_r := save_training_r cfg |}.

(** A state of one slot whose [episode_idx] holds [x]. *)
Definition one_slot_state (x : Z) : state :=
  {| trace := []; files := ∅; agent_t := None; t := 0;
     episode_r := [f32_zero]; episode_idx := [x]; episode_len := [f32_zero];
     recent_returns := [] |}.

(** Two states that differ at most in the trace: the files, the agent's
    counter and every local variable are the same. *)
Definition same_but_trace (s s' : state) : Prop :=
  files s' = files s ∧ agent_t s' = agent_t s ∧ t s' = t s
  ∧ episode_r s' = episode_r s ∧ episode_idx s' = episode_idx s
  ∧ episode_len s' = episode_len s ∧ recent_returns s' = recent_returns s.

(** Two states that differ at most in the files. *)
Definition same_but_files (s s' : state) : Prop :=
  trace s' = trace s ∧ agent_t s' = agent_t s ∧ t s' = t s
  ∧ episode_r s' = episode_r s ∧ episode_idx s' = episode_idx s
  ∧ episode_len s' = episode_len s ∧ recent_returns s' = recent_returns s.

(** A value that an array of dtype ['i'] can hold. *)
Definition is_int32 (z : Z) : Prop := - 2 ^ 31 ≤ z < 2 ^ 31.

(** The line [_write_to_file] prints for a step and a window. *)
Definition training_r_line (np : numpy) (step : Z)
    (window : list spec_float) : string :=
  join_tab [str_int step; str_npfloat np (np_mean np window)] +:+ newline.

(** Whether a deque of the given capacity holds [len] entries. *)
Definition deque_fits (maxlen : option nat) (len : nat) : Prop :=
  match maxlen with
  | None => True
  | Some m => (len ≤ m)%nat
  end.

(** The condition under which lines 138-148 reach [break] in the pass of
    index [k], [now] being [t] after line 130: evaluation is configured,
    [now] is a multiple of the nonzero [log_interval], an evaluator and a
    successful score are given, and the evaluator's best score after its
    call is at least that score. *)
Definition successful_score_met (c : collaborators) (cfg : config) (k : nat)
    (now : Z) : Prop :=
  ∃ ev score li,
    is_Some (eval_interval cfg)
    ∧ log_interval cfg = Some li ∧ li ≠ 0 ∧ now `mod` li = 0
    ∧ evaluator c = Some ev ∧ successful_score cfg = Some score
    ∧ (score ≤ max_score ev k)%Qc.

(** A computation that returns or raises on every state. *)
Definition returns_or_raises {A : Type} (m : M A) : Prop :=
  ∀ s, snd (m s) ≠ Running.

(** An environment whose second step raises. *)
Definition failing_second_step (k : nat)
    : result (list spec_float * list bool * list info_dict) :=
  match k with
  | O => Returns (never_done_script 0, [∅])
  | _ => Raises (OtherException 7)
  end.

(** ** [train_agent_batch_with_evaluation] *)

(** The environment handed to the evaluator: the training environment
    itself, or another one. *)
Inductive env_ref : Type :=
| TrainingEnv
| OtherEnv (tag : nat).

(** The keyword arguments [BatchEvaluator] is built with, lines 219-228,
    apart from the agent, the explorer and the logger, which are passed on
    untouched. *)
Record evaluator_args : Type := {
  ea_n_runs : Z;
  ea_eval_interval : option Z;
  ea_outdir : string;
  ea_max_episode_len : option Z;
  ea_env : env_ref;
  ea_step_offset : Z;
  ea_save_best_so_far_agent : bool
}.

Section TrainAgentBatchWithEvaluation.

(** [makedirs(outdir, exist_ok=True)] and the constructor of
    [BatchEvaluator] live outside the file: each returns or raises. *)
Variable makedirs : string → result unit.
Variable new_BatchEvaluator : evaluator_args → result evaluator_script.

Variable c : collaborators.
Variable cfg : config.
Variable np : numpy.

(** [train_agent_batch_with_evaluation], lines 162-241.  The arguments it
    shares with [train_agent_batch] are those of [cfg]; the evaluator of
    [c], if any, is replaced by the one built here. *)
Definition train_agent_batch_with_evaluation (eval_n_runs : Z)
    (eval_max_episode_len : option Z) (eval_env : option env_ref)
    (save_best_so_far_agent : bool) (fuel : nat) : M unit :=
  lift (outcome_of (makedirs (outdir cfg))) ;;
  let eval_env :=
    match eval_env with
    | None => TrainingEnv
    | Some e => e
    end in
  let eval_max_episode_len :=
    match eval_max_episode_len with
    | None => max_episode_len cfg
    | Some m => Some m
    end in
  ev <- lift (outcome_of
                (new_BatchEvaluator
                   {| ea_n_runs := eval_n_runs;
                      ea_eval_interval := eval_interval cfg;
                      ea_outdir := outdir cfg;
                      ea_max_episode_len := eval_max_episode_len;
                      ea_env := eval_env;
                      ea_step_offset := step_offset cfg;
                      ea_save_best_so_far_agent := save_best_so_far_agent |})) ;;
  train_agent_batch (with_evaluator c (Some ev)) cfg np fuel.

End TrainAgentBatchWithEvaluation.

(** ** Views of the trace and of the state *)

(** Several events recorded in a row. *)
Definition record_events (evs : list event) (s : state) : state :=
  foldl (λ s ev, record_event ev s) s evs.

(** The events a pass of the loop records: the calls of lines 103-145. *)
Definition is_pass_event (ev : event) : bool :=
  match ev with
  | BatchActAndTrain | EnvStep | EnvResetMasked _
  | BatchObserveAndTrain _ _ _ | StepHook _ _
  | LoggerInfoProgress _ _ _ | GetStatistics | LoggerInfoStatistics
  | EvaluateIfNecessary _ _ => true
  | _ => false
  end.

(** A computation that only adds events of a given kind to the trace. *)
Definition adds_only {A : Type} (P : event → bool) (m : M A) : Prop :=
  ∀ s, ∃ evs, trace (fst (m s)) = trace s ++ evs ∧ forallb P evs = true.

(** A computation that keeps a property of the state, however it ends. *)
Definition preserves {A : Type} (P : state → Prop) (m : M A) : Prop :=
  ∀ s, P s → P (fst (m s)).

(** The calls of the hooks of one pass: in the order of the list, all with
    the same step. *)
Definition hook_events (j : nat) (now : Z) (hooks : list (Z → result unit))
    : list event :=
  imap (λ i _, StepHook (j + i) now) hooks.

(** A float32 that is a whole number of steps: the count stops at 2^24,
    the last whole number from which adding 1.0 is exact. *)
Definition is_count (l : spec_float) : Prop :=
  ∃ j, 0 ≤ j ≤ 2 ^ 24 ∧ l = f32_of_Z j.

(** A [max_episode_len] that, made a float32, equals no count. *)
Definition beyond_the_counts (m : Z) : Prop :=
  ∀ j, 0 ≤ j ≤ 2 ^ 24 → SFeqb (f32_of_Z j) (f32_of_Z m) = false.

(** The episode arrays have one entry per instance, [episode_r] holds
    float32 numbers, [episode_idx] 32-bit integers and [episode_len]
    counts. *)
Definition arrays_shaped (n : nat) (s : state) : Prop :=
  length (episode_r s) = n ∧ length (episode_idx s) = n
  ∧ length (episode_len s) = n
  ∧ Forall f32_valid (episode_r s)
  ∧ Forall is_int32 (episode_idx s)
  ∧ Forall is_count (episode_len s).

(** The window is within its capacity. *)
Definition window_bounded (cfg : config) (s : state) : Prop :=
  deque_fits (return_window_size cfg) (length (recent_returns s)).

(** The path of the results file. *)
Definition training_r_path (cfg : config) : string :=
  os_path_join (outdir cfg) "training_r.txt".

(** The lines of the results file for the given steps and windows, one
    after the other. *)
Definition training_r_lines (np : numpy)
    (entries : list (Z * list spec_float)) : string :=
  foldr (λ e rest, training_r_line np e.1 e.2 +:+ rest) "" entries.

(** What the results file may have become since [fs]: it is as it was, or
    it holds what it held followed by whole lines, each for a step that is
    a multiple of [log_interval]. *)
Definition results_file_grown (cfg : config) (np : numpy)
    (fs fs' : gmap string string) : Prop :=
  fs' !! training_r_path cfg = fs !! training_r_path cfg
  ∨ ∃ entries,
      entries ≠ []
      ∧ fs' !! training_r_path cfg
        = Some (default "" (fs !! training_r_path cfg)
                +:+ training_r_lines np entries)
      ∧ Forall (λ e, ∃ li, log_interval cfg = Some li ∧ li ≠ 0
                           ∧ e.1 `mod` li = 0) entries.

Definition set_eval_interval (cfg : config) (ei : option Z) : config :=
  {| steps := steps cfg; outdir := outdir cfg; log_interval := log_interval cfg;
     max_episode_len := max_episode_len cfg; eval_interval := ei;
     step_offset := step_offset cfg; successful_score := successful_score cfg;
     return_window_size := return_window_size cfg;
     save_training_r := save_training_r cfg |}.

(** One instance that is never done, with the rewards of [reward]. *)
Definition never_done_rewards (reward : nat → spec_float) (k : nat)
    : list spec_float * list bool :=
  ([reward k], [false]).

(** The first [j] rewards added up the way line 121 does, one after the
    other from 0.0, each sum rounded to float32. *)
Fixpoint rewards_sum (reward : nat → spec_float) (j : nat) : spec_float :=
  match j with
  | O => f32_zero
  | S j' => f32_add_f64 (rewards_sum reward j') (reward j')
  end.

Definition with_env_reset (c : collaborators) (r : result unit) : collaborators :=
  {| env_num_envs := env_num_envs c; env_reset := r;
     agent_has_t := agent_has_t c;
     batch_act_and_train := batch_act_and_train c;
     env_step := env_step c;
     env_reset_masked := env_reset_masked c;
     batch_observe_and_train := batch_observe_and_train c;
     step_hooks := step_hooks c; get_statistics := get_statistics c;
     evaluator := evaluator c; save_agent := save_agent c;
     env_close := env_close c |}.

Definition with_save_agent (c : collaborators) (f : Z → string → result unit)
    : collaborators :=
  {| env_num_envs := env_num_envs c; env_reset := env_reset c;
     agent_has_t := agent_has_t c;
     batch_act_and_train := batch_act_and_train c;
     env_step := env_step c;
     env_reset_masked := env_reset_masked c;
     batch_observe_and_train := batch_observe_and_train c;
     step_hooks := step_hooks c; get_statistics := get_statistics c;
     evaluator := evaluator c; save_agent := f;
     env_close := env_close c |}.

(** * Properties *)

(** ** float32 arithmetic *)

Lemma fexp_f32 e : fexp 24 128 e = Z.max (e - 24) (-149).
Proof. reflexivity. Qed.

Lemma digits2_pos_size p : digits2_pos p = Pos.size p.
Proof. induction p as [p IH|p IH|]; simpl; by rewrite ?IH. Qed.

Lemma Zdigits2_log2 m : 0 < m → Zdigits2 m = Z.log2 m + 1.
Proof.
  destruct m as [|p|p]; [lia| |lia]. intros _. simpl.
  rewrite digits2_pos_size. destruct p as [p|p|]; simpl; lia.
Qed.

Lemma Zdigits2_bounds m :
  0 < m → 2 ^ (Zdigits2 m - 1) ≤ m < 2 ^ Zdigits2 m.
Proof.
  intros Hm. rewrite Zdigits2_log2 by done.
  replace (Z.log2 m + 1 - 1) with (Z.log2 m) by lia.
  pose proof (Z.log2_spec m Hm). by rewrite <- Z.add_1_r in *.
Qed.

Lemma Zdigits2_pos m : 0 < m → 0 < Zdigits2 m.
Proof.
  intros Hm. rewrite Zdigits2_log2 by done.
  pose proof (Z.log2_nonneg m). lia.
Qed.

Lemma Zdigits2_mul_pow2 m j :
  0 < m → 0 ≤ j → Zdigits2 (m * 2 ^ j) = Zdigits2 m + j.
Proof.
  intros Hm Hj. rewrite !Zdigits2_log2 by (try done; by apply Z.mul_pos_pos, Z.pow_pos_nonneg).
  rewrite Z.log2_mul_pow2 by lia. lia.
Qed.

(** digits after a division by a power of two *)
Lemma Zdigits2_div_pow2 m n :
  0 < m → 0 ≤ n →
  (0 < m / 2 ^ n ∧ Zdigits2 (m / 2 ^ n) = Zdigits2 m - n)
  ∨ (m / 2 ^ n = 0 ∧ Zdigits2 m ≤ n).
Proof.
  intros Hm Hn.
  assert (H2 : 0 < 2 ^ n) by (by apply Z.pow_pos_nonneg).
  destruct (decide (m < 2 ^ n)) as [Hlt|Hge].
  - right. split; [apply Z.div_small; lia|].
    rewrite Zdigits2_log2 by done.
    apply Z.log2_lt_pow2 in Hlt; lia.
  - left. assert (Hq : 0 < m / 2 ^ n).
    { apply Z.div_str_pos. lia. }
    split; [done|].
    rewrite !Zdigits2_log2 by done.
    rewrite <- Z.shiftr_div_pow2 by done.
    rewrite Z.log2_shiftr by done.
    assert (n ≤ Z.log2 m); [|lia].
    apply Z.log2_le_pow2; lia.
Qed.

Lemma Zdigits2_succ m :
  0 < m → Zdigits2 (m + 1) = Zdigits2 m ∨ Zdigits2 (m + 1) = Zdigits2 m + 1.
Proof.
  intros Hm. rewrite !Zdigits2_log2 by lia.
  destruct (Z.log2_succ_or m) as [H|H]; rewrite <- Z.add_1_r in H; lia.
Qed.

(** [shr] *)
Lemma shr_m_shr_1 mrs : 0 ≤ shr_m mrs → shr_m (shr_1 mrs) = shr_m mrs / 2.
Proof.
  destruct mrs as [m r s]. simpl. intros Hm.
  destruct m as [|[p|p|]|p]; cbn [shr_1 shr_m]; try lia.
  - done.
  - apply Z.div_unique with 1; lia.
  - apply Z.div_unique with 0; lia.
  - done.
Qed.

Lemma pow2_xO p : 2 ^ Z.pos p~0 = 2 ^ Z.pos p * 2 ^ Z.pos p.
Proof. rewrite <- Z.pow_add_r by lia. f_equal. lia. Qed.

Lemma pow2_xI p : 2 ^ Z.pos p~1 = 2 * (2 ^ Z.pos p * 2 ^ Z.pos p).
Proof.
  rewrite <- Z.pow_add_r, <- Z.pow_succ_r by lia. f_equal. lia.
Qed.

Lemma shr_m_iter_pos p : ∀ mrs,
  0 ≤ shr_m mrs →
  shr_m (SpecFloat.iter_pos shr_1 p mrs) = shr_m mrs / 2 ^ Z.pos p.
Proof.
  assert (Hpow : ∀ q, 0 < 2 ^ Z.pos q).
  { intros q. by apply Z.pow_pos_nonneg. }
  assert (Hdiv : ∀ a q, 0 ≤ a → 0 ≤ a / 2 ^ Z.pos q).
  { intros a q Ha. apply Z.div_pos; [done|]. apply Hpow. }
  induction p as [p IH|p IH|]; intros mrs Hm; cbn [SpecFloat.iter_pos].
  - assert (H1 : 0 ≤ shr_m (shr_1 mrs)).
    { rewrite shr_m_shr_1 by done. by apply Z.div_pos. }
    assert (H2 : 0 ≤ shr_m (SpecFloat.iter_pos shr_1 p (shr_1 mrs))).
    { rewrite IH by done. by apply Hdiv. }
    rewrite (IH _ H2), (IH _ H1), shr_m_shr_1 by done.
    pose proof (Hpow p).
    rewrite pow2_xI, <- !Z.div_div by lia. done.
  - assert (H2 : 0 ≤ shr_m (SpecFloat.iter_pos shr_1 p mrs)).
    { rewrite IH by done. by apply Hdiv. }
    rewrite (IH _ H2), (IH _ Hm).
    pose proof (Hpow p).
    rewrite pow2_xO, <- !Z.div_div by lia. done.
  - by rewrite shr_m_shr_1.
Qed.

Lemma shr_1_exact m :
  0 ≤ m →
  shr_1 (Build_shr_record (m * 2) false false) = Build_shr_record m false false.
Proof.
  intros Hm. destruct m as [|p|p]; [done| |lia].
  by rewrite Z.mul_comm.
Qed.

Lemma iter_pos_shr_1_exact p : ∀ m,
  0 ≤ m →
  SpecFloat.iter_pos shr_1 p (Build_shr_record (m * 2 ^ Z.pos p) false false)
  = Build_shr_record m false false.
Proof.
  assert (Hpow : ∀ q, 0 < 2 ^ Z.pos q).
  { intros q. by apply Z.pow_pos_nonneg. }
  induction p as [p IH|p IH|]; intros m Hm; cbn [SpecFloat.iter_pos].
  - pose proof (Hpow p).
    replace (m * 2 ^ Z.pos p~1) with ((m * 2 ^ Z.pos p) * 2 ^ Z.pos p * 2)
      by (rewrite pow2_xI; lia).
    rewrite shr_1_exact, !IH; try done; try nia.
  - pose proof (Hpow p).
    replace (m * 2 ^ Z.pos p~0) with ((m * 2 ^ Z.pos p) * 2 ^ Z.pos p)
      by (rewrite pow2_xO; lia).
    rewrite !IH; try done; nia.
  - change (2 ^ 1) with 2. by apply shr_1_exact.
Qed.

Lemma shr_m_shr_record_of_loc m l : shr_m (shr_record_of_loc m l) = m.
Proof. by destruct l as [|[]]. Qed.

Lemma round_nearest_even_cases m l :
  round_nearest_even m l = m ∨ round_nearest_even m l = m + 1.
Proof.
  destruct l as [|[]]; simpl; auto. destruct (Z.even m); auto.
Qed.

Lemma Zpos_iter_xO m d : Z.pos (Pos.iter xO m d) = Z.pos m * 2 ^ Z.pos d.
Proof.
  induction d as [|d IH] using Pos.peano_ind.
  - simpl. lia.
  - rewrite Pos.iter_succ, Pos2Z.inj_xO, IH, Pos2Z.inj_succ, Z.pow_succ_r by lia.
    lia.
Qed.

(** Rounding a value that a float32 holds gives that float32. *)
Lemma binary_round_aux_exact s (mc : positive) ec j :
  bounded 24 128 mc ec = true → 0 ≤ j →
  binary_round_aux 24 128 s (Z.pos mc * 2 ^ j) (ec - j) loc_Exact
  = S754_finite s mc ec.
Proof.
  intros Hb Hj. unfold bounded, canonical_mantissa in Hb.
  apply andb_true_iff in Hb as [Hc He].
  apply Z.eqb_eq in Hc. apply Z.leb_le in He.
  assert (Hshr :
    shr_fexp 24 128 (Z.pos mc * 2 ^ j) (ec - j) loc_Exact
    = (Build_shr_record (Z.pos mc) false false, ec)).
  { unfold shr_fexp. rewrite Zdigits2_mul_pow2 by lia.
    replace (Zdigits2 (Z.pos mc) + j + (ec - j))
      with (Z.pos (digits2_pos mc) + ec) by (simpl; lia).
    rewrite Hc. replace (ec - (ec - j)) with j by lia.
    unfold shr. destruct j as [|p|p]; [| |lia].
    - cbn [shr_record_of_loc]. f_equal; [f_equal|]; lia.
    - cbn [shr_record_of_loc]. rewrite iter_pos_shr_1_exact by lia.
      f_equal. lia. }
  unfold binary_round_aux. rewrite Hshr.
  cbn [shr_m loc_of_shr_record round_nearest_even].
  unfold shr_fexp. change (Zdigits2 (Z.pos mc)) with (Z.pos (digits2_pos mc)).
  rewrite Hc, Z.sub_diag. cbn [shr shr_record_of_loc shr_m].
  by rewrite (proj2 (Z.leb_le _ _) He).
Qed.

(** What [binary_round_aux] returns is a float32, provided the mantissa it
    is given has no more precision than the exponent allows. *)
Lemma binary_round_aux_valid s mx ex lx :
  0 < mx → ex ≤ fexp 24 128 (Zdigits2 mx + ex) →
  valid_binary 24 128 (binary_round_aux 24 128 s mx ex lx) = true.
Proof.
  intros Hmx Hex. rewrite fexp_f32 in Hex.
  pose proof (Zdigits2_pos mx Hmx) as Hdx.
  set (e1 := Z.max (Zdigits2 mx + ex - 24) (-149)) in *.
  assert (Hshr1 : ∃ mrs1,
    shr_fexp 24 128 mx ex lx = (mrs1, e1)
    ∧ shr_m mrs1 = mx / 2 ^ (e1 - ex)).
  { unfold shr_fexp, shr. rewrite fexp_f32. fold e1.
    destruct (e1 - ex) as [|p|p] eqn:Hn; [| |lia].
    - eexists. split; [f_equal; lia|].
      rewrite shr_m_shr_record_of_loc. change (2 ^ 0) with 1.
      by rewrite Z.div_1_r.
    - eexists. split; [f_equal; lia|].
      rewrite shr_m_iter_pos; rewrite shr_m_shr_record_of_loc; [done|lia]. }
  destruct Hshr1 as (mrs1 & Hshr1 & Hm1).
  unfold binary_round_aux. rewrite Hshr1.
  set (mr := round_nearest_even (shr_m mrs1) (loc_of_shr_record mrs1)).
  assert (Hmr : mr = shr_m mrs1 ∨ mr = shr_m mrs1 + 1)
    by apply round_nearest_even_cases.
  assert (Hfacts :
    mr = 0
    ∨ (0 < mr ∧ Z.max (Zdigits2 mr + e1 - 24) (-149) = e1)
    ∨ (0 < mr ∧ Zdigits2 mr = 25
       ∧ Z.max (Zdigits2 mr + e1 - 24) (-149) = e1 + 1)).
  { destruct (Zdigits2_div_pow2 mx (e1 - ex) Hmx) as [[Hpos Hd]|[Hz Hd]];
      [lia| |].
    - rewrite <- Hm1 in Hpos, Hd.
      destruct Hmr as [Hmr|Hmr]; rewrite Hmr.
      + right. left. lia.
      + destruct (Zdigits2_succ (shr_m mrs1) Hpos) as [Hs|Hs]; rewrite Hs.
        * right. left. lia.
        * destruct (decide (Zdigits2 (shr_m mrs1) = 24)).
          -- right. right. lia.
          -- right. left. lia.
    - rewrite <- Hm1 in Hz.
      destruct Hmr as [Hmr|Hmr]; rewrite Hmr, Hz; [by left|].
      right. left. simpl. lia. }
  unfold shr_fexp, shr. rewrite fexp_f32. cbn [shr_record_of_loc].
  destruct Hfacts as [Hz|[[Hpos Hc]|(Hpos & Hd & Hc)]].
  - rewrite Hz. change (Zdigits2 0) with 0.
    destruct (Z.max (0 + e1 - 24) (-149) - e1) eqn:Hn; [done|lia|done].
  - rewrite Hc, Z.sub_diag. cbn [shr_m].
    destruct mr as [|m|m] eqn:Hmr'; [done| |done].
    destruct (e1 <=? 128 - 24) eqn:Hle; [|done].
    simpl. unfold bounded, canonical_mantissa. rewrite fexp_f32.
    change (Zdigits2 (Z.pos m)) with (Z.pos (digits2_pos m)) in Hc.
    rewrite Hc, Z.eqb_refl. simpl. exact Hle.
  - rewrite Hc. replace (e1 + 1 - e1) with 1 by lia.
    cbn [SpecFloat.iter_pos].
    pose proof (shr_m_shr_1 (Build_shr_record mr false false)) as Hhalf.
    cbn [shr_m] in Hhalf. specialize (Hhalf ltac:(lia)).
    destruct (Zdigits2_div_pow2 mr 1 Hpos) as [[Hpos2 Hd2]|[Hz2 Hd2]];
      [lia| |lia].
    change (2 ^ 1) with 2 in *. rewrite <- Hhalf in Hpos2, Hd2.
    destruct (shr_m (shr_1 _)) as [|m|m] eqn:Hmr'; [done| |done].
    destruct (e1 + 1 <=? 128 - 24) eqn:Hle; [|done].
    simpl. unfold bounded, canonical_mantissa. rewrite fexp_f32.
    change (Zdigits2 (Z.pos m)) with (Z.pos (digits2_pos m)) in Hd2.
    replace (Z.max _ _) with (e1 + 1) by lia.
    rewrite Z.eqb_refl. simpl. exact Hle.
Qed.

Lemma binary_round_valid s m e :
  valid_binary 24 128 (binary_round 24 128 s m e) = true.
Proof.
  unfold binary_round, shl_align.
  destruct (fexp 24 128 (Z.pos (digits2_pos m) + e) - e) as [|d|d] eqn:Hd.
  - apply binary_round_aux_valid; [done|]. simpl Zdigits2. lia.
  - apply binary_round_aux_valid; [done|]. simpl Zdigits2. lia.
  - apply binary_round_aux_valid; [done|].
    rewrite Zpos_iter_xO, Zdigits2_mul_pow2 by lia. simpl Zdigits2.
    replace (Z.pos (digits2_pos m) + Z.pos d
             + fexp 24 128 (Z.pos (digits2_pos m) + e))
      with (Z.pos (digits2_pos m) + e) by lia.
    lia.
Qed.

Lemma binary_normalize_valid m e sz :
  valid_binary 24 128 (binary_normalize 24 128 m e sz) = true.
Proof. destruct m; simpl; [done|apply binary_round_valid..]. Qed.

Lemma f32_round_valid x : f32_valid (f32_round x).
Proof.
  unfold f32_round. destruct x; simpl; try done. apply binary_round_valid.
Qed.

Lemma f32_add_f64_valid x y : f32_valid (f32_add_f64 x y).
Proof. apply f32_round_valid. Qed.

Lemma f32_of_Z_valid z : f32_valid (f32_of_Z z).
Proof. apply binary_normalize_valid. Qed.

Lemma f32_add_valid x y : f32_valid x → f32_valid y → f32_valid (f32_add x y).
Proof.
  unfold f32_valid, f32_add. intros Hx Hy.
  destruct x as [sx|sx| |sx mx ex], y as [sy|sy| |sy my ey]; simpl;
    try done; try apply binary_normalize_valid;
    repeat match goal with b : bool |- _ => destruct b end; done.
Qed.

(** Multiplying by the mask. *)
Lemma f32_mul_one x : f32_valid x → f32_mul x f32_one = x.
Proof.
  unfold f32_valid. intros Hx.
  destruct x as [sx|sx| |sx mx ex];
    [by destruct sx|by destruct sx|done|].
  change (binary_round_aux 24 128 (xorb sx false)
            (Z.pos (mx * 8388608)) (ex + -23) loc_Exact
          = S754_finite sx mx ex).
  rewrite xorb_false_r, Pos2Z.inj_mul.
  change (Z.pos 8388608) with (2 ^ 23).
  by apply (binary_round_aux_exact sx mx ex 23).
Qed.

Lemma f32_mul_zero x :
  f32_mul x f32_zero
  = match x with
    | S754_zero s | S754_finite s _ _ => S754_zero s
    | _ => S754_nan
    end.
Proof.
  unfold f32_mul. destruct x as [s|s| |s m e]; simpl; by rewrite ?xorb_false_r.
Qed.

(** ** Whole numbers in float32 *)

Lemma binary_round_exact s m e (mc : positive) ec j :
  bounded 24 128 mc ec = true → 0 ≤ j →
  Z.pos m = Z.pos mc * 2 ^ j → e = ec - j →
  binary_round 24 128 s m e = S754_finite s mc ec.
Proof.
  intros Hb Hj Hm ->.
  pose proof Hb as Hb'. unfold bounded, canonical_mantissa in Hb'.
  apply andb_true_iff in Hb' as [Hc _]. apply Z.eqb_eq in Hc.
  unfold binary_round, shl_align.
  change (Z.pos (digits2_pos m)) with (Zdigits2 (Z.pos m)).
  rewrite Hm, Zdigits2_mul_pow2 by lia.
  replace (Zdigits2 (Z.pos mc) + j + (ec - j))
    with (Z.pos (digits2_pos mc) + ec) by (simpl; lia).
  rewrite Hc.
  destruct (ec - (ec - j)) as [|d|d] eqn:Hd; [| |lia];
    rewrite Hm; by apply binary_round_aux_exact.
Qed.

Lemma binary_round_exact_l s m e (mc : positive) ec j :
  bounded 24 128 mc ec = true → 0 ≤ j →
  Z.pos mc = Z.pos m * 2 ^ j → ec = e - j →
  binary_round 24 128 s m e = S754_finite s mc ec.
Proof.
  intros Hb Hj Hm ->.
  destruct (decide (j = 0)) as [->|Hj0].
  { apply (binary_round_exact s m e mc (e - 0) 0); [done|lia| |lia].
    rewrite Hm. change (2 ^ 0) with 1. lia. }
  pose proof Hb as Hb'. unfold bounded, canonical_mantissa in Hb'.
  apply andb_true_iff in Hb' as [Hc _]. apply Z.eqb_eq in Hc.
  change (Z.pos (digits2_pos mc)) with (Zdigits2 (Z.pos mc)) in Hc.
  rewrite Hm, Zdigits2_mul_pow2 in Hc by lia.
  unfold binary_round, shl_align.
  change (Z.pos (digits2_pos m)) with (Zdigits2 (Z.pos m)).
  replace (Zdigits2 (Z.pos m) + e) with (Zdigits2 (Z.pos m) + j + (e - j))
    by lia.
  rewrite Hc.
  destruct (e - j - e) as [|d|d] eqn:Hd; [lia|lia|].
  assert (Pos.iter xO m d = mc) as ->.
  { apply Pos2Z.inj. rewrite Zpos_iter_xO, Hm. do 2 f_equal. lia. }
  replace (Z.pos mc) with (Z.pos mc * 2 ^ 0) by (change (2 ^ 0) with 1; lia).
  replace (e - j) with (e - j - 0) at 1 by lia.
  apply (binary_round_aux_exact s mc (e - j) 0); [done|lia].
Qed.

(** The float32 of a whole number between 1 and 2^24: its mantissa and
    exponent. *)
Lemma f32_of_Z_canon q :
  1 ≤ q ≤ 2 ^ 24 →
  ∃ (mc : positive) (ec : Z),
    f32_of_Z q = S754_finite false mc ec
    ∧ bounded 24 128 mc ec = true
    ∧ -23 ≤ ec ≤ 1
    ∧ Z.pos mc * 2 ^ (ec + 23) = q * 2 ^ 23.
Proof.
  intros Hq. change (2 ^ 24) with 16777216 in Hq.
  destruct (decide (q = 16777216)) as [->|Hne].
  { exists 8388608%positive, 1. repeat split; done. }
  assert (Hq' : 0 < q) by lia.
  pose proof (Zdigits2_bounds q Hq') as Hd.
  pose proof (Zdigits2_pos q Hq') as Hd1.
  assert (Hd24 : Zdigits2 q ≤ 24).
  { destruct (decide (Zdigits2 q ≤ 24)) as [|Hgt]; [done|].
    assert (2 ^ 24 ≤ 2 ^ (Zdigits2 q - 1))
      by (apply Z.pow_le_mono_r; lia).
    change (2 ^ 24) with 16777216 in *. lia. }
  set (d := Zdigits2 q) in *.
  assert (Hpow : 0 < 2 ^ (24 - d)) by (apply Z.pow_pos_nonneg; lia).
  exists (Z.to_pos (q * 2 ^ (24 - d))), (d - 24).
  assert (Hmc : Z.pos (Z.to_pos (q * 2 ^ (24 - d))) = q * 2 ^ (24 - d))
    by (apply Z2Pos.id; nia).
  assert (Hb : bounded 24 128 (Z.to_pos (q * 2 ^ (24 - d))) (d - 24) = true).
  { unfold bounded, canonical_mantissa. rewrite fexp_f32.
    change (Z.pos (digits2_pos ?m)) with (Zdigits2 (Z.pos m)).
    rewrite Hmc, Zdigits2_mul_pow2 by lia. fold d.
    apply andb_true_iff. split; [apply Z.eqb_eq|apply Z.leb_le]; lia. }
  split; [|split; [done|split; [lia|]]].
  - destruct q as [|p|p]; [lia| |lia].
    apply (binary_round_exact_l false p 0 _ (d - 24) (24 - d));
      [done|lia|done|lia].
  - rewrite Hmc, <- Z.mul_assoc, <- Z.pow_add_r by lia.
    do 2 f_equal. lia.
Qed.

Lemma f32_of_Z_0 : f32_of_Z 0 = f32_zero.
Proof. reflexivity. Qed.

Lemma shl_align_fst m e e' :
  e' ≤ e → Z.pos (fst (shl_align m e e')) = Z.pos m * 2 ^ (e - e').
Proof.
  intros He. unfold shl_align.
  destruct (e' - e) as [|d|d] eqn:Hd; simpl.
  - replace (e - e') with 0 by lia. change (2 ^ 0) with 1. lia.
  - lia.
  - rewrite Zpos_iter_xO. do 2 f_equal. lia.
Qed.

(** [episode_len += 1] counts exactly, up to 2^24. *)
Lemma f32_count_succ k :
  0 ≤ k < 2 ^ 24 → f32_add (f32_of_Z k) f32_one = f32_of_Z (k + 1).
Proof.
  intros Hk. destruct (decide (k = 0)) as [->|Hk0]; [done|].
  destruct (f32_of_Z_canon k) as (mk & ek & Hfk & Hbk & Hek & Hvk); [lia|].
  destruct (f32_of_Z_canon (k + 1)) as (mc & ec & Hfc & Hbc & Hec & Hvc);
    [lia|].
  rewrite Hfk, Hfc. unfold f32_add.
  change f32_one with (S754_finite false 8388608 (-23)).
  unfold SFadd. replace (Z.min ek (-23)) with (-23) by lia.
  cbn [cond_Zopp].
  change (Z.pos (fst (shl_align 8388608 (-23) (-23)))) with (2 ^ 23).
  pose proof (shl_align_fst mk ek (-23) ltac:(lia)) as Hal.
  replace (ek - -23) with (ek + 23) in Hal by lia.
  rewrite Hvk in Hal.
  destruct (Z.pos (fst (shl_align mk ek (-23))) + 2 ^ 23) as [|m|m] eqn:Hsum;
    [lia| |lia].
  simpl binary_normalize.
  apply (binary_round_exact false m (-23) mc ec (ec + 23)); [done|lia| |lia].
  rewrite Hvc. lia.
Qed.

(** ... and stays at 2^24. *)
Lemma f32_count_stuck :
  f32_add (f32_of_Z (2 ^ 24)) f32_one = f32_of_Z (2 ^ 24).
Proof. reflexivity. Qed.

Lemma f32_of_Z_inj a b :
  0 ≤ a ≤ 2 ^ 24 → 0 ≤ b ≤ 2 ^ 24 → f32_of_Z a = f32_of_Z b → a = b.
Proof.
  intros Ha Hb Heq.
  destruct (decide (a = 0)) as [->|Ha0], (decide (b = 0)) as [->|Hb0];
    [done| | |].
  - destruct (f32_of_Z_canon b) as (m & e & Hf & _); [lia|].
    rewrite Hf in Heq. discriminate.
  - destruct (f32_of_Z_canon a) as (m & e & Hf & _); [lia|].
    rewrite Hf in Heq. discriminate.
  - destruct (f32_of_Z_canon a) as (ma & ea & Hfa & _ & _ & Hva); [lia|].
    destruct (f32_of_Z_canon b) as (mb & eb & Hfb & _ & _ & Hvb); [lia|].
    rewrite Hfa, Hfb in Heq. injection Heq as -> ->.
    rewrite Hva in Hvb. change (2 ^ 23) with 8388608 in Hvb. lia.
Qed.

Lemma SFeqb_pos_finite m1 e1 m2 e2 :
  SFeqb (S754_finite false m1 e1) (S754_finite false m2 e2)
  = bool_decide (S754_finite false m1 e1 = S754_finite false m2 e2).
Proof.
  unfold SFeqb, SFcompare.
  destruct (Z.compare_spec e1 e2) as [->|Hlt|Hgt].
  - change (Pos.compare_cont Eq m1 m2) with (Pos.compare m1 m2).
    destruct (Pos.compare_spec m1 m2) as [->|Hlt|Hgt].
    + by rewrite bool_decide_eq_true_2.
    + rewrite bool_decide_eq_false_2; [done|]. intros [= ->]. lia.
    + rewrite bool_decide_eq_false_2; [done|]. intros [= ->]. lia.
  - rewrite bool_decide_eq_false_2; [done|]. intros [= -> ->]. lia.
  - rewrite bool_decide_eq_false_2; [done|]. intros [= -> ->]. lia.
Qed.

(** [episode_len == max_episode_len] on counts. *)
Lemma f32_count_eqb a b :
  0 ≤ a ≤ 2 ^ 24 → 0 ≤ b ≤ 2 ^ 24 →
  SFeqb (f32_of_Z a) (f32_of_Z b) = bool_decide (a = b).
Proof.
  intros Ha Hb.
  destruct (decide (a = 0)) as [->|Ha0], (decide (b = 0)) as [->|Hb0].
  - done.
  - destruct (f32_of_Z_canon b) as (m & e & Hf & _); [lia|].
    rewrite Hf. simpl. by rewrite bool_decide_eq_false_2 by lia.
  - destruct (f32_of_Z_canon a) as (m & e & Hf & _); [lia|].
    rewrite Hf. simpl. by rewrite bool_decide_eq_false_2 by lia.
  - destruct (f32_of_Z_canon a) as (ma & ea & Hfa & _); [lia|].
    destruct (f32_of_Z_canon b) as (mb & eb & Hfb & _); [lia|].
    pose proof (f32_of_Z_inj a b Ha Hb) as Hinj.
    rewrite Hfa, Hfb.
    rewrite SFeqb_pos_finite, <- Hfa, <- Hfb.
    apply bool_decide_ext. split; [done|by intros ->].
Qed.

Lemma f32_count_times_zero k :
  0 ≤ k ≤ 2 ^ 24 → f32_mul (f32_of_Z k) f32_zero = f32_zero.
Proof.
  intros Hk. rewrite f32_mul_zero.
  destruct (decide (k = 0)) as [->|Hk0]; [done|].
  destruct (f32_of_Z_canon k) as (m & e & -> & _); [lia|done].
Qed.

(** ** The continuation mask *)

Section Masks.

Implicit Types (done reset_mask masks : list bool) (i n : nat).

Lemma np_binary_same_length {A B C : Type} (f : A → B → C) xs ys :
  length xs = length ys → np_binary f xs ys = Ok (zip_with f xs ys).
Proof.
  intros Hlen. unfold np_binary.
  by rewrite (proj2 (Nat.eqb_eq _ _) Hlen).
Qed.

Lemma np_inplace_same_length {A B : Type} (f : A → B → A) xs ys :
  length xs = length ys → np_inplace f xs ys = Ok (zip_with f xs ys).
Proof.
  intros Hlen. unfold np_inplace.
  by rewrite (proj2 (Nat.eqb_eq _ _) Hlen).
Qed.

Lemma length_reset_mask_of n (episode_len : list spec_float) m :
  length episode_len = n → length (reset_mask_of n episode_len m) = n.
Proof.
  intros Hlen. destruct m as [m|]; simpl.
  - by rewrite length_fmap.
  - apply length_replicate.
Qed.

(** The mask of lines 43 and 115, entry by entry. *)
Lemma logical_not_or_lookup reset_mask done i rs d :
  reset_mask !! i = Some rs → done !! i = Some d →
  np_logical_not (zip_with orb reset_mask done) !! i = Some (negb (d || rs)).
Proof.
  intros Hrs Hd. unfold np_logical_not.
  rewrite list_lookup_fmap, lookup_zip_with, Hrs. simpl. rewrite Hd. simpl.
  by rewrite orb_comm.
Qed.

Lemma reset_mask_unset n (episode_len : list spec_float) :
  reset_mask_of n episode_len None = replicate n false.
Proof. reflexivity. Qed.

(** With a maximum configured, the reset mask of a slot is true exactly
    when the length recorded for it, which does not count the step just
    taken, equals the maximum as float32 numbers. *)
Lemma reset_mask_configured n (episode_len : list spec_float) m i l :
  episode_len !! i = Some l →
  reset_mask_of n episode_len (Some m) !! i = Some (SFeqb l (f32_of_Z m)).
Proof.
  intros Hl. simpl. by rewrite list_lookup_fmap, Hl.
Qed.

(** On counts up to 2^24 that is the equality of the whole numbers. *)
Lemma reset_mask_of_count n (episode_len : list spec_float) m i j :
  episode_len !! i = Some (f32_of_Z j) → 0 ≤ j ≤ 2 ^ 24 → 0 ≤ m ≤ 2 ^ 24 →
  reset_mask_of n episode_len (Some m) !! i = Some (bool_decide (j = m)).
Proof.
  intros Hl Hj Hm. rewrite (reset_mask_configured _ _ _ _ _ Hl).
  by rewrite f32_count_eqb.
Qed.

End Masks.

(** With done flags for every slot the masks of lines 107-115 are computed
    without a broadcast and leave the state alone. *)
Lemma compute_masks_shaped cfg n done info s :
  length (episode_len s) = n → length done = n →
  compute_masks cfg n done info s
  = (s, Ok (package_reset info
              (reset_mask_of n (episode_len s) (max_episode_len cfg)),
            np_logical_not
              (zip_with orb
                 (reset_mask_of n (episode_len s) (max_episode_len cfg))
                 done))).
Proof.
  intros Hlen Hdone.
  unfold compute_masks, bind, gets, lift, ret, np_logical_or.
  by rewrite np_binary_same_length
    by (rewrite length_reset_mask_of; congruence).
Qed.

Lemma length_continuation_mask n (episode_len : list spec_float) m done :
  length episode_len = n → length done = n →
  length (np_logical_not (zip_with orb (reset_mask_of n episode_len m) done))
  = n.
Proof.
  intros Hlen Hdone. unfold np_logical_not.
  rewrite length_fmap, length_zip_with, length_reset_mask_of by done. lia.
Qed.

(** C3: on every pass, whatever the done flags and the reset mask are, the
    continuation mask is the elementwise negation of (done OR reset mask):
    a slot continues iff it is neither done nor forced to reset.  This holds
    for the mask of the loop (line 115) and for that of [_get_mask]. *)
Theorem continuation_mask_negates_done_or_reset
    (cfg : config) (n : nat) (done : list bool) (info : list info_dict)
    (s : state) :
  length (episode_len s) = n → length done = n →
  let reset_mask := reset_mask_of n (episode_len s) (max_episode_len cfg) in
  ∃ info' masks,
    compute_masks cfg n done info s = (s, Ok (info', masks))
    ∧ _get_mask n info done (episode_len s) (max_episode_len cfg)
      = Ok (info', masks)
    ∧ length masks = n
    ∧ ∀ i d rs, done !! i = Some d → reset_mask !! i = Some rs →
        masks !! i = Some (negb (d || rs)).
Proof.
  intros Hlen Hdone reset_mask.
  assert (Hrm : length reset_mask = length done).
  { unfold reset_mask. rewrite length_reset_mask_of; congruence. }
  exists (package_reset info reset_mask),
         (np_logical_not (zip_with orb reset_mask done)).
  repeat split.
  - by apply compute_masks_shaped.
  - unfold _get_mask. fold reset_mask.
    unfold np_logical_or. by rewrite np_binary_same_length.
  - by apply length_continuation_mask.
  - intros i d rs Hd Hrs. by apply logical_not_or_lookup.
Qed.

Lemma continuation_mask_negates_done_or_reset_witness :
  let cfg := with_max_episode_len (default_config 4 "out") (Some 0) in
  let s := loop_entry (quiet 2 (two_slot_script reward_0 reward_0 reward_0 reward_0)) cfg 2
             (initial_state ∅ None) in
  let reset_mask := reset_mask_of 2 (episode_len s) (max_episode_len cfg) in
  ∃ info' masks,
    compute_masks cfg 2 [false; true] [∅; ∅] s = (s, Ok (info', masks))
    ∧ _get_mask 2 [∅; ∅] [false; true] (episode_len s) (max_episode_len cfg)
      = Ok (info', masks)
    ∧ length masks = 2%nat
    ∧ ∀ i d rs, [false; true] !! i = Some d → reset_mask !! i = Some rs →
        masks !! i = Some (negb (d || rs)).
Proof.
  intros cfg s.
  apply (continuation_mask_negates_done_or_reset cfg 2 [false; true] [∅; ∅] s);
    reflexivity.
Defined.

(** ** The reset mask *)

(** C2, on the code: with [max_episode_len = 1] and one instance that is
    never done, the first pass steps the environment once, so the episode
    has run [max_episode_len] steps, yet the reset mask is false (the
    comparison reads [episode_len] before line 122 increments it) and the
    environment is told to continue; the reset comes one pass later, when
    the episode has run two steps. *)
Theorem reset_mask_reads_length_before_increment :
  let c := quiet 1 never_done_script in
  let cfg := with_max_episode_len (default_config 2 "out") (Some 1) in
  let s0 := loop_entry c cfg 1 (initial_state ∅ None) in
  ∃ s1 s2,
    loop_body c cfg plain_numpy 1 0 s0 = (s1, Ok false)
    ∧ reset_mask_of 1 (episode_len s0) (Some 1) = [false]
    ∧ masks_of_trace (trace s1) = [[true]]
    ∧ episode_len s1 = [f32_of_Z 1]
    ∧ loop_body c cfg plain_numpy 1 1 s1 = (s2, Ok false)
    ∧ reset_mask_of 1 (episode_len s1) (Some 1) = [true]
    ∧ masks_of_trace (trace s2) = [[true]; [false]]
    ∧ recent_returns s2 = [f32_of_Z 2].
Proof.
  intros c cfg s0. eexists _, _.
  split; [vm_compute; reflexivity|].
  split; [reflexivity|].
  split; [reflexivity|].
  split; [reflexivity|].
  split; [vm_compute; reflexivity|].
  split; [reflexivity|].
  split; [reflexivity|].
  reflexivity.
Qed.

(** ** A missing instance count *)

(** C8: when the environment has no [num_envs], the error is logged and
    raised again at once; the environment is neither reset nor stepped, the
    agent is not trained, no checkpoint is taken and no file is written. *)
Theorem missing_num_envs_is_logged_and_raised
    (c : collaborators) (cfg : config) (np : numpy)
    (fuel : nat) (s : state) :
  env_num_envs c = Raises AttributeError →
  ∃ s',
    train_agent_batch c cfg np fuel s = (s', Raise AttributeError)
    ∧ trace s' = trace s ++ [LoggerError]
    ∧ files s' = files s
    ∧ agent_t s' = agent_t s.
Proof.
  intros Hnum. eexists. split.
  - unfold train_agent_batch, bind, modify, get_num_envs. rewrite Hnum.
    reflexivity.
  - done.
Qed.

Lemma missing_num_envs_is_logged_and_raised_witness :
  let c := with_num_envs (quiet 2 (two_slot_script reward_0 reward_0 reward_0 reward_0))
             (Raises AttributeError) in
  ∃ s',
    train_agent_batch c (default_config 4 "out") plain_numpy 8
      (initial_state ∅ None) = (s', Raise AttributeError)
    ∧ trace s' = trace (initial_state ∅ None) ++ [LoggerError]
    ∧ files s' = files (initial_state ∅ None)
    ∧ agent_t s' = agent_t (initial_state ∅ None).
Proof.
  intros c.
  apply (missing_num_envs_is_logged_and_raised c (default_config 4 "out")
           plain_numpy 8 (initial_state ∅ None)).
  reflexivity.
Defined.

(** ** The replay buffer *)

(** C9, on the code: an agent whose replay buffer is empty is still asked,
    and on a yes the empty buffer is saved; the claim has no question and no
    save there. *)
Lemma empty_replay_buffer_is_asked_about :
  let run :=
    ask_and_save_agent_replay_buffer (Some 0%nat) (λ _, true)
      (λ _, Returns tt) 7 "out" "_x" (initial_state ∅ None) in
  trace (fst run)
  = [AskYesNo "Replay buffer has 0 transitions. Do you save them to a file?";
     ReplayBufferSave "out/7_x.replay.pkl";
     LoggerInfoSaved "out/7_x.replay.pkl"]
  ∧ trace (fst run) ≠ trace (initial_state ∅ None).
Proof. split; [reflexivity | discriminate]. Qed.

(** C9, as the code has it: the user is asked exactly when the agent has a
    replay buffer, whatever its length, the question naming that length;
    the buffer is saved (and the save logged) exactly on a yes; an agent
    without a replay buffer is not asked and nothing is saved. *)
Theorem ask_and_save_asks_when_buffer_exists
    (ask_yes_no : string → bool) (save : string → result unit)
    (t : Z) (outdir suffix : string) (s : state) :
  ask_and_save_agent_replay_buffer None ask_yes_no save t outdir suffix s
  = (s, Ok tt)
  ∧ ∀ n : nat,
      let question :=
        "Replay buffer has " +:+ pretty n
        +:+ " transitions. Do you save them to a file?" in
      let filename :=
        os_path_join outdir (str_int t +:+ suffix +:+ ".replay.pkl") in
      let asked := record_event (AskYesNo question) s in
      let saving := record_event (ReplayBufferSave filename) asked in
      ask_and_save_agent_replay_buffer (Some n) ask_yes_no save t outdir suffix s
      = if ask_yes_no question
        then match save filename with
             | Returns _ => (record_event (LoggerInfoSaved filename) saving, Ok tt)
             | Raises e => (saving, Raise e)
             end
        else (asked, Ok tt).
Proof.
  split; [reflexivity|].
  intros n question filename asked saving.
  unfold ask_and_save_agent_replay_buffer, save_agent_replay_buffer, bind, call.
  simpl. fold question. destruct (ask_yes_no question); [|reflexivity].
  fold filename. by destruct (save filename).
Qed.

(** ** How the pieces of a pass act on the state *)

Section Frames.

Context {A B : Type}.

Lemma bind_Ok (m : M A) (k : A → M B) s s' b :
  bind m k s = (s', Ok b) →
  ∃ a s1, m s = (s1, Ok a) ∧ k a s1 = (s', Ok b).
Proof.
  unfold bind. destruct (m s) as [s1 [a|e|]]; intros H; try discriminate.
  by exists a, s1.
Qed.

Lemma bind_eq_Ok (m : M A) (k : A → M B) s s1 a :
  m s = (s1, Ok a) → bind m k s = k a s1.
Proof. unfold bind. by intros ->. Qed.


End Frames.

#[local] Instance same_but_trace_refl : Reflexive same_but_trace.
Proof. by intros s. Qed.

#[local] Instance same_but_trace_trans : Transitive same_but_trace.
Proof.
  intros s1 s2 s3 (?&?&?&?&?&?&?) (?&?&?&?&?&?&?).
  repeat split; congruence.
Qed.



Lemma call_Ok {A : Type} ev (r : result A) s s' a :
  call ev r s = (s', Ok a) → r = Returns a ∧ s' = record_event ev s.
Proof.
  unfold call. destruct r; simpl; intros H; by simplify_eq.
Qed.

Lemma run_hooks_same_but_trace j hooks s :
  same_but_trace s (fst (run_hooks j hooks s)).
Proof.
  revert j s. induction hooks as [|hook hooks IH]; intros j s; [done|].
  simpl. unfold bind, gets, call. simpl.
  destruct (hook (t s)); simpl; [|done].
  etrans; [|apply IH]. done.
Qed.

Lemma log_and_evaluate_same_but_trace c cfg np k s :
  same_but_trace s (fst (log_and_evaluate c cfg np k s)).
Proof.
  unfold log_and_evaluate, bind, gets, lift, modify, call, ret.
  destruct (eval_interval cfg); [|done]. simpl.
  destruct (python_mod _ _) as [m|e|]; [|done..].
  destruct (m =? 0); [|done]. simpl.
  destruct (get_statistics c k); simpl; [|done].
  destruct (evaluator c) as [ev|]; [|done]. simpl.
  destruct (evaluate_if_necessary ev k); simpl; [|done].
  by destruct (successful_score cfg).
Qed.

Lemma compute_masks_state cfg n done info s :
  fst (compute_masks cfg n done info s) = s.
Proof.
  unfold compute_masks, bind, gets, lift, ret.
  by destruct (np_logical_or _ _).
Qed.

Lemma write_training_r_same_but_files cfg np s :
  same_but_files s (fst (write_training_r cfg np s)).
Proof.
  unfold write_training_r, bind, gets, lift, ret, _write_to_file, modify.
  destruct (save_training_r cfg); [|done].
  destruct (python_mod _ _) as [m|e|]; [|done..].
  by destruct (m =? 0).
Qed.

Lemma update_episodes_world cfg n r masks s :
  let s' := fst (update_episodes cfg n r masks s) in
  trace s' = trace s ∧ files s' = files s ∧ agent_t s' = agent_t s.
Proof.
  unfold update_episodes, bind, gets, lift, modify. simpl.
  destruct (np_inplace f32_add_f64 _ _); [|done..]. simpl.
  destruct (np_inplace _ _ _); [|done..]. simpl.
  destruct (np_inplace f32_mul _ _); [|done..]. simpl.
  by destruct (np_inplace f32_mul _ _).
Qed.

(** A pass that completes went through every line of the body. *)
Lemma loop_body_Ok c cfg np n k s s' stop :
  loop_body c cfg np n k s = (s', Ok stop) →
  ∃ r done info info' masks s1 s2 s3 s4,
    env_step c k = Returns (r, done, info)
    ∧ compute_masks cfg n done info s = (s, Ok (info', masks))
    ∧ same_but_trace s s1
    ∧ update_episodes cfg n r masks s1 = (s2, Ok tt)
    ∧ run_hooks 0 (step_hooks c) s2 = (s3, Ok tt)
    ∧ write_training_r cfg np s3 = (s4, Ok tt)
    ∧ log_and_evaluate c cfg np k s4 = (s', Ok stop).
Proof.
  unfold loop_body. intros H.
  apply bind_Ok in H as (? & sa & Ha & H). apply call_Ok in Ha as [_ ->].
  apply bind_Ok in H as ([[r done] info] & sb & Hb & H).
  apply call_Ok in Hb as [Hstep ->].
  apply bind_Ok in H as ([info' masks] & sc & Hc & H).
  pose proof (compute_masks_state cfg n done info
                (record_event EnvStep (record_event BatchActAndTrain s))) as Hst.
  rewrite Hc in Hst. simpl in Hst. subst sc.
  apply bind_Ok in H as (? & sd & Hd & H). apply call_Ok in Hd as [_ ->].
  apply bind_Ok in H as (? & se & He & H). apply call_Ok in He as [_ ->].
  apply bind_Ok in H as ([] & s2 & Hupd & H).
  apply bind_Ok in H as ([] & s3 & Hhooks & H).
  apply bind_Ok in H as ([] & s4 & Hwrite & H).
  exists r, done, info, info', masks.
  exists (record_event (BatchObserveAndTrain r done info')
            (record_event (EnvResetMasked masks)
               (record_event EnvStep (record_event BatchActAndTrain s)))).
  exists s2, s3, s4.
  repeat split; try eassumption; try done.
  unfold compute_masks, bind, gets, lift, ret in *; simpl in *.
  destruct (np_logical_or _ _); by simplify_eq.
Qed.

(** ** The episode bookkeeping *)

Lemma wrap32_id x : is_int32 x → wrap32 x = x.
Proof.
  unfold is_int32, wrap32. intros Hx.
  rewrite Z.mod_small; lia.
Qed.

Lemma wrap32_succ x :
  is_int32 x →
  wrap32 (x + 1) = if decide (x = 2 ^ 31 - 1) then - 2 ^ 31 else x + 1.
Proof.
  intros Hx. case_decide as Hmax.
  - subst x. reflexivity.
  - apply wrap32_id. unfold is_int32 in *. lia.
Qed.

Lemma wrap32_is_int32 x : is_int32 (wrap32 x).
Proof.
  unfold is_int32, wrap32.
  pose proof (Z.mod_pos_bound (x + 2 ^ 31) (2 ^ 32)). lia.
Qed.

Lemma ma_compressed_lookup {A : Type} (data : list A) mask i x :
  data !! i = Some x → mask !! i = Some false → x ∈ ma_compressed data mask.
Proof.
  revert mask i. induction data as [|y data IH]; intros [|m mask] [|i];
    simpl; intros Hx Hm; simplify_eq.
  - left.
  - destruct m; [|right]; by eapply IH.
Qed.

Lemma ma_compressed_elem_of {A : Type} (data : list A) mask x :
  x ∈ ma_compressed data mask →
  ∃ i, data !! i = Some x ∧ mask !! i = Some false.
Proof.
  revert mask. induction data as [|y data IH]; intros [|m mask]; simpl;
    intros Hin; try by apply elem_of_nil in Hin.
  destruct m.
  - destruct (IH _ Hin) as (i & ? & ?). by exists (S i).
  - apply elem_of_cons in Hin as [->|Hin].
    + by exists 0%nat.
    + destruct (IH _ Hin) as (i & ? & ?). by exists (S i).
Qed.

(** The window is a bounded queue: what it holds after an [extend] are the
    last [m] entries of what it held followed by the new entries. *)
Lemma deque_extend_cons {A : Type} maxlen (d : list A) x xs :
  deque_extend maxlen d (x :: xs)
  = deque_extend maxlen (deque_append maxlen d x) xs.
Proof. reflexivity. Qed.

Lemma deque_extend_bounded {A : Type} (m : nat) (d xs : list A) :
  (length d ≤ m)%nat →
  deque_extend (Some m) d xs
  = drop (length d + length xs - m)%nat (d ++ xs).
Proof.
  revert d. induction xs as [|x xs IH]; intros d Hd.
  - rewrite app_nil_r. simpl.
    by replace (length d + 0 - m)%nat with 0%nat by lia.
  - rewrite deque_extend_cons, IH; unfold deque_append.
    + rewrite length_drop, length_app. simpl.
      rewrite <- drop_app_le by (rewrite length_app; simpl; lia).
      rewrite drop_drop, <- app_assoc. simpl. f_equal. lia.
    + rewrite length_drop, length_app. simpl. lia.
Qed.

Lemma deque_extend_unbounded {A : Type} (d xs : list A) :
  deque_extend None d xs = d ++ xs.
Proof.
  revert d. induction xs as [|x xs IH]; intros d.
  - by rewrite app_nil_r.
  - rewrite deque_extend_cons, IH. simpl. by rewrite <- app_assoc.
Qed.

Lemma deque_extend_fits {A : Type} maxlen (d xs : list A) :
  deque_fits maxlen (length d + length xs) →
  deque_extend maxlen d xs = d ++ xs.
Proof.
  destruct maxlen as [m|]; simpl; intros Hfit.
  - rewrite deque_extend_bounded by lia.
    by replace (length d + length xs - m)%nat with 0%nat by lia.
  - apply deque_extend_unbounded.
Qed.

Lemma update_episodes_shaped cfg n r masks s :
  length (episode_r s) = n → length (episode_idx s) = n →
  length (episode_len s) = n → length r = n → length masks = n →
  update_episodes cfg n r masks s
  = ({| trace := trace s; files := files s; agent_t := agent_t s;
        t := t s + Z.of_nat n;
        episode_r :=
          zip_with f32_mul (zip_with f32_add_f64 (episode_r s) r)
            (f32_of_bool <$> masks);
        episode_idx :=
          zip_with (λ x y, wrap32 (x + y)) (episode_idx s)
            ((λ m, 1 - bool_to_Z m) <$> masks);
        episode_len :=
          zip_with f32_mul ((λ l, f32_add l f32_one) <$> episode_len s)
            (f32_of_bool <$> masks);
        recent_returns :=
          deque_extend (return_window_size cfg) (recent_returns s)
            (ma_compressed (zip_with f32_add_f64 (episode_r s) r) masks) |},
     Ok tt).
Proof.
  intros Hr Hidx Hlen Hrew Hmasks.
  unfold update_episodes, bind, gets, lift, modify. simpl.
  rewrite (np_inplace_same_length f32_add_f64) by congruence. simpl.
  rewrite np_inplace_same_length by (rewrite length_fmap; congruence). simpl.
  rewrite (np_inplace_same_length f32_mul)
    by (rewrite length_zip_with, length_fmap; lia). simpl.
  rewrite np_inplace_same_length by (rewrite !length_fmap; congruence).
  reflexivity.
Qed.

(** What lines 121-129 leave in one slot. *)
Lemma update_episodes_slot cfg n r masks s i er ri l x m :
  length (episode_r s) = n → length (episode_idx s) = n →
  length (episode_len s) = n → length r = n → length masks = n →
  episode_r s !! i = Some er → r !! i = Some ri →
  episode_len s !! i = Some l → episode_idx s !! i = Some x →
  masks !! i = Some m →
  let s' := fst (update_episodes cfg n r masks s) in
  episode_r s' !! i = Some (f32_mul (f32_add_f64 er ri) (f32_of_bool m))
  ∧ episode_len s' !! i
    = Some (f32_mul (f32_add l f32_one) (f32_of_bool m))
  ∧ episode_idx s' !! i = Some (wrap32 (x + (1 - bool_to_Z m))).
Proof.
  intros Hr Hidx Hlen Hrew Hmasks Her Hri Hl Hx Hm.
  rewrite update_episodes_shaped by done. simpl.
  rewrite !lookup_zip_with, !list_lookup_fmap, Her, Hri, Hl, Hx, Hm.
  done.
Qed.

(** One more step on a count: exact below 2^24, where the count stays. *)
Lemma f32_count_step j :
  0 ≤ j ≤ 2 ^ 24 →
  f32_add (f32_of_Z j) f32_one = f32_of_Z (Z.min (j + 1) (2 ^ 24)).
Proof.
  intros Hj. destruct (decide (j = 2 ^ 24)) as [->|Hne]; [done|].
  rewrite f32_count_succ by lia. f_equal. lia.
Qed.

(** C4, as the code has it.  In a pass that completes, with rewards and
    done flags for every slot: the returns of the slots whose continuation
    mask is false are appended to the window, in slot order (the window
    keeps its newest entries when that exceeds its capacity), a return
    being the float32 sum of [episode_r] and the reward; such a slot has
    [episode_len] back at 0.0, [episode_r] multiplied by 0.0, which is a
    zero with the sign of the return when the return is finite and
    not-a-number when it is not, and its [episode_idx] one higher, except
    that [episode_idx] is a 32-bit integer and goes from 2^31-1 to -2^31; a
    slot whose mask is true has the reward added to [episode_r] in float32,
    one added to [episode_len] as long as it is below 2^24, where a float32
    count stays, and [episode_idx] unchanged. *)
Theorem episode_bookkeeping_per_slot
    (c : collaborators) (cfg : config) (np : numpy)
    (n k : nat) (s s' : state) (stop : bool)
    (r : list spec_float) (done : list bool) (info : list info_dict) :
  length (episode_r s) = n → length (episode_idx s) = n →
  length (episode_len s) = n →
  env_step c k = Returns (r, done, info) → length r = n → length done = n →
  loop_body c cfg np n k s = (s', Ok stop) →
  let masks :=
    np_logical_not
      (zip_with orb (reset_mask_of n (episode_len s) (max_episode_len cfg))
         done) in
  let ended := ma_compressed (zip_with f32_add_f64 (episode_r s) r) masks in
  recent_returns s'
  = deque_extend (return_window_size cfg) (recent_returns s) ended
  ∧ (deque_fits (return_window_size cfg)
       (length (recent_returns s) + length ended) →
     recent_returns s' = recent_returns s ++ ended)
  ∧ ∀ (i : nat) (er ri : spec_float) (j x : Z) (m : bool),
      episode_r s !! i = Some er → r !! i = Some ri →
      episode_len s !! i = Some (f32_of_Z j) → 0 ≤ j ≤ 2 ^ 24 →
      episode_idx s !! i = Some x → is_int32 x →
      masks !! i = Some m →
      if m
      then episode_r s' !! i = Some (f32_add_f64 er ri)
           ∧ episode_len s' !! i = Some (f32_of_Z (Z.min (j + 1) (2 ^ 24)))
           ∧ episode_idx s' !! i = Some x
      else f32_add_f64 er ri ∈ ended
           ∧ episode_r s' !! i
             = Some (match f32_add_f64 er ri with
                     | S754_zero sign | S754_finite sign _ _ => S754_zero sign
                     | _ => S754_nan
                     end)
           ∧ episode_len s' !! i = Some (f32_of_Z 0)
           ∧ episode_idx s' !! i
             = Some (if decide (x = 2 ^ 31 - 1) then - 2 ^ 31 else x + 1).
Proof.
  intros Hr Hidx Hlen Hstep Hrew Hdone Hbody masks ended.
  apply loop_body_Ok in Hbody
    as (r0 & done0 & info0 & info' & masks0 & s1 & s2 & s3 & s4
        & Hstep0 & Hmask & Hs1 & Hupd & Hhooks & Hwrite & Hlog).
  rewrite Hstep in Hstep0. injection Hstep0 as <- <- <-.
  assert (masks0 = masks) as ->.
  { unfold compute_masks, bind, gets, lift, ret, np_logical_or in Hmask.
    rewrite np_binary_same_length in Hmask
      by (rewrite length_reset_mask_of; congruence).
    by injection Hmask as _ <-. }
  assert (length masks = n) as Hlmasks.
  { unfold masks, np_logical_not.
    rewrite length_fmap, length_zip_with, length_reset_mask_of by done. lia. }
  destruct Hs1 as (_ & _ & _ & Er & Eidx & Elen & Ewin).
  pose proof (run_hooks_same_but_trace 0 (step_hooks c) s2) as Hh.
  rewrite Hhooks in Hh. destruct Hh as (_ & _ & _ & Hr3 & Hi3 & Hl3 & Hw3).
  pose proof (write_training_r_same_but_files cfg np s3) as Hw.
  rewrite Hwrite in Hw. destruct Hw as (_ & _ & _ & Hr4 & Hi4 & Hl4 & Hw4).
  pose proof (log_and_evaluate_same_but_trace c cfg np k s4) as Hf.
  rewrite Hlog in Hf. destruct Hf as (_ & _ & _ & Hr5 & Hi5 & Hl5 & Hw5).
  simpl in Hr3, Hi3, Hl3, Hw3, Hr4, Hi4, Hl4, Hw4, Hr5, Hi5, Hl5, Hw5.
  rewrite Hr5, Hi5, Hl5, Hw5, Hr4, Hi4, Hl4, Hw4, Hr3, Hi3, Hl3, Hw3.
  assert (Hwin : recent_returns s2
    = deque_extend (return_window_size cfg) (recent_returns s) ended).
  { pose proof (update_episodes_shaped cfg n r masks s1) as Hsh.
    rewrite Hupd, Er, Eidx, Elen, Ewin in Hsh.
    specialize (Hsh Hr Hidx Hlen Hrew Hlmasks).
    by injection Hsh as ->. }
  split; [exact Hwin|]. split.
  { intros Hfit. rewrite Hwin. by apply deque_extend_fits. }
  intros i er ri j x m Her Hri Hl Hj Hx Hint Hm.
  destruct (update_episodes_slot cfg n r masks s1 i er ri (f32_of_Z j) x m)
    as (Hr2 & Hl2 & Hi2); try congruence.
  rewrite Hupd in Hr2, Hl2, Hi2. simpl in Hr2, Hl2, Hi2.
  rewrite Hr2, Hl2, Hi2, f32_count_step by done.
  destruct m; cbn [f32_of_bool bool_to_Z].
  - rewrite !f32_mul_one
      by (first [apply f32_add_f64_valid | apply f32_of_Z_valid]).
    repeat split. rewrite Z.sub_diag, Z.add_0_r. by rewrite wrap32_id.
  - rewrite f32_mul_zero, f32_count_times_zero by lia.
    split; [|repeat split].
    + eapply ma_compressed_lookup; [|exact Hm].
      by rewrite lookup_zip_with, Her; simpl; rewrite Hri.
    + rewrite Z.sub_0_r. by rewrite wrap32_succ.
Qed.

Lemma episode_bookkeeping_per_slot_witness :
  let c := quiet 2 (two_slot_script reward_1 reward_1 reward_1 reward_1) in
  let cfg := default_config 4 "out" in
  let s := loop_entry c cfg 2 (initial_state ∅ None) in
  let s' := fst (loop_body c cfg plain_numpy 2 0 s) in
  recent_returns s' = [f32_of_Z 1]
  ∧ episode_r s' !! 1%nat = Some f32_zero
  ∧ episode_idx s' !! 1%nat = Some 1.
Proof.
  intros c cfg s s'.
  assert (Hbody : loop_body c cfg plain_numpy 2 0 s = (s', Ok false))
    by (vm_compute; reflexivity).
  destruct (episode_bookkeeping_per_slot c cfg plain_numpy 2 0 s s' false
              [reward_1; reward_1] [false; true] [∅; ∅]
              eq_refl eq_refl eq_refl eq_refl eq_refl eq_refl Hbody)
    as (Hwin & _ & Hslot).
  assert (Hint : is_int32 0).
  { unfold is_int32. change (2 ^ 31) with 2147483648. lia. }
  assert (Hj : 0 ≤ 0 ≤ 2 ^ 24) by (change (2 ^ 24) with 16777216; lia).
  destruct (Hslot 1%nat f32_zero reward_1 0 0 false
              eq_refl eq_refl eq_refl Hj eq_refl Hint eq_refl)
    as (_ & Hr & _ & Hi).
  split; [rewrite Hwin; vm_compute; reflexivity|].
  split; [exact Hr | exact Hi].
Defined.

(** C4, on the code: a slot whose [episode_len] has reached 2^24 =
    16777216 and whose episode goes on keeps that length; a return that is
    infinite leaves not-a-number in [episode_r], not 0. *)
Example float32_arrays_at_their_limits :
  let cfg := default_config 4 "out" in
  let s := set_episode_len [f32_of_Z 16777216]
             (set_episode_r [S754_infinity false] (one_slot_state 0)) in
  episode_len (fst (update_episodes cfg 1 [reward_1] [true] s))
  = [f32_of_Z 16777216]
  ∧ recent_returns (fst (update_episodes cfg 1 [reward_1] [false] s))
    = [S754_infinity false]
  ∧ episode_r (fst (update_episodes cfg 1 [reward_1] [false] s))
    = [S754_nan].
Proof. repeat split; vm_compute; reflexivity. Qed.

(** C4, on the code: a slot whose [episode_idx] is 2^31-1 and whose episode
    ends does not go to 2^31: the array is of dtype ['i'] and wraps. *)
Lemma episode_idx_wraps_at_int32_max :
  let c := quiet 1 always_done_script in
  let cfg := default_config 4 "out" in
  let s := one_slot_state 2147483647 in
  let pass := loop_body c cfg plain_numpy 1 0 s in
  snd pass = Ok false
  ∧ masks_of_trace (trace (fst pass)) = [[false]]
  ∧ episode_idx s = [2147483647]
  ∧ episode_idx (fst pass) = [-2147483648]
  ∧ episode_idx (fst pass) ≠ [2147483647 + 1].
Proof. vm_compute. repeat split; discriminate. Qed.

Lemma wrap32_add_l a b : wrap32 (wrap32 a + b) = wrap32 (a + b).
Proof.
  unfold wrap32. f_equal.
  replace ((a + 2 ^ 31) `mod` 2 ^ 32 - 2 ^ 31 + b + 2 ^ 31)
    with ((a + 2 ^ 31) `mod` 2 ^ 32 + b) by lia.
  rewrite Zplus_mod_idemp_l. f_equal. lia.
Qed.

(** One pass over an environment of one instance whose every step ends an
    episode. *)
Lemma always_done_pass np steps k s x :
  episode_idx s = [x] → episode_r s = [f32_zero] →
  episode_len s = [f32_zero] →
  ∃ s',
    loop_body (quiet 1 always_done_script) (default_config steps "out")
      np 1 k s = (s', Ok false)
    ∧ episode_idx s' = [wrap32 (x + 1)] ∧ episode_r s' = [f32_zero]
    ∧ episode_len s' = [f32_zero] ∧ t s' = t s + 1.
Proof.
  destruct s as [tr fs at_ now er ei el win]. simpl. intros -> -> ->.
  eexists. split.
  - unfold loop_body, bind, call, compute_masks, gets, lift, ret,
      update_episodes, modify.
    cbn -[wrap32 Z.add f32_add_f64 f32_add f32_mul]. reflexivity.
  - cbn -[wrap32 Z.add]. repeat split.
Qed.

(** The state of the lemma above is one the loop reaches: an environment
    whose every step ends an episode has counted, after [j] passes, [j]
    episodes modulo 2^32. *)
Lemma always_done_loop np steps (j : nat) :
  ∀ k s x,
    episode_idx s = [x] → episode_r s = [f32_zero] →
    episode_len s = [f32_zero] →
    is_int32 x → t s + Z.of_nat j = steps →
    ∃ s',
      training_loop (quiet 1 always_done_script) (default_config steps "out")
        np (S j) 1 k s = (s', Ok tt)
      ∧ episode_idx s' = [wrap32 (x + Z.of_nat j)].
Proof.
  induction j as [|j IH]; intros k s x Hx Ha Hl Hint Ht.
  - exists s. split.
    + simpl. unfold bind, gets. simpl.
      by rewrite (proj2 (Z.ltb_ge _ _)) by lia.
    + rewrite Z.add_0_r, wrap32_id by done. done.
  - destruct (always_done_pass np steps k s x Hx Ha Hl)
      as (s1 & Hpass & Hx1 & Ha1 & Hl1 & Ht1).
    destruct (IH (S k) s1 (wrap32 (x + 1)) Hx1 Ha1 Hl1
                (wrap32_is_int32 _)) as (s' & Hloop & Hx').
    { lia. }
    exists s'. split.
    + change (training_loop ?c ?cfg ?sf (S (S j)) 1 k s)
        with (bind (gets t) (λ now,
                if now <? steps
                then bind (loop_body c cfg sf 1 k) (λ stop : bool,
                       if stop then ret tt
                       else training_loop c cfg sf (S j) 1 (S k))
                else ret tt) s).
      unfold bind at 1, gets. simpl.
      rewrite (proj2 (Z.ltb_lt _ _)) by lia.
      by rewrite (bind_eq_Ok _ _ _ _ _ Hpass).
    + rewrite Hx', wrap32_add_l. do 2 f_equal. lia.
Qed.

Lemma int32_max_is_reached (j : nat) :
  Z.of_nat j = 2 ^ 31 - 1 →
  let c := quiet 1 always_done_script in
  let cfg := default_config (2 ^ 31 - 1) "out" in
  ∃ s',
    training_loop c cfg plain_numpy (S j) 1 0
      (loop_entry c cfg 1 (initial_state ∅ None)) = (s', Ok tt)
    ∧ episode_idx s' = [2147483647].
Proof.
  intros Hj c cfg.
  destruct (always_done_loop plain_numpy (2 ^ 31 - 1) j 0
              (loop_entry c cfg 1 (initial_state ∅ None)) 0)
    as (s' & Hloop & Hx); try done.
  exists s'. split; [exact Hloop|].
  rewrite Hx, Hj. reflexivity.
Qed.

(** ** The step counter and the end of the loop *)

Lemma train_agent_batch_entry c cfg np fuel n s :
  env_num_envs c = Returns n → env_reset c = Returns tt →
  train_agent_batch c cfg np fuel s
  = guarded_loop c cfg np fuel n (loop_entry c cfg n s).
Proof.
  intros Hnum Hreset.
  unfold train_agent_batch, get_num_envs, bind, modify, call, ret.
  rewrite Hnum, Hreset. simpl. unfold loop_entry.
  by destruct (agent_has_t c).
Qed.

Lemma update_episodes_t cfg n r masks s s' :
  update_episodes cfg n r masks s = (s', Ok tt) → t s' = t s + Z.of_nat n.
Proof.
  unfold update_episodes, bind, gets, lift, modify. simpl.
  destruct (np_inplace f32_add_f64 _ _); [|done..]. simpl.
  destruct (np_inplace _ _ _); [|done..]. simpl.
  destruct (np_inplace f32_mul _ _); [|done..]. simpl.
  destruct (np_inplace f32_mul _ _); [|done..]. simpl.
  by intros [= <-].
Qed.

Lemma loop_body_t c cfg np n k s s' stop :
  loop_body c cfg np n k s = (s', Ok stop) → t s' = t s + Z.of_nat n.
Proof.
  intros Hbody.
  apply loop_body_Ok in Hbody
    as (r & done & info & info' & masks & s1 & s2 & s3 & s4
        & _ & _ & Hs1 & Hupd & Hhooks & Hwrite & Hlog).
  apply update_episodes_t in Hupd.
  pose proof (run_hooks_same_but_trace 0 (step_hooks c) s2) as Hh.
  rewrite Hhooks in Hh. destruct Hh as (_ & _ & Ht3 & _).
  pose proof (write_training_r_same_but_files cfg np s3) as Hw.
  rewrite Hwrite in Hw. destruct Hw as (_ & _ & Ht4 & _).
  pose proof (log_and_evaluate_same_but_trace c cfg np k s4) as Hf.
  rewrite Hlog in Hf. destruct Hf as (_ & _ & Ht5 & _).
  destruct Hs1 as (_ & _ & Ht1 & _). simpl in *. congruence.
Qed.

(** [break] is reached only when a successful score is configured and the
    evaluator's best score has met it. *)
Lemma log_and_evaluate_stop c cfg np k s s' :
  log_and_evaluate c cfg np k s = (s', Ok true) →
  ∃ ev score,
    evaluator c = Some ev ∧ successful_score cfg = Some score
    ∧ (score ≤ max_score ev k)%Qc.
Proof.
  unfold log_and_evaluate, bind, gets, lift, modify, call, ret.
  destruct (eval_interval cfg); [|done]. simpl.
  destruct (python_mod _ _) as [m|e|]; [|done..].
  destruct (m =? 0); [|done]. simpl.
  destruct (get_statistics c k); simpl; [|done].
  destruct (evaluator c) as [ev|]; [|done]. simpl.
  destruct (evaluate_if_necessary ev k); simpl; [|done].
  destruct (successful_score cfg) as [score|]; [|done].
  intros [= _ Hle]. exists ev, score. repeat split.
  by apply bool_decide_eq_true in Hle.
Qed.

Lemma loop_body_stop c cfg np n k s s' :
  loop_body c cfg np n k s = (s', Ok true) →
  ∃ ev score,
    evaluator c = Some ev ∧ successful_score cfg = Some score
    ∧ (score ≤ max_score ev k)%Qc.
Proof.
  intros Hbody.
  apply loop_body_Ok in Hbody
    as (r & done & info & info' & masks & s1 & s2 & s3 & s4
        & _ & _ & _ & _ & _ & _ & Hlog).
  by eapply log_and_evaluate_stop.
Qed.

(** [break] is reached exactly when the score is met: evaluation is
    configured, [t] is a multiple of [log_interval], there is an evaluator
    and a successful score, and the evaluator's best score has reached
    it. *)
Lemma log_and_evaluate_stop_iff c cfg np k s s' stop :
  log_and_evaluate c cfg np k s = (s', Ok stop) →
  stop = true ↔ successful_score_met c cfg k (t s).
Proof.
  unfold log_and_evaluate, successful_score_met,
    bind, gets, lift, modify, call, ret.
  destruct (eval_interval cfg) as [ei|] eqn:Hei; simpl.
  2:{ intros [= _ <-]. split; [done|].
      by intros (ev & score & li & [? ?] & _). }
  destruct (log_interval cfg) as [li|] eqn:Hli; simpl; [|done].
  destruct (decide (li = 0)) as [->|Hnz]; [done|].
  replace (match li with 0 => Raise ZeroDivisionError | _ => Ok (t s `mod` li) end)
    with (Ok (A:=Z) (t s `mod` li)) by (by destruct li).
  destruct (t s `mod` li =? 0) eqn:Hmod; simpl.
  2:{ intros [= _ <-]. split; [done|]. apply Z.eqb_neq in Hmod.
      by intros (ev & score & li' & _ & [= <-] & _ & ? & _). }
  apply Z.eqb_eq in Hmod.
  destruct (get_statistics c k); simpl; [|done].
  destruct (evaluator c) as [ev|] eqn:Hev; simpl.
  2:{ intros [= _ <-]. split; [done|].
      by intros (ev & score & li' & _ & _ & _ & _ & ? & _). }
  destruct (evaluate_if_necessary ev k); simpl; [|done].
  destruct (successful_score cfg) as [score|] eqn:Hscore.
  - intros [= _ <-]. rewrite bool_decide_eq_true. split.
    + intros Hle. by exists ev, score, li.
    + by intros (ev' & score' & li' & _ & _ & _ & _ & [= <-] & [= <-] & Hle).
  - intros [= _ <-]. split; [done|].
    by intros (ev' & score' & li' & _ & _ & _ & _ & _ & ? & _).
Qed.

Lemma loop_body_stop_iff c cfg np n k s s' stop :
  loop_body c cfg np n k s = (s', Ok stop) →
  stop = true ↔ successful_score_met c cfg k (t s').
Proof.
  intros Hbody.
  apply loop_body_Ok in Hbody
    as (r & done & info & info' & masks & s1 & s2 & s3 & s4
        & _ & _ & _ & _ & _ & _ & Hlog).
  pose proof (log_and_evaluate_same_but_trace c cfg np k s4) as Hsame.
  rewrite Hlog in Hsame. destruct Hsame as (_ & _ & Ht & _).
  simpl in Ht. rewrite Ht. by eapply log_and_evaluate_stop_iff.
Qed.

Lemma training_loop_unfold c cfg np fuel n k s :
  training_loop c cfg np (S fuel) n k s
  = if t s <? steps cfg
    then bind (loop_body c cfg np n k)
           (λ stop : bool,
              if stop then ret tt
              else training_loop c cfg np fuel n (S k)) s
    else (s, Ok tt).
Proof. simpl. unfold bind at 1, gets. by destruct (t s <? steps cfg). Qed.

Lemma training_loop_Ok c cfg np n fuel :
  ∀ k s s',
    training_loop c cfg np fuel n k s = (s', Ok tt) →
    ∃ passes : nat,
      t s' = t s + Z.of_nat passes * Z.of_nat n
      ∧ (steps cfg ≤ t s'
         ∨ ∃ ev score,
             evaluator c = Some ev ∧ successful_score cfg = Some score
             ∧ (0 < passes)%nat
             ∧ (score ≤ max_score ev (k + passes - 1))%Qc).
Proof.
  induction fuel as [|fuel IH]; intros k s s' Hloop; [done|].
  rewrite training_loop_unfold in Hloop.
  destruct (t s <? steps cfg) eqn:Hlt.
  - apply bind_Ok in Hloop as (stop & s1 & Hbody & Hrest).
    pose proof (loop_body_t _ _ _ _ _ _ _ _ Hbody) as Ht1.
    destruct stop.
    + injection Hrest as <-. exists 1%nat. split; [lia|]. right.
      destruct (loop_body_stop _ _ _ _ _ _ _ Hbody) as (ev & score & ? & ? & ?).
      exists ev, score. repeat split; try done; [lia|].
      by replace (k + 1 - 1)%nat with k by lia.
    + apply IH in Hrest as (passes & Ht & Hend).
      exists (S passes). split; [lia|].
      destruct Hend as [?|(ev & score & ? & ? & ? & ?)]; [by left|right].
      exists ev, score. repeat split; try done; [lia|].
      by replace (k + S passes - 1)%nat with (S k + passes - 1)%nat by lia.
  - injection Hloop as <-. exists 0%nat. split; [lia|]. left.
    by apply Z.ltb_ge in Hlt.
Qed.

Section NoRunning.

Context {A B : Type}.

Lemma returns_or_raises_bind (m : M A) (k : A → M B) :
  returns_or_raises m → (∀ a, returns_or_raises (k a)) →
  returns_or_raises (bind m k).
Proof.
  intros Hm Hk s. unfold bind. specialize (Hm s).
  destruct (m s) as [s1 [a|e|]]; simpl in *; [apply Hk|done..].
Qed.

Lemma returns_or_raises_call ev (r : result A) : returns_or_raises (call ev r).
Proof. intros s. unfold call. by destruct r. Qed.

End NoRunning.

Lemma np_binary_not_Running {A B C : Type} (f : A → B → C) xs ys :
  np_binary f xs ys ≠ Running.
Proof.
  unfold np_binary. destruct (_ =? _)%nat; [done|].
  destruct xs as [|? [|? ?]]; destruct ys as [|? [|? ?]]; done.
Qed.

Lemma np_inplace_not_Running {A B : Type} (f : A → B → A) xs ys :
  np_inplace f xs ys ≠ Running.
Proof.
  unfold np_inplace. destruct (_ =? _)%nat; [done|].
  destruct ys as [|? [|? ?]]; done.
Qed.


Lemma compute_masks_returns_or_raises cfg n done info :
  returns_or_raises (compute_masks cfg n done info).
Proof.
  intros s. unfold compute_masks, bind, gets, lift, ret. simpl.
  pose proof (np_binary_not_Running orb
                (reset_mask_of n (episode_len s) (max_episode_len cfg)) done).
  unfold np_logical_or. by destruct (np_binary _ _ _).
Qed.

Lemma update_episodes_returns_or_raises cfg n r masks :
  returns_or_raises (update_episodes cfg n r masks).
Proof.
  intros s. unfold update_episodes, bind, gets, lift, modify. simpl.
  match goal with |- context [np_inplace ?f ?a ?b] =>
    pose proof (np_inplace_not_Running f a b);
    destruct (np_inplace f a b); [|done..] end. simpl.
  match goal with |- context [np_inplace ?f ?a ?b] =>
    pose proof (np_inplace_not_Running f a b);
    destruct (np_inplace f a b); [|done..] end. simpl.
  match goal with |- context [np_inplace ?f ?a ?b] =>
    pose proof (np_inplace_not_Running f a b);
    destruct (np_inplace f a b); [|done..] end. simpl.
  match goal with |- context [np_inplace ?f ?a ?b] =>
    pose proof (np_inplace_not_Running f a b);
    destruct (np_inplace f a b); [|done..] end. done.
Qed.

Lemma run_hooks_returns_or_raises j hooks : returns_or_raises (run_hooks j hooks).
Proof.
  revert j. induction hooks as [|hook hooks IH]; intros j s; [done|].
  simpl. unfold bind, gets, call. simpl.
  destruct (hook (t s)); simpl; [apply IH|done].
Qed.

Lemma python_mod_not_Running a b : python_mod a b ≠ Running.
Proof. by destruct b as [[| |]|]. Qed.

Lemma write_training_r_returns_or_raises cfg np :
  returns_or_raises (write_training_r cfg np).
Proof.
  intros s.
  unfold write_training_r, bind, gets, lift, ret, _write_to_file, modify.
  destruct (save_training_r cfg); [|done]. simpl.
  pose proof (python_mod_not_Running (t s) (log_interval cfg)).
  destruct (python_mod _ _) as [m|e|]; [|done..].
  by destruct (m =? 0).
Qed.

Lemma log_and_evaluate_returns_or_raises c cfg np k :
  returns_or_raises (log_and_evaluate c cfg np k).
Proof.
  intros s. unfold log_and_evaluate, bind, gets, lift, modify, call, ret.
  destruct (eval_interval cfg); [|done]. simpl.
  pose proof (python_mod_not_Running (t s) (log_interval cfg)).
  destruct (python_mod _ _) as [m|e|]; [|done..].
  destruct (m =? 0); [|done]. simpl.
  destruct (get_statistics c k); simpl; [|done].
  destruct (evaluator c) as [ev|]; [|done]. simpl.
  destruct (evaluate_if_necessary ev k); simpl; [|done].
  by destruct (successful_score cfg).
Qed.

Lemma loop_body_returns_or_raises c cfg np n k :
  returns_or_raises (loop_body c cfg np n k).
Proof.
  unfold loop_body.
  apply returns_or_raises_bind; [apply returns_or_raises_call|intros _].
  apply returns_or_raises_bind; [apply returns_or_raises_call|].
  intros [[r done] info].
  apply returns_or_raises_bind; [apply compute_masks_returns_or_raises|].
  intros [info' masks].
  apply returns_or_raises_bind; [apply returns_or_raises_call|intros _].
  apply returns_or_raises_bind; [apply returns_or_raises_call|intros _].
  apply returns_or_raises_bind; [apply update_episodes_returns_or_raises|intros _].
  apply returns_or_raises_bind; [apply run_hooks_returns_or_raises|intros _].
  apply returns_or_raises_bind; [apply write_training_r_returns_or_raises|intros _].
  apply log_and_evaluate_returns_or_raises.
Qed.

(** With at least one instance the loop ends: fuel for one pass more than
    the steps that are left is enough. *)
Lemma training_loop_ends c cfg np n fuel :
  (0 < n)%nat →
  ∀ k s,
    (Z.to_nat (steps cfg - t s) < fuel)%nat →
    snd (training_loop c cfg np fuel n k s) ≠ Running.
Proof.
  intros Hn. induction fuel as [|fuel IH]; intros k s Hfuel; [lia|].
  rewrite training_loop_unfold.
  destruct (t s <? steps cfg) eqn:Hlt; [|done].
  apply Z.ltb_lt in Hlt. unfold bind.
  pose proof (loop_body_returns_or_raises c cfg np n k s) as Hbody.
  destruct (loop_body c cfg np n k s) as [s1 [stop|e|]] eqn:Hpass;
    [|done..].
  apply loop_body_t in Hpass. destruct stop; [done|].
  apply IH. lia.
Qed.

(** A loop that returns has exited at a test that found [t >= steps], or
    through the [break] of its last pass, the score being met there. *)
Lemma training_loop_exit c cfg np n fuel :
  ∀ k s s',
    training_loop c cfg np fuel n k s = (s', Ok tt) →
    ∃ passes : nat,
      t s' = t s + Z.of_nat passes * Z.of_nat n
      ∧ (steps cfg ≤ t s'
         ∨ ((0 < passes)%nat ∧ t s' - Z.of_nat n < steps cfg
            ∧ successful_score_met c cfg (k + passes - 1) (t s'))).
Proof.
  induction fuel as [|fuel IH]; intros k s s' Hloop; [done|].
  rewrite training_loop_unfold in Hloop.
  destruct (t s <? steps cfg) eqn:Hlt.
  - apply Z.ltb_lt in Hlt.
    apply bind_Ok in Hloop as (stop & s1 & Hbody & Hrest).
    pose proof (loop_body_t _ _ _ _ _ _ _ _ Hbody) as Ht1.
    destruct stop.
    + injection Hrest as <-. exists 1%nat. split; [lia|]. right.
      split; [lia|]. split; [lia|].
      replace (k + 1 - 1)%nat with k by lia.
      by apply (loop_body_stop_iff _ _ _ _ _ _ _ _ Hbody).
    + apply IH in Hrest as (passes & Ht & Hend).
      exists (S passes). split; [lia|].
      destruct Hend as [?|(? & ? & ?)]; [by left|right].
      split; [lia|]. split; [done|].
      by replace (k + S passes - 1)%nat with (S k + passes - 1)%nat by lia.
  - injection Hloop as <-. exists 0%nat. split; [lia|]. left.
    by apply Z.ltb_ge in Hlt.
Qed.

(** C5: the step counter starts at [step_offset], which is also stored
    in the agent's [t] when it has one; every pass that completes advances
    it by the number of instances.  The loop ends normally exactly when a
    test finds [t >= steps] or the score is met: a test that finds
    [t >= steps] ends it without a pass; a pass that completes ends it
    through [break] exactly when the score is met after it (evaluation
    configured, [t] a multiple of [log_interval], an evaluator and a
    successful score given, the best score at least that), whatever [t]
    is, and otherwise leads to the next test; a loop that has returned has
    ended in one of these two ways; and with at least one instance the loop
    does end. *)
Theorem global_step_counter
    (c : collaborators) (cfg : config) (np : numpy) (n : nat) :
  env_num_envs c = Returns n → env_reset c = Returns tt →
  (∀ fuel s, ∃ s0,
      train_agent_batch c cfg np fuel s
      = guarded_loop c cfg np fuel n s0
      ∧ t s0 = step_offset cfg
      ∧ agent_t s0
        = if agent_has_t c then Some (step_offset cfg) else agent_t s)
  ∧ (∀ k s s' stop,
       loop_body c cfg np n k s = (s', Ok stop) →
       t s' = t s + Z.of_nat n)
  ∧ (∀ fuel k s,
       training_loop c cfg np (S fuel) n k s
       = if t s <? steps cfg
         then bind (loop_body c cfg np n k)
                (λ stop : bool,
                   if stop then ret tt
                   else training_loop c cfg np fuel n (S k)) s
         else (s, Ok tt))
  ∧ (∀ fuel k s,
       steps cfg ≤ t s → training_loop c cfg np (S fuel) n k s = (s, Ok tt))
  ∧ (∀ fuel k s s1 stop,
       t s < steps cfg →
       loop_body c cfg np n k s = (s1, Ok stop) →
       (stop = true ↔ successful_score_met c cfg k (t s1))
       ∧ training_loop c cfg np (S fuel) n k s
         = if stop then (s1, Ok tt)
           else training_loop c cfg np fuel n (S k) s1)
  ∧ (∀ fuel k s s',
       training_loop c cfg np fuel n k s = (s', Ok tt) →
       ∃ passes : nat,
         t s' = t s + Z.of_nat passes * Z.of_nat n
         ∧ (steps cfg ≤ t s'
            ∨ ((0 < passes)%nat ∧ t s' - Z.of_nat n < steps cfg
               ∧ successful_score_met c cfg (k + passes - 1) (t s'))))
  ∧ (∀ fuel k s,
       (0 < n)%nat → (Z.to_nat (steps cfg - t s) < fuel)%nat →
       snd (training_loop c cfg np fuel n k s) ≠ Running).
Proof.
  intros Hnum Hreset.
  split; [|split; [|split; [|split; [|split; [|split]]]]].
  - intros fuel s. exists (loop_entry c cfg n s). split; [|done].
    by apply train_agent_batch_entry.
  - intros k s s' stop. apply loop_body_t.
  - intros fuel k s. apply training_loop_unfold.
  - intros fuel k s Hge. rewrite training_loop_unfold.
    by rewrite (proj2 (Z.ltb_ge _ _) Hge).
  - intros fuel k s s1 stop Hlt Hbody.
    split; [by apply (loop_body_stop_iff _ _ _ _ _ _ _ _ Hbody)|].
    rewrite training_loop_unfold, (proj2 (Z.ltb_lt _ _) Hlt).
    rewrite (bind_eq_Ok _ _ _ _ _ Hbody). by destruct stop.
  - intros fuel. apply training_loop_exit.
  - intros fuel k s Hn. by apply training_loop_ends.
Qed.

Lemma global_step_counter_witness :
  let c := with_evaluator (quiet 1 never_done_script)
             (Some (quiet_evaluator 1%Qc)) in
  let cfg := with_eval_interval (default_config 10 "out")
               (Some 1) (Some 1) (Some 1%Qc) in
  let s := loop_entry c cfg 1 (initial_state ∅ None) in
  let s1 := fst (loop_body c cfg plain_numpy 1 0 s) in
  t s = 0 ∧ t s1 = t s + 1
  ∧ (true = true ↔ successful_score_met c cfg 0 (t s1))
  ∧ training_loop c cfg plain_numpy 11 1 0 s = (s1, Ok tt).
Proof.
  intros c cfg s s1.
  assert (Hbody : loop_body c cfg plain_numpy 1 0 s = (s1, Ok true))
    by (vm_compute; reflexivity).
  assert (Hlt : t s < steps cfg) by reflexivity.
  destruct (global_step_counter c cfg plain_numpy 1 eq_refl eq_refl)
    as (_ & Hadvance & _ & _ & Hbreak & _).
  destruct (Hbreak 10%nat 0%nat s s1 true Hlt Hbody) as [Hmet Hloop].
  split; [reflexivity|]. split; [exact (Hadvance 0%nat s s1 true Hbody)|].
  split; [exact Hmet|exact Hloop].
Defined.

(** ** Checkpoints on the way out *)


Lemma guarded_loop_unfold c cfg np fuel n s :
  guarded_loop c cfg np fuel n s
  = match training_loop c cfg np fuel n 0 s with
    | (s', Ok _) => else_clause c s'
    | (s', Raise e) =>
        if matches_except_clause e then except_clause c e s'
        else (s', Raise e)
    | (s', Running) => (s', Running)
    end.
Proof. reflexivity. Qed.

(** The [except] clause when its three calls return. *)
Lemma except_clause_returns c e s :
  save_agent c (t s) "_except" = Returns tt →
  env_close c = Returns tt →
  (∀ ev, evaluator c = Some ev → evaluator_env_close ev = Returns tt) →
  ∃ s',
    except_clause c e s = (s', Raise e)
    ∧ trace s'
      = trace s ++ [SaveAgent (t s) "_except"; EnvClose]
        ++ match evaluator c with
           | Some _ => [EvaluatorEnvClose]
           | None => []
           end
    ∧ same_but_trace s s'.
Proof.
  intros Hsave Hclose Heval.
  unfold except_clause, bind, gets, call, raise, ret. simpl.
  rewrite Hsave, Hclose. simpl.
  destruct (evaluator c) as [ev|] eqn:Hev; simpl.
  - rewrite (Heval ev eq_refl). simpl. eexists. split; [reflexivity|].
    split; [|done]. simpl. by rewrite <- !app_assoc.
  - eexists. split; [reflexivity|]. split; [|done]. simpl.
    by rewrite <- !app_assoc.
Qed.

(** The [else] clause. *)
Lemma else_clause_eq c s :
  else_clause c s
  = (record_event (SaveAgent (t s) "_finish") s,
     outcome_of (save_agent c (t s) "_finish")).
Proof. reflexivity. Qed.


(** ** The results file *)

Lemma string_app_assoc (a b c : string) : (a +:+ b) +:+ c = a +:+ (b +:+ c).
Proof.
  induction a as [|x a IH]; [done|].
  change (String x ((a +:+ b) +:+ c) = String x (a +:+ (b +:+ c))).
  by rewrite IH.
Qed.

(** The line: the step, a tab, the mean, a newline. *)
Lemma training_r_line_format np step window :
  training_r_line np step window
  = str_int step +:+ tab +:+ str_npfloat np (np_mean np window)
    +:+ newline.
Proof. unfold training_r_line. simpl. by rewrite !string_app_assoc. Qed.

(** What lines 135-136 do to the files. *)
Lemma write_training_r_files cfg np s s' :
  write_training_r cfg np s = (s', Ok tt) →
  (save_training_r cfg = false ∧ files s' = files s)
  ∨ ∃ li,
      save_training_r cfg = true ∧ log_interval cfg = Some li ∧ li ≠ 0
      ∧ files s'
        = if t s `mod` li =? 0
          then file_append (files s)
                 (os_path_join (outdir cfg) "training_r.txt")
                 (training_r_line np (t s) (recent_returns s))
          else files s.
Proof.
  unfold write_training_r, bind, gets, lift, ret, _write_to_file, modify.
  destruct (save_training_r cfg); [|intros [= <-]; by left].
  destruct (log_interval cfg) as [li|]; simpl; [|done].
  destruct (decide (li = 0)) as [->|Hli]; [done|].
  replace (match li with 0 => Raise ZeroDivisionError | _ => Ok (t s `mod` li) end)
    with (Ok (A:=Z) (t s `mod` li)) by (by destruct li).
  intros Hw. right. exists li. repeat split; [done|].
  destruct (t s `mod` li =? 0); by injection Hw as <-.
Qed.

(** C7, as the code has it.  In a pass that completes with
    [save_training_r] set, [log_interval] is a nonzero integer, and when [t]
    (after the pass) is a multiple of it exactly one line, made of [t], a
    tab, the mean of the window and a newline, is appended to
    [training_r.txt] in the output directory, which is created when it is
    not there; otherwise the files are left alone.  Nothing guards the mean:
    on an empty window the line is written all the same, its mean the
    not-a-number that [np.mean] returns. *)
Theorem training_r_line_appended
    (c : collaborators) (cfg : config) (np : numpy)
    (n k : nat) (s s' : state) (stop : bool) :
  loop_body c cfg np n k s = (s', Ok stop) →
  save_training_r cfg = true →
  let path := os_path_join (outdir cfg) "training_r.txt" in
  let line := training_r_line np (t s') (recent_returns s') in
  ∃ li,
    log_interval cfg = Some li ∧ li ≠ 0
    ∧ (t s' `mod` li = 0 →
       files s' = file_append (files s) path line
       ∧ files s' !! path = Some (default "" (files s !! path) +:+ line)
       ∧ (∀ other, other ≠ path → files s' !! other = files s !! other))
    ∧ (t s' `mod` li ≠ 0 → files s' = files s)
    ∧ line
      = str_int (t s') +:+ tab
        +:+ str_npfloat np (np_mean np (recent_returns s')) +:+ newline
    ∧ (recent_returns s' = [] →
       line = str_int (t s') +:+ tab +:+ "nan" +:+ newline).
Proof.
  intros Hbody Hsave path line.
  apply loop_body_Ok in Hbody
    as (r & done & info & info' & masks & s1 & s2 & s3 & s4
        & _ & _ & Hs1 & Hupd & Hhooks & Hwrite & Hlog).
  pose proof (update_episodes_world cfg n r masks s1) as Hu.
  rewrite Hupd in Hu. destruct Hu as (_ & Hf2 & _).
  pose proof (run_hooks_same_but_trace 0 (step_hooks c) s2) as Hh.
  rewrite Hhooks in Hh. destruct Hh as (Hf3 & _).
  pose proof (write_training_r_same_but_files cfg np s3) as Hw.
  rewrite Hwrite in Hw. destruct Hw as (_ & _ & Ht4 & _ & _ & _ & Hw4).
  pose proof (log_and_evaluate_same_but_trace c cfg np k s4) as Hf.
  rewrite Hlog in Hf. destruct Hf as (Hf5 & _ & Ht5 & _ & _ & _ & Hw5).
  destruct Hs1 as (Hf1 & _). simpl in *.
  apply write_training_r_files in Hwrite
    as [[Hno _]|(li & _ & Hli & Hnz & Hfiles)]; [congruence|].
  assert (Hbase : files s3 = files s) by congruence.
  assert (Hline : training_r_line np (t s3) (recent_returns s3) = line).
  { unfold line. congruence. }
  assert (Ht : t s3 = t s') by congruence.
  rewrite Hbase, Hline, Ht in Hfiles. rewrite <- Hf5 in Hfiles.
  exists li. split; [done|]. split; [done|].
  split; [|split; [|split]].
  - intros Hmod. rewrite Hmod in Hfiles. simpl in Hfiles. fold path in Hfiles.
    split; [done|]. rewrite Hfiles. unfold file_append. split.
    + apply lookup_insert_eq.
    + intros other Hother. by apply lookup_insert_ne.
  - intros Hmod. apply Z.eqb_neq in Hmod. by rewrite Hmod in Hfiles.
  - apply training_r_line_format.
  - intros Hempty. unfold line. rewrite training_r_line_format, Hempty. done.
Qed.

Lemma training_r_line_appended_witness :
  let c := quiet 1 always_done_script in
  let cfg := with_training_r (default_config 1 "out") (Some 1) in
  let s := loop_entry c cfg 1 (initial_state ∅ None) in
  let s' := fst (loop_body c cfg plain_numpy 1 0 s) in
  let path := os_path_join (outdir cfg) "training_r.txt" in
  let line := training_r_line plain_numpy (t s') (recent_returns s') in
  ∃ li,
    log_interval cfg = Some li ∧ li ≠ 0
    ∧ (t s' `mod` li = 0 →
       files s' = file_append (files s) path line
       ∧ files s' !! path = Some (default "" (files s !! path) +:+ line)
       ∧ (∀ other, other ≠ path → files s' !! other = files s !! other))
    ∧ (t s' `mod` li ≠ 0 → files s' = files s)
    ∧ line
      = str_int (t s') +:+ tab
        +:+ str_npfloat plain_numpy (np_mean plain_numpy (recent_returns s')) +:+ newline
    ∧ (recent_returns s' = [] →
       line = str_int (t s') +:+ tab +:+ "nan" +:+ newline).
Proof.
  intros c cfg s s'.
  apply (training_r_line_appended c cfg plain_numpy 1 0 s s' false);
    [vm_compute; reflexivity | reflexivity].
Defined.

(** C7, on the code: a logging point with an empty window.  One instance
    that is never done, a line every step: after the first pass no episode
    has ended, and the line is written with the not-a-number that [np.mean]
    gives for the empty window; the write is neither skipped nor given a
    value of its own. *)
Lemma empty_window_is_written_as_nan :
  let c := quiet 1 never_done_script in
  let cfg := with_training_r (default_config 1 "out") (Some 1) in
  let run := train_agent_batch c cfg plain_numpy 2 (initial_state ∅ None) in
  snd run = Ok tt
  ∧ recent_returns (fst run) = []
  ∧ np_mean plain_numpy (recent_returns (fst run)) = S754_nan
  ∧ files (fst run) !! "out/training_r.txt"
    = Some ("1" +:+ tab +:+ "nan" +:+ newline)
  ∧ files (fst run) ≠ files (initial_state ∅ None).
Proof.
  assert (Hfile :
    files (fst (train_agent_batch (quiet 1 never_done_script)
                  (with_training_r (default_config 1 "out") (Some 1))
                  plain_numpy 2 (initial_state ∅ None)))
    !! "out/training_r.txt" = Some ("1" +:+ tab +:+ "nan" +:+ newline))
    by (vm_compute; reflexivity).
  intros c cfg run.
  split; [vm_compute; reflexivity|].
  split; [vm_compute; reflexivity|].
  split; [vm_compute; reflexivity|].
  split; [exact Hfile|].
  subst c cfg run. intros Heq. rewrite Heq in Hfile. discriminate Hfile.
Qed.

(** ** An unset logging interval *)

Lemma call_Returns {A : Type} ev (r : result A) a s :
  r = Returns a → call ev r s = (record_event ev s, Ok a).
Proof. by intros ->. Qed.

Lemma run_hooks_Forall now hooks :
  Forall (λ hook : Z → result unit, hook now = Returns tt) hooks →
  ∀ j s, t s = now →
    ∃ s', run_hooks j hooks s = (s', Ok tt) ∧ same_but_trace s s'.
Proof.
  induction 1 as [|hook hooks Hhook _ IH]; intros j s Ht.
  - by exists s.
  - simpl. unfold bind at 1, gets. simpl. rewrite Ht.
    rewrite (bind_eq_Ok _ _ _ _ _ (call_Returns _ _ _ _ Hhook)).
    destruct (IH (S j) (record_event (StepHook j now) s) Ht)
      as (s' & Hrun & Hsame).
    exists s'. split; [done|]. by etrans.
Qed.

(** A pass whose calls return, on arrays of the right shape, gets to the
    logging tests of lines 135 and 138 with [t] advanced. *)
Lemma loop_body_reaches_logging c cfg np n k s r done info :
  length (episode_r s) = n → length (episode_idx s) = n →
  length (episode_len s) = n →
  batch_act_and_train c k = Returns tt →
  env_step c k = Returns (r, done, info) → length r = n → length done = n →
  env_reset_masked c k = Returns tt →
  batch_observe_and_train c k = Returns tt →
  Forall (λ hook : Z → result unit, hook (t s + Z.of_nat n) = Returns tt)
    (step_hooks c) →
  ∃ s3,
    loop_body c cfg np n k s
    = bind (write_training_r cfg np) (λ _, log_and_evaluate c cfg np k) s3
    ∧ t s3 = t s + Z.of_nat n ∧ files s3 = files s.
Proof.
  intros Hr Hidx Hlen Hact Hstep Hrew Hdone Hreset Hobs Hhooks.
  set (s0 := record_event EnvStep (record_event BatchActAndTrain s)).
  pose proof (compute_masks_shaped cfg n done info s0 Hlen Hdone) as Hmask0.
  pose proof (length_continuation_mask n (episode_len s0)
                (max_episode_len cfg) done Hlen Hdone) as Hlm.
  match type of Hmask0 with _ = (_, Ok (?a, ?b)) =>
    set (info' := a) in *; set (masks := b) in * end.
  set (s1 := record_event (BatchObserveAndTrain r done info')
               (record_event (EnvResetMasked masks) s0)).
  pose proof (update_episodes_shaped cfg n r masks s1 Hr Hidx Hlen Hrew Hlm)
    as Hupd.
  match type of Hupd with _ = (?x, _) => set (s2 := x) in * end.
  destruct (run_hooks_Forall (t s + Z.of_nat n) (step_hooks c) Hhooks 0%nat s2
              eq_refl) as (s3 & Hrun & Hsame).
  exists s3. split.
  - unfold loop_body.
    rewrite (bind_eq_Ok _ _ _ _ _ (call_Returns _ _ _ _ Hact)).
    rewrite (bind_eq_Ok _ _ _ _ _ (call_Returns _ _ _ _ Hstep)).
    fold s0. rewrite (bind_eq_Ok _ _ _ _ _ Hmask0).
    rewrite (bind_eq_Ok _ _ _ _ _ (call_Returns _ _ _ _ Hreset)).
    rewrite (bind_eq_Ok _ _ _ _ _ (call_Returns _ _ _ _ Hobs)).
    fold s1. rewrite (bind_eq_Ok _ _ _ _ _ Hupd).
    by rewrite (bind_eq_Ok _ _ _ _ _ Hrun).
  - destruct Hsame as (Hf & _ & Ht & _). by rewrite Hf, Ht.
Qed.

(** C10: with [log_interval] left at [None] while [save_training_r] is set
    or [eval_interval] is given, the first pass, its calls returning, ends
    at the logging test with a [TypeError] ([t % None]); nothing has been
    written, and, the checkpoint and the closing calls returning,
    [train_agent_batch] raises that [TypeError]. *)
Theorem unset_log_interval_raises_TypeError
    (c : collaborators) (cfg : config) (np : numpy)
    (fuel n : nat) (s : state)
    (r : list spec_float) (done : list bool) (info : list info_dict) :
  log_interval cfg = None →
  save_training_r cfg = true ∨ eval_interval cfg ≠ None →
  env_num_envs c = Returns n → env_reset c = Returns tt →
  step_offset cfg < steps cfg →
  batch_act_and_train c 0 = Returns tt →
  env_step c 0 = Returns (r, done, info) → length r = n → length done = n →
  env_reset_masked c 0 = Returns tt →
  batch_observe_and_train c 0 = Returns tt →
  Forall (λ hook : Z → result unit,
            hook (step_offset cfg + Z.of_nat n) = Returns tt) (step_hooks c) →
  ∃ s1,
    training_loop c cfg np (S fuel) n 0 (loop_entry c cfg n s)
    = (s1, Raise TypeError)
    ∧ t s1 = step_offset cfg + Z.of_nat n
    ∧ files s1 = files s
    ∧ (save_agent c (t s1) "_except" = Returns tt →
       env_close c = Returns tt →
       (∀ ev, evaluator c = Some ev → evaluator_env_close ev = Returns tt) →
       ∃ s2,
         train_agent_batch c cfg np (S fuel) s = (s2, Raise TypeError)
         ∧ files s2 = files s).
Proof.
  intros Hli Hopt Hnum Hreset0 Hlt Hact Hstep Hrew Hdone Hreset Hobs Hhooks.
  set (s0 := loop_entry c cfg n s).
  destruct (loop_body_reaches_logging c cfg np n 0 s0 r done info)
    as (s3 & Hbody & Ht3 & Hf3); try done;
    try (subst s0; simpl; apply length_replicate).
  assert (Hraise :
    bind (write_training_r cfg np) (λ _, log_and_evaluate c cfg np 0) s3
    = (s3, Raise TypeError)).
  { unfold bind, write_training_r, log_and_evaluate, gets, lift, ret.
    rewrite Hli. simpl.
    destruct (save_training_r cfg); [done|]. simpl.
    destruct Hopt as [?|Heval]; [done|].
    by destruct (eval_interval cfg). }
  assert (Hloop :
    training_loop c cfg np (S fuel) n 0 s0 = (s3, Raise TypeError)).
  { rewrite training_loop_unfold.
    replace (t s0 <? steps cfg) with true
      by (symmetry; apply Z.ltb_lt; exact Hlt).
    unfold bind at 1. by rewrite Hbody, Hraise. }
  exists s3. split; [exact Hloop|]. split; [exact Ht3|]. split; [exact Hf3|].
  intros Hsave Hclose Heval.
  destruct (except_clause_returns c TypeError s3 Hsave Hclose Heval)
    as (s2 & Hexcept & _ & Hsame).
  exists s2. split.
  - rewrite (train_agent_batch_entry c cfg np (S fuel) n s) by done.
    rewrite guarded_loop_unfold. fold s0. by rewrite Hloop.
  - destruct Hsame as (Hf & _). by rewrite Hf.
Qed.

Lemma unset_log_interval_raises_TypeError_witness :
  let c := quiet 1 never_done_script in
  let cfg := with_training_r (default_config 4 "out") None in
  ∃ s1,
    training_loop c cfg plain_numpy 5 1 0
      (loop_entry c cfg 1 (initial_state ∅ None)) = (s1, Raise TypeError)
    ∧ t s1 = step_offset cfg + Z.of_nat 1
    ∧ files s1 = files (initial_state ∅ None)
    ∧ (save_agent c (t s1) "_except" = Returns tt →
       env_close c = Returns tt →
       (∀ ev, evaluator c = Some ev → evaluator_env_close ev = Returns tt) →
       ∃ s2,
         train_agent_batch c cfg plain_numpy 5 (initial_state ∅ None)
         = (s2, Raise TypeError)
         ∧ files s2 = files (initial_state ∅ None)).
Proof.
  intros c cfg.
  apply (unset_log_interval_raises_TypeError c cfg plain_numpy 4 1
           (initial_state ∅ None) [reward_1] [false] [∅]);
    try reflexivity.
  - left. reflexivity.
  - constructor.
Defined.

(** ** The two-slot scenario *)

(** C6: two instances, [steps = 4], no [max_episode_len]; the first step
    is done for slot 1 only, the second for slot 0 only.  After the first
    pass the return of slot 1 is in the window and [episode_idx] is [0, 1];
    after the second [t] is 4, the return of slot 0 is in the window too,
    [episode_idx] is [1, 1], and the loop ends with the ["_finish"]
    checkpoint.  The returns are the float32 sums of the rewards of the
    episode, added one after the other from 0.0. *)
Theorem two_slot_scenario (r00 r01 r10 r11 : spec_float) (np : numpy)
    (fuel : nat) :
  let c := quiet 2 (two_slot_script r00 r01 r10 r11) in
  let cfg := default_config 4 "out" in
  let s0 := loop_entry c cfg 2 (initial_state ∅ None) in
  let return_1 := f32_add_f64 f32_zero r01 in
  let return_0 := f32_add_f64 (f32_add_f64 f32_zero r00) r10 in
  ∃ s1 s2 s3,
    loop_body c cfg np 2 0 s0 = (s1, Ok false)
    ∧ masks_of_trace (trace s1) = [[true; false]]
    ∧ recent_returns s1 = [return_1]
    ∧ episode_idx s1 = [0; 1]
    ∧ t s1 = 2
    ∧ loop_body c cfg np 2 1 s1 = (s2, Ok false)
    ∧ masks_of_trace (trace s2) = [[true; false]; [false; true]]
    ∧ recent_returns s2 = [return_1; return_0]
    ∧ episode_idx s2 = [1; 1]
    ∧ t s2 = 4
    ∧ training_loop c cfg np (S (S (S fuel))) 2 0 s0 = (s2, Ok tt)
    ∧ train_agent_batch c cfg np (S (S (S fuel))) (initial_state ∅ None)
      = (s3, Ok tt)
    ∧ checkpoints_of_trace (trace s3) = [(4, "_finish")]
    ∧ recent_returns s3 = [return_1; return_0]
    ∧ episode_idx s3 = [1; 1].
Proof.
  intros c cfg s0 return_1 return_0.
  assert (Hpass1 : ∃ s1 l0 l1,
    loop_body c cfg np 2 0 s0 = (s1, Ok false)
    ∧ masks_of_trace (trace s1) = [[true; false]]
    ∧ checkpoints_of_trace (trace s1) = []
    ∧ recent_returns s1 = [return_1] ∧ episode_idx s1 = [0; 1] ∧ t s1 = 2
    ∧ episode_r s1
      = [f32_add_f64 f32_zero r00; f32_mul return_1 f32_zero]
    ∧ episode_len s1 = [l0; l1]).
  { eexists _, _, _. split.
    - unfold loop_body, bind, call, compute_masks, gets, lift, ret,
        update_episodes, modify.
      cbn -[f32_add_f64 f32_mul f32_add f32_one f32_zero]. reflexivity.
    - cbn -[f32_add_f64 f32_mul f32_add f32_one f32_zero].
      rewrite f32_mul_one by apply f32_add_f64_valid.
      repeat split. }
  destruct Hpass1
    as (s1 & l0 & l1 & Hbody1 & Hm1 & Hc1 & Hw1 & Hi1 & Ht1 & Hr1 & Hl1).
  assert (Hpass2 : ∃ s2,
    loop_body c cfg np 2 1 s1 = (s2, Ok false)
    ∧ masks_of_trace (trace s2) = masks_of_trace (trace s1) ++ [[false; true]]
    ∧ checkpoints_of_trace (trace s2) = checkpoints_of_trace (trace s1)
    ∧ recent_returns s2 = [return_1; return_0]
    ∧ episode_idx s2 = [1; 1] ∧ t s2 = 4).
  { destruct s1 as [tr fs at_ now er ei el win]. simpl in *. subst.
    eexists. split.
    - unfold loop_body, bind, call, compute_masks, gets, lift, ret,
        update_episodes, modify.
      cbn -[f32_add_f64 f32_mul f32_add f32_one f32_zero
            masks_of_trace checkpoints_of_trace]. reflexivity.
    - cbn -[f32_add_f64 f32_mul f32_add f32_one f32_zero
            masks_of_trace checkpoints_of_trace]. split.
      { unfold masks_of_trace. rewrite !omap_app. simpl.
        by rewrite !app_nil_r. }
      split.
      { unfold checkpoints_of_trace. rewrite !omap_app. simpl.
        by rewrite !app_nil_r. }
      repeat split. }
  destruct Hpass2 as (s2 & Hbody2 & Hm2 & Hc2 & Hw2 & Hi2 & Ht2).
  rewrite Hm1 in Hm2. simpl in Hm2. rewrite Hc1 in Hc2.
  assert (Hloop :
    training_loop c cfg np (S (S (S fuel))) 2 0 s0 = (s2, Ok tt)).
  { rewrite training_loop_unfold.
    replace (t s0 <? steps cfg) with true by reflexivity.
    rewrite (bind_eq_Ok _ _ _ _ _ Hbody1), training_loop_unfold.
    rewrite Ht1. replace (2 <? steps cfg) with true by reflexivity.
    rewrite (bind_eq_Ok _ _ _ _ _ Hbody2), training_loop_unfold.
    rewrite Ht2. reflexivity. }
  set (s3 := record_event (SaveAgent (t s2) "_finish") s2).
  assert (Hguard :
    guarded_loop c cfg np (S (S (S fuel))) 2 s0 = (s3, Ok tt)).
  { rewrite guarded_loop_unfold, Hloop. apply else_clause_eq. }
  exists s1, s2, s3.
  split; [exact Hbody1|]. split; [exact Hm1|]. split; [exact Hw1|].
  split; [exact Hi1|]. split; [exact Ht1|]. split; [exact Hbody2|].
  split; [exact Hm2|]. split; [exact Hw2|]. split; [exact Hi2|].
  split; [exact Ht2|]. split; [exact Hloop|].
  split.
  { by rewrite (train_agent_batch_entry c cfg np _ 2). }
  split.
  { subst s3. simpl. rewrite Ht2. unfold checkpoints_of_trace in *.
    rewrite omap_app, Hc2. reflexivity. }
  split; [exact Hw2 | exact Hi2].
Qed.

(** ** Two more runs *)

(** An exception of the environment in the second pass, with an
    evaluator: the checkpoint carries the [t] of that moment, both
    environments are closed, and the exception comes out. *)
Example env_step_exception_is_checkpointed :
  let c := with_evaluator
             (with_env_step (quiet 1 never_done_script) failing_second_step)
             (Some (quiet_evaluator 0%Qc)) in
  let run := train_agent_batch c (default_config 4 "out") plain_numpy 5
               (initial_state ∅ None) in
  snd run = Raise (OtherException 7)
  ∧ drop 5 (trace (fst run))
    = [BatchActAndTrain; EnvStep; SaveAgent 1 "_except"; EnvClose;
       EvaluatorEnvClose].
Proof. split; vm_compute; reflexivity. Qed.

(** A successful score met at the first evaluation: the loop stops there,
    far from [steps], and the ["_finish"] checkpoint is taken. *)
Example successful_score_stops_the_loop :
  let c := with_evaluator (quiet 1 never_done_script)
             (Some (quiet_evaluator 1%Qc)) in
  let cfg := with_eval_interval (default_config 10 "out")
               (Some 1) (Some 1) (Some 1%Qc) in
  let run := train_agent_batch c cfg plain_numpy 11 (initial_state ∅ None) in
  snd run = Ok tt
  ∧ t (fst run) = 1
  ∧ checkpoints_of_trace (trace (fst run)) = [(1, "_finish")].
Proof. repeat split; vm_compute; reflexivity. Qed.

(** * Further properties *)

(** ** What a run adds to the trace *)

Lemma trace_record_events evs s : trace (record_events evs s) = trace s ++ evs.
Proof.
  revert s. induction evs as [|ev evs IH]; intros s; simpl.
  - by rewrite app_nil_r.
  - rewrite IH. simpl. by rewrite <- app_assoc.
Qed.

Lemma record_events_same_but_trace evs s : same_but_trace s (record_events evs s).
Proof.
  revert s. induction evs as [|ev evs IH]; intros s; simpl; [done|].
  etrans; [|apply IH]. done.
Qed.

Section AddsOnly.

Context {A B : Type} (P : event → bool).

Lemma adds_only_bind (m : M A) (k : A → M B) :
  adds_only P m → (∀ a, adds_only P (k a)) → adds_only P (bind m k).
Proof.
  intros Hm Hk s. unfold bind. destruct (Hm s) as (evs & Htr & HP).
  destruct (m s) as [s1 [a|e|]]; simpl in *; [|by exists evs..].
  destruct (Hk a s1) as (evs' & Htr' & HP').
  exists (evs ++ evs'). split.
  - by rewrite Htr', Htr, <- app_assoc.
  - by rewrite forallb_app, HP, HP'.
Qed.

Lemma adds_only_call ev (r : result A) : P ev = true → adds_only P (call ev r).
Proof. intros HP s. exists [ev]. simpl. by rewrite HP. Qed.

Lemma adds_only_silent (m : M A) :
  (∀ s, trace (fst (m s)) = trace s) → adds_only P m.
Proof. intros Hm s. exists []. by rewrite Hm, app_nil_r. Qed.

End AddsOnly.

Lemma run_hooks_adds_only j hooks : adds_only is_pass_event (run_hooks j hooks).
Proof.
  revert j. induction hooks as [|hook hooks IH]; intros j.
  - by apply adds_only_silent.
  - simpl. apply adds_only_bind; [by apply adds_only_silent|intros now].
    apply adds_only_bind; [by apply adds_only_call|intros _]. apply IH.
Qed.

Lemma log_and_evaluate_adds_only c cfg np k :
  adds_only is_pass_event (log_and_evaluate c cfg np k).
Proof.
  unfold log_and_evaluate.
  destruct (eval_interval cfg); [|by apply adds_only_silent].
  apply adds_only_bind; [by apply adds_only_silent|intros now].
  apply adds_only_bind; [by apply adds_only_silent|intros m].
  destruct (m =? 0); [|by apply adds_only_silent].
  apply adds_only_bind; [by apply adds_only_silent|intros window].
  apply adds_only_bind; [by apply adds_only_silent|intros idx].
  apply adds_only_bind; [intros s; by exists [LoggerInfoProgress now (np_mean np window) (np_sum_Z idx)]|intros _].
  apply adds_only_bind; [by apply adds_only_call|intros _].
  apply adds_only_bind; [intros s; by exists [LoggerInfoStatistics]|intros _].
  destruct (evaluator c) as [ev|]; [|by apply adds_only_silent].
  apply adds_only_bind; [by apply adds_only_call|intros _].
  destruct (successful_score cfg); by apply adds_only_silent.
Qed.

Lemma loop_body_adds_only c cfg np n k :
  adds_only is_pass_event (loop_body c cfg np n k).
Proof.
  unfold loop_body.
  apply adds_only_bind; [by apply adds_only_call|intros _].
  apply adds_only_bind; [by apply adds_only_call|intros [[r done] info]].
  apply adds_only_bind.
  { apply adds_only_silent. intros s. by rewrite compute_masks_state. }
  intros [info' masks].
  apply adds_only_bind; [by apply adds_only_call|intros _].
  apply adds_only_bind; [by apply adds_only_call|intros _].
  apply adds_only_bind.
  { apply adds_only_silent. intros s.
    by destruct (update_episodes_world cfg n r masks s) as (? & _). }
  intros _.
  apply adds_only_bind; [apply run_hooks_adds_only|intros _].
  apply adds_only_bind.
  { apply adds_only_silent. intros s.
    by destruct (write_training_r_same_but_files cfg np s) as (? & _). }
  intros _. apply log_and_evaluate_adds_only.
Qed.

Lemma training_loop_adds_only c cfg np n fuel :
  ∀ k, adds_only is_pass_event (training_loop c cfg np fuel n k).
Proof.
  induction fuel as [|fuel IH]; intros k; [by apply adds_only_silent|].
  simpl. apply adds_only_bind; [by apply adds_only_silent|intros now].
  destruct (now <? steps cfg); [|by apply adds_only_silent].
  apply adds_only_bind; [apply loop_body_adds_only|intros stop].
  destruct stop; [by apply adds_only_silent|apply IH].
Qed.

(** ** Properties of the state that a run keeps *)

Section Preserves.

Context {A B : Type} (P : state → Prop).

Lemma preserves_bind (m : M A) (k : A → M B) :
  preserves P m → (∀ a, preserves P (k a)) → preserves P (bind m k).
Proof.
  intros Hm Hk s HP. unfold bind. specialize (Hm s HP).
  destruct (m s) as [s1 [a|e|]]; simpl in *; [by apply Hk|done..].
Qed.

Lemma preserves_trace_only (m : M A) :
  (∀ s s', same_but_trace s s' → P s → P s') →
  (∀ s, same_but_trace s (fst (m s))) → preserves P m.
Proof. intros HP Hm s Hs. exact (HP s _ (Hm s) Hs). Qed.

End Preserves.

Lemma call_keeps_locals {A : Type} ev (r : result A) s :
  same_but_trace s (fst (call ev r s)).
Proof. done. Qed.

(** A property of the locals and the files that the bookkeeping and the
    write to the results file keep is kept by a whole pass, and by the
    loop, however they end. *)
Lemma loop_body_preserves (P : state → Prop) c cfg np n k :
  (∀ s s', same_but_trace s s' → P s → P s') →
  (∀ r masks, preserves P (update_episodes cfg n r masks)) →
  preserves P (write_training_r cfg np) →
  preserves P (loop_body c cfg np n k).
Proof.
  intros Htrace Hupd Hwrite. unfold loop_body.
  apply preserves_bind; [|intros _].
  { apply preserves_trace_only; [exact Htrace|]. intros s. apply call_keeps_locals. }
  apply preserves_bind; [|intros [[r done] info]].
  { apply preserves_trace_only; [exact Htrace|]. intros s. apply call_keeps_locals. }
  apply preserves_bind; [|intros [info' masks]].
  { intros s HP. by rewrite compute_masks_state. }
  apply preserves_bind; [|intros _].
  { apply preserves_trace_only; [exact Htrace|]. intros s. apply call_keeps_locals. }
  apply preserves_bind; [|intros _].
  { apply preserves_trace_only; [exact Htrace|]. intros s. apply call_keeps_locals. }
  apply preserves_bind; [apply Hupd|intros _].
  apply preserves_bind; [|intros _].
  { apply preserves_trace_only; [exact Htrace|]. apply run_hooks_same_but_trace. }
  apply preserves_bind; [apply Hwrite|intros _].
  apply preserves_trace_only; [exact Htrace|]. apply log_and_evaluate_same_but_trace.
Qed.

Lemma training_loop_preserves (P : state → Prop) c cfg np n fuel :
  (∀ s s', same_but_trace s s' → P s → P s') →
  (∀ r masks, preserves P (update_episodes cfg n r masks)) →
  preserves P (write_training_r cfg np) →
  ∀ k, preserves P (training_loop c cfg np fuel n k).
Proof.
  intros Htrace Hupd Hwrite.
  induction fuel as [|fuel IH]; intros k; [by intros s|].
  simpl. apply preserves_bind; [by intros s|intros now].
  destruct (now <? steps cfg); [|by intros s].
  apply preserves_bind; [by apply loop_body_preserves|intros stop].
  destruct stop; [by intros s|apply IH].
Qed.

(** The [except] and [else] clauses only call collaborators. *)
Lemma except_clause_same_but_trace c e s :
  same_but_trace s (fst (except_clause c e s)).
Proof.
  unfold except_clause, bind, gets, call, raise, ret. simpl.
  destruct (save_agent c (t s) "_except"); simpl; [|done].
  destruct (env_close c); simpl; [|done].
  destruct (evaluator c) as [ev|]; simpl; [|done].
  by destruct (evaluator_env_close ev).
Qed.

Lemma guarded_loop_preserves (P : state → Prop) c cfg np n fuel :
  (∀ s s', same_but_trace s s' → P s → P s') →
  (∀ r masks, preserves P (update_episodes cfg n r masks)) →
  preserves P (write_training_r cfg np) →
  preserves P (guarded_loop c cfg np fuel n).
Proof.
  intros Htrace Hupd Hwrite s HP. rewrite guarded_loop_unfold.
  pose proof (training_loop_preserves P c cfg np n fuel
                Htrace Hupd Hwrite 0%nat s HP) as Hloop.
  destruct (training_loop c cfg np fuel n 0 s) as [s1 [[]|e|]];
    cbn [fst] in Hloop; [| |done].
  - rewrite else_clause_eq. cbn [fst]. refine (Htrace s1 _ _ Hloop). done.
  - destruct (matches_except_clause e); [|done].
    refine (Htrace s1 _ _ Hloop). apply except_clause_same_but_trace.
Qed.

Lemma np_inplace_length {A B : Type} (f : A → B → A) xs ys zs :
  np_inplace f xs ys = Ok zs → length zs = length xs.
Proof.
  unfold np_inplace. destruct (length xs =? length ys)%nat eqn:Hlen.
  - apply Nat.eqb_eq in Hlen. intros [= <-].
    rewrite length_zip_with. lia.
  - destruct ys as [|y [|? ?]]; intros [= <-]. by rewrite length_fmap.
Qed.

Lemma np_inplace_Forall {A B : Type} (f : A → B → A) (Q : A → Prop) xs ys zs :
  (∀ x y, Q (f x y)) → np_inplace f xs ys = Ok zs → Forall Q zs.
Proof.
  intros HQ. unfold np_inplace. destruct (length xs =? length ys)%nat.
  - intros [= <-]. apply Forall_lookup. intros i z Hz.
    rewrite lookup_zip_with in Hz.
    destruct (xs !! i) as [x|]; [|done]. simpl in Hz.
    destruct (ys !! i) as [y|]; [|done]. injection Hz as <-. apply HQ.
  - destruct ys as [|y [|? ?]]; intros [= <-].
    apply Forall_fmap, Forall_lookup. intros i x _. apply HQ.
Qed.

Lemma np_inplace_Forall_both {A B : Type} (f : A → B → A)
    (Q Q' : A → Prop) (R : B → Prop) xs ys zs :
  (∀ x y, Q x → R y → Q' (f x y)) → Forall Q xs → Forall R ys →
  np_inplace f xs ys = Ok zs → Forall Q' zs.
Proof.
  intros HQ Hxs Hys. unfold np_inplace. destruct (length xs =? length ys)%nat.
  - intros [= <-]. apply Forall_lookup. intros i z Hz.
    rewrite lookup_zip_with in Hz.
    destruct (xs !! i) as [x|] eqn:Hx; [|done]. simpl in Hz.
    destruct (ys !! i) as [y|] eqn:Hy; [|done]. injection Hz as <-.
    apply HQ; by eapply Forall_lookup_1.
  - destruct ys as [|y [|? ?]]; intros [= <-].
    apply Forall_fmap, Forall_lookup. intros i x Hx. simpl.
    apply HQ; [by eapply Forall_lookup_1|].
    by eapply (Forall_lookup_1 _ _ 0%nat).
Qed.

Lemma arrays_shaped_same_but_trace n s s' :
  same_but_trace s s' → arrays_shaped n s → arrays_shaped n s'.
Proof.
  intros (_ & _ & _ & Hr & Hi & Hl & _). unfold arrays_shaped.
  by rewrite Hr, Hi, Hl.
Qed.

Lemma is_count_succ l : is_count l → is_count (f32_add l f32_one).
Proof.
  intros (j & Hj & ->). exists (Z.min (j + 1) (2 ^ 24)).
  split; [lia|]. by apply f32_count_step.
Qed.

Lemma is_count_mask l m : is_count l → is_count (f32_mul l (f32_of_bool m)).
Proof.
  intros (j & Hj & ->). destruct m; simpl.
  - exists j. split; [done|]. apply f32_mul_one, f32_of_Z_valid.
  - exists 0. split; [lia|]. by apply f32_count_times_zero.
Qed.

Lemma f32_valid_mask x m : f32_valid x → f32_valid (f32_mul x (f32_of_bool m)).
Proof.
  intros Hx. destruct m; simpl.
  - by rewrite f32_mul_one.
  - rewrite f32_mul_zero. by destruct x.
Qed.

Lemma update_episodes_arrays_shaped cfg n n' r masks :
  preserves (arrays_shaped n) (update_episodes cfg n' r masks).
Proof.
  intros s (Hr & Hi & Hl & Hval & Hint & Hpos).
  unfold update_episodes, bind, gets, lift, modify. simpl.
  destruct (np_inplace f32_add_f64 _ _) as [er1|?|] eqn:E1; [|done..]. simpl.
  pose proof (np_inplace_length _ _ _ _ E1) as L1.
  apply np_inplace_Forall with (Q := f32_valid) in E1;
    [|intros; apply f32_add_f64_valid].
  assert (Hpos1 :
    Forall is_count ((λ l, f32_add l f32_one) <$> episode_len s)).
  { apply Forall_fmap. eapply Forall_impl; [|exact Hpos].
    intros l. apply is_count_succ. }
  destruct (np_inplace _ (episode_idx s) _) as [ei1|?|] eqn:E2; simpl;
    [|by repeat split; simpl; rewrite ?length_fmap; try congruence..].
  pose proof (np_inplace_length _ _ _ _ E2) as L2.
  apply np_inplace_Forall with (Q := is_int32) in E2;
    [|intros; apply wrap32_is_int32].
  assert (Hmasks : Forall (λ y, ∃ m, y = f32_of_bool m) (f32_of_bool <$> masks)).
  { apply Forall_fmap, Forall_lookup. intros i m _. by exists m. }
  destruct (np_inplace f32_mul er1 _) as [er2|?|] eqn:E3; simpl;
    [|by repeat split; simpl; rewrite ?length_fmap; try congruence..].
  pose proof (np_inplace_length _ _ _ _ E3) as L3.
  apply np_inplace_Forall_both
    with (Q := f32_valid) (Q' := f32_valid)
         (R := λ y, ∃ m, y = f32_of_bool m) in E3;
    [|by intros x y Hx [m ->]; apply f32_valid_mask|exact E1|exact Hmasks].
  destruct (np_inplace f32_mul _ _) as [el2|?|] eqn:E4; simpl;
    [|by repeat split; simpl; rewrite ?length_fmap; try congruence..].
  pose proof (np_inplace_length _ _ _ _ E4) as L4.
  rewrite length_fmap in L4.
  apply np_inplace_Forall_both
    with (Q := is_count) (Q' := is_count)
         (R := λ y, ∃ m, y = f32_of_bool m) in E4;
    [|by intros x y Hx [m ->]; apply is_count_mask|exact Hpos1|exact Hmasks].
  repeat split; simpl; try congruence; done.
Qed.

Lemma write_training_r_arrays_shaped cfg np n :
  preserves (arrays_shaped n) (write_training_r cfg np).
Proof.
  intros s. unfold arrays_shaped.
  destruct (write_training_r_same_but_files cfg np s)
    as (_ & _ & _ & Hr & Hi & Hl & _).
  by rewrite Hr, Hi, Hl.
Qed.

(** The episode arrays keep one entry per instance through the whole run,
    however it ends: [episode_r] holds float32 numbers, [episode_idx]
    32-bit integers, and [episode_len] whole numbers from 0 to 2^24. *)
Theorem episode_arrays_stay_shaped
    (c : collaborators) (cfg : config) (np : numpy)
    (fuel n : nat) (s : state) :
  env_num_envs c = Returns n →
  arrays_shaped n (fst (train_agent_batch c cfg np fuel s)).
Proof.
  intros Hnum.
  assert (Hzero : ∀ s0,
    episode_r s0 = np_zeros f32_zero n → episode_idx s0 = np_zeros 0 n →
    episode_len s0 = np_zeros f32_zero n → arrays_shaped n s0).
  { intros s0 Hr Hi Hl. unfold arrays_shaped. rewrite Hr, Hi, Hl.
    unfold np_zeros. rewrite !length_replicate.
    split; [done|]. split; [done|]. split; [done|].
    split; [by apply Forall_replicate|]. split.
    - apply Forall_replicate. unfold is_int32.
      change (2 ^ 31) with 2147483648. lia.
    - apply Forall_replicate. exists 0. split; [|done].
      change (2 ^ 24) with 16777216. lia. }
  destruct (env_reset c) as [[]|e] eqn:Hreset.
  - rewrite (train_agent_batch_entry c cfg np fuel n s Hnum Hreset).
    apply guarded_loop_preserves; [| | |by apply Hzero].
    + apply arrays_shaped_same_but_trace.
    + intros r masks. apply update_episodes_arrays_shaped.
    + apply write_training_r_arrays_shaped.
  - unfold train_agent_batch, get_num_envs, bind, modify, call, ret.
    rewrite Hnum, Hreset. simpl. by apply Hzero.
Qed.

Lemma episode_arrays_stay_shaped_witness :
  arrays_shaped 1
    (fst (train_agent_batch (quiet 1 always_done_script)
            (default_config 3 "out") plain_numpy 5 (initial_state ∅ None))).
Proof.
  apply (episode_arrays_stay_shaped (quiet 1 always_done_script)
           (default_config 3 "out") plain_numpy 5 1 (initial_state ∅ None)).
  reflexivity.
Defined.

Lemma length_deque_extend_fits {A : Type} maxlen (d xs : list A) :
  deque_fits maxlen (length d) →
  deque_fits maxlen (length (deque_extend maxlen d xs)).
Proof.
  destruct maxlen as [m|]; simpl; [|done]. intros Hd.
  rewrite deque_extend_bounded by done.
  rewrite length_drop, length_app. lia.
Qed.

Lemma window_bounded_same_but_trace cfg s s' :
  same_but_trace s s' → window_bounded cfg s → window_bounded cfg s'.
Proof.
  intros (_ & _ & _ & _ & _ & _ & Hw). unfold window_bounded. by rewrite Hw.
Qed.

Lemma update_episodes_window_bounded cfg n r masks :
  preserves (window_bounded cfg) (update_episodes cfg n r masks).
Proof.
  intros s Hw. unfold window_bounded in *.
  unfold update_episodes, bind, gets, lift, modify. simpl.
  destruct (np_inplace f32_add_f64 _ _); [|done..]. simpl.
  destruct (np_inplace _ (episode_idx s) _); [|done..]. simpl.
  pose proof (length_deque_extend_fits (return_window_size cfg)
                (recent_returns s)) as Hext.
  destruct (np_inplace f32_mul _ _); simpl; [|by apply Hext..].
  destruct (np_inplace f32_mul _ _); simpl; by apply Hext.
Qed.

(** The recent-returns window never holds more than [return_window_size]
    entries, whatever the run does and however it ends. *)
Theorem recent_returns_within_capacity
    (c : collaborators) (cfg : config) (np : numpy)
    (fuel : nat) (s : state) :
  window_bounded cfg (fst (train_agent_batch c cfg np fuel s)).
Proof.
  assert (Hempty : ∀ s0, recent_returns s0 = [] → window_bounded cfg s0).
  { intros s0 H0. unfold window_bounded. rewrite H0.
    destruct (return_window_size cfg); simpl; [lia|done]. }
  assert (Hkeep : ∀ n, preserves (window_bounded cfg)
                         (guarded_loop c cfg np fuel n)).
  { intros n. apply guarded_loop_preserves.
    - apply window_bounded_same_but_trace.
    - intros r masks. apply update_episodes_window_bounded.
    - intros s0. unfold window_bounded.
      destruct (write_training_r_same_but_files cfg np s0)
        as (_ & _ & _ & _ & _ & _ & Hw). by rewrite Hw. }
  unfold train_agent_batch, get_num_envs, bind, modify, call, ret, raise.
  destruct (env_num_envs c) as [n|[]]; simpl; try by apply Hempty.
  destruct (env_reset c) as [[]|e]; simpl; [|by apply Hempty].
  destruct (agent_has_t c); simpl; apply Hkeep; by apply Hempty.
Qed.

(** ** Where the step counter stands when a run ends *)


Section StepCounter.

Context {A B : Type} (n : nat).




End StepCounter.



(** ** Checkpoints *)

Lemma checkpoints_of_trace_app tr tr' :
  checkpoints_of_trace (tr ++ tr')
  = checkpoints_of_trace tr ++ checkpoints_of_trace tr'.
Proof. apply omap_app. Qed.

Lemma checkpoints_of_pass_events evs :
  forallb is_pass_event evs = true → checkpoints_of_trace evs = [].
Proof.
  induction evs as [|ev evs IH]; [done|]. simpl.
  intros [Hev Hevs]%andb_prop. specialize (IH Hevs).
  unfold checkpoints_of_trace in *. simpl. rewrite IH. by destruct ev.
Qed.

Lemma except_clause_trace c e s :
  ∃ rest,
    trace (fst (except_clause c e s))
    = trace s ++ SaveAgent (t s) "_except" :: rest
    ∧ checkpoints_of_trace rest = [].
Proof.
  unfold except_clause, bind, gets, call, raise, ret. simpl.
  destruct (save_agent c (t s) "_except"); simpl; [|by exists []].
  destruct (env_close c); simpl.
  - destruct (evaluator c) as [ev|]; simpl.
    + destruct (evaluator_env_close ev); simpl;
        exists [EnvClose; EvaluatorEnvClose]; by rewrite <- !app_assoc.
    + exists [EnvClose]. by rewrite <- !app_assoc.
  - exists [EnvClose]. by rewrite <- !app_assoc.
Qed.


Lemma train_agent_batch_Ok c cfg np fuel s s' :
  train_agent_batch c cfg np fuel s = (s', Ok tt) →
  ∃ n s1,
    env_num_envs c = Returns n ∧ env_reset c = Returns tt
    ∧ training_loop c cfg np fuel n 0 (loop_entry c cfg n s)
      = (s1, Ok tt)
    ∧ s' = record_event (SaveAgent (t s1) "_finish") s1.
Proof.
  intros Hrun.
  destruct (env_num_envs c) as [n|e] eqn:Hnum.
  2:{ unfold train_agent_batch, get_num_envs, bind, modify, raise in Hrun.
      rewrite Hnum in Hrun. by destruct e. }
  destruct (env_reset c) as [[]|e] eqn:Hreset.
  2:{ unfold train_agent_batch, get_num_envs, bind, modify, call, ret in Hrun.
      by rewrite Hnum, Hreset in Hrun. }
  rewrite (train_agent_batch_entry c cfg np fuel n s Hnum Hreset),
    guarded_loop_unfold in Hrun.
  destruct (training_loop c cfg np fuel n 0 (loop_entry c cfg n s))
    as [s1 [[]|e|]] eqn:Hloop; [| |done].
  - rewrite else_clause_eq in Hrun. exists n, s1.
    split; [done|]. split; [done|]. split; [done|].
    by injection Hrun as <- _.
  - destruct (matches_except_clause e); [|done].
    destruct (except_clause_trace c e s1) as (rest & _).
    unfold except_clause, bind, gets, call, raise, ret in Hrun. simpl in Hrun.
    destruct (save_agent c (t s1) "_except"); simpl in Hrun; [|done].
    destruct (env_close c); simpl in Hrun; [|done].
    destruct (evaluator c) as [ev|]; simpl in Hrun; [|done].
    by destruct (evaluator_env_close ev).
Qed.

(** A run that returns has recorded, after the reset of the environment,
    only calls of the loop and then one ["_finish"] checkpoint at the final
    [t]: it has closed no environment and taken no other checkpoint. *)
Theorem returning_run_closes_nothing
    (c : collaborators) (cfg : config) (np : numpy)
    (fuel : nat) (s s' : state) :
  train_agent_batch c cfg np fuel s = (s', Ok tt) →
  ∃ evs,
    trace s' = trace s ++ EnvReset :: (evs ++ [SaveAgent (t s') "_finish"])
    ∧ forallb is_pass_event evs = true
    ∧ (EnvClose ∉ evs) ∧ (EvaluatorEnvClose ∉ evs).
Proof.
  intros (n & s1 & Hnum & Hreset & Hloop & ->)%train_agent_batch_Ok.
  destruct (training_loop_adds_only c cfg np n fuel 0
              (loop_entry c cfg n s)) as (evs & Htr & Hevs).
  rewrite Hloop in Htr. simpl in Htr.
  exists evs. split; [|split; [exact Hevs|]].
  - simpl. rewrite Htr, <- !app_assoc. done.
  - rewrite forallb_forall in Hevs.
    split; intros Hin%list_elem_of_In%Hevs; discriminate Hin.
Qed.

Lemma returning_run_closes_nothing_witness :
  let run := train_agent_batch (quiet 1 always_done_script)
               (default_config 2 "out") plain_numpy 4 (initial_state ∅ None) in
  ∃ evs,
    trace (fst run)
    = trace (initial_state ∅ None)
      ++ EnvReset :: (evs ++ [SaveAgent (t (fst run)) "_finish"])
    ∧ forallb is_pass_event evs = true
    ∧ (EnvClose ∉ evs) ∧ (EvaluatorEnvClose ∉ evs).
Proof.
  intros run.
  apply (returning_run_closes_nothing (quiet 1 always_done_script)
           (default_config 2 "out") plain_numpy 4 (initial_state ∅ None)
           (fst run)).
  vm_compute. reflexivity.
Defined.

Lemma training_loop_overshoot c cfg np n fuel :
  successful_score cfg = None →
  ∀ k s s',
    training_loop c cfg np fuel n k s = (s', Ok tt) →
    t s < steps cfg →
    steps cfg ≤ t s' < steps cfg + Z.of_nat n.
Proof.
  intros Hscore. induction fuel as [|fuel IH]; intros k s s' Hloop Hlt; [done|].
  rewrite training_loop_unfold in Hloop.
  rewrite (proj2 (Z.ltb_lt _ _) Hlt) in Hloop.
  apply bind_Ok in Hloop as (stop & s1 & Hbody & Hrest).
  pose proof (loop_body_t _ _ _ _ _ _ _ _ Hbody) as Ht1.
  destruct stop.
  { apply loop_body_stop in Hbody as (ev & score & _ & Hs & _). congruence. }
  destruct (decide (t s1 < steps cfg)) as [Hlt1|Hge1].
  - by apply (IH (S k) s1 s').
  - destruct fuel as [|fuel']; [done|].
    rewrite training_loop_unfold in Hrest.
    rewrite (proj2 (Z.ltb_ge _ _)) in Hrest by lia.
    injection Hrest as <-. lia.
Qed.

(** A run that returns with no successful score configured and with steps
    left to do at the start has stopped at the first value of [t], counted
    from [step_offset] in strides of the number of instances, that is not
    below [steps]: it overshoots [steps] by less than one stride, and the
    ["_finish"] checkpoint carries that value. *)
Theorem final_step_is_first_stride_past_steps
    (c : collaborators) (cfg : config) (np : numpy)
    (fuel : nat) (s s' : state) :
  train_agent_batch c cfg np fuel s = (s', Ok tt) →
  successful_score cfg = None →
  step_offset cfg < steps cfg →
  ∃ n passes : nat,
    env_num_envs c = Returns n
    ∧ t s' = step_offset cfg + Z.of_nat passes * Z.of_nat n
    ∧ steps cfg ≤ t s' < steps cfg + Z.of_nat n
    ∧ checkpoints_of_trace (trace s')
      = checkpoints_of_trace (trace s) ++ [(t s', "_finish")].
Proof.
  intros Hrun Hscore Hlt.
  destruct (train_agent_batch_Ok _ _ _ _ _ _ Hrun)
    as (n & s1 & Hnum & Hreset & Hloop & ->).
  destruct (training_loop_Ok c cfg np n fuel 0 _ _ Hloop)
    as (passes & Ht & _).
  pose proof (training_loop_overshoot c cfg np n fuel Hscore 0 _ _
                Hloop Hlt) as Hover.
  destruct (training_loop_adds_only c cfg np n fuel 0
              (loop_entry c cfg n s)) as (evs & Htr & Hevs).
  rewrite Hloop in Htr. simpl in Htr.
  apply checkpoints_of_pass_events in Hevs.
  exists n, passes. simpl. repeat split; try done; try lia.
  rewrite Htr, !checkpoints_of_trace_app, Hevs. simpl.
  by rewrite !app_nil_r.
Qed.

Lemma final_step_is_first_stride_past_steps_witness :
  let c := quiet 2 (two_slot_script reward_1 reward_1 reward_1 reward_1) in
  let cfg := default_config 3 "out" in
  let s' := fst (train_agent_batch c cfg plain_numpy 4 (initial_state ∅ None)) in
  ∃ n passes : nat,
    env_num_envs c = Returns n
    ∧ t s' = step_offset cfg + Z.of_nat passes * Z.of_nat n
    ∧ steps cfg ≤ t s' < steps cfg + Z.of_nat n
    ∧ checkpoints_of_trace (trace s')
      = checkpoints_of_trace (trace (initial_state ∅ None))
        ++ [(t s', "_finish")].
Proof.
  intros c cfg s'.
  apply (final_step_is_first_stride_past_steps c cfg plain_numpy 4
           (initial_state ∅ None) s');
    [vm_compute; reflexivity | reflexivity | reflexivity].
Defined.

(** With nothing left to do ([steps <= step_offset]) no pass is made: the
    environment is reset once, the agent is never asked to act, and the
    ["_finish"] checkpoint is taken at [step_offset]. *)
Theorem no_pass_when_steps_already_reached
    (c : collaborators) (cfg : config) (np : numpy)
    (fuel n : nat) (s : state) :
  env_num_envs c = Returns n → env_reset c = Returns tt →
  steps cfg ≤ step_offset cfg →
  ∃ s',
    train_agent_batch c cfg np (S fuel) s
    = (s', outcome_of (save_agent c (step_offset cfg) "_finish"))
    ∧ trace s' = trace s ++ [EnvReset; SaveAgent (step_offset cfg) "_finish"]
    ∧ t s' = step_offset cfg
    ∧ episode_idx s' = np_zeros 0 n
    ∧ recent_returns s' = []
    ∧ files s' = files s.
Proof.
  intros Hnum Hreset Hge.
  rewrite (train_agent_batch_entry c cfg np (S fuel) n s Hnum Hreset).
  rewrite guarded_loop_unfold, training_loop_unfold.
  replace (t (loop_entry c cfg n s) <? steps cfg) with false
    by (symmetry; apply Z.ltb_ge; exact Hge).
  rewrite else_clause_eq. eexists. split; [reflexivity|].
  simpl. by rewrite <- app_assoc.
Qed.

Lemma no_pass_when_steps_already_reached_witness :
  let c := quiet 2 (two_slot_script reward_1 reward_1 reward_1 reward_1) in
  let cfg := default_config 0 "out" in
  ∃ s',
    train_agent_batch c cfg plain_numpy 1 (initial_state ∅ None)
    = (s', outcome_of (save_agent c (step_offset cfg) "_finish"))
    ∧ trace s'
      = trace (initial_state ∅ None)
        ++ [EnvReset; SaveAgent (step_offset cfg) "_finish"]
    ∧ t s' = step_offset cfg
    ∧ episode_idx s' = np_zeros 0 2
    ∧ recent_returns s' = []
    ∧ files s' = files (initial_state ∅ None).
Proof.
  intros c cfg.
  apply (no_pass_when_steps_already_reached c cfg plain_numpy 0 2
           (initial_state ∅ None)); [reflexivity | reflexivity | ].
  simpl. lia.
Defined.

(** ** Failures outside the loop *)

(** When the first [env.reset()] raises, the exception leaves as it is,
    whatever its class: line 93 is before the [try], so no checkpoint is
    taken, nothing is closed and the agent's [t] is not set. *)
Theorem failing_first_reset_is_not_handled
    (c : collaborators) (cfg : config) (np : numpy)
    (fuel n : nat) (e : exn) (s : state) :
  env_num_envs c = Returns n → env_reset c = Raises e →
  ∃ s',
    train_agent_batch c cfg np fuel s = (s', Raise e)
    ∧ trace s' = trace s ++ [EnvReset]
    ∧ agent_t s' = agent_t s
    ∧ files s' = files s.
Proof.
  intros Hnum Hreset.
  unfold train_agent_batch, get_num_envs, bind, modify, call, ret.
  rewrite Hnum, Hreset. simpl. by eexists.
Qed.

Lemma failing_first_reset_is_not_handled_witness :
  let c := with_env_reset (quiet 2 (two_slot_script reward_1 reward_1 reward_1 reward_1))
             (Raises (OtherException 3)) in
  ∃ s',
    train_agent_batch c (default_config 4 "out") plain_numpy 5
      (initial_state ∅ None) = (s', Raise (OtherException 3))
    ∧ trace s' = trace (initial_state ∅ None) ++ [EnvReset]
    ∧ agent_t s' = agent_t (initial_state ∅ None)
    ∧ files s' = files (initial_state ∅ None).
Proof.
  intros c.
  apply (failing_first_reset_is_not_handled c (default_config 4 "out")
           plain_numpy 5 2 (OtherException 3) (initial_state ∅ None));
    reflexivity.
Defined.

(** When [save_agent] itself raises in the [except] clause, its exception
    replaces the one of the loop, and neither environment is closed. *)
Theorem failing_checkpoint_skips_the_closes
    (c : collaborators) (cfg : config) (np : numpy)
    (fuel n : nat) (s s1 : state) (e e' : exn) :
  training_loop c cfg np fuel n 0 s = (s1, Raise e) →
  matches_except_clause e = true →
  save_agent c (t s1) "_except" = Raises e' →
  guarded_loop c cfg np fuel n s
  = (record_event (SaveAgent (t s1) "_except") s1, Raise e').
Proof.
  intros Hloop Hcaught Hsave.
  rewrite guarded_loop_unfold, Hloop, Hcaught.
  unfold except_clause, bind, gets, call. simpl. by rewrite Hsave.
Qed.

Lemma failing_checkpoint_skips_the_closes_witness :
  let c := with_save_agent
             (with_env_step (quiet 1 never_done_script) failing_second_step)
             (λ _ _, Raises (OtherException 9)) in
  let cfg := default_config 4 "out" in
  let s := loop_entry c cfg 1 (initial_state ∅ None) in
  let s1 := fst (training_loop c cfg plain_numpy 5 1 0 s) in
  guarded_loop c cfg plain_numpy 5 1 s
  = (record_event (SaveAgent (t s1) "_except") s1, Raise (OtherException 9)).
Proof.
  intros c cfg s s1.
  apply (failing_checkpoint_skips_the_closes c cfg plain_numpy 5 1 s s1
           (OtherException 7) (OtherException 9));
    [vm_compute; reflexivity | reflexivity | reflexivity].
Defined.

(** ** The step hooks *)

Lemma hook_events_cons j now hook hooks :
  hook_events j now (hook :: hooks)
  = StepHook j now :: hook_events (S j) now hooks.
Proof.
  unfold hook_events. rewrite imap_cons. f_equal.
  - f_equal. lia.
  - apply imap_ext. intros i h _. simpl. f_equal. lia.
Qed.

Lemma record_events_t evs s : t (record_events evs s) = t s.
Proof. by destruct (record_events_same_but_trace evs s) as (_ & _ & ? & _). Qed.

Lemma run_hooks_cons_returns j hook hooks s :
  hook (t s) = Returns tt →
  run_hooks j (hook :: hooks) s
  = run_hooks (S j) hooks (record_event (StepHook j (t s)) s).
Proof. intros Hh. simpl. unfold bind, gets, call. simpl. by rewrite Hh. Qed.

Lemma run_hooks_cons_raises j hook hooks e s :
  hook (t s) = Raises e →
  run_hooks j (hook :: hooks) s
  = (record_event (StepHook j (t s)) s, Raise e).
Proof. intros Hh. simpl. unfold bind, gets, call. simpl. by rewrite Hh. Qed.

(** The hooks are called in the order of the list, each with the value [t]
    has after line 130; as long as they return the next one is called, and
    the first one that raises ends the pass: those after it are not
    called. *)
Theorem hooks_run_in_order_until_one_raises
    (pre : list (Z → result unit)) (j : nat) (s : state) :
  Forall (λ hook : Z → result unit, hook (t s) = Returns tt) pre →
  run_hooks j pre s = (record_events (hook_events j (t s) pre) s, Ok tt)
  ∧ ∀ hook post e,
      hook (t s) = Raises e →
      run_hooks j (pre ++ hook :: post) s
      = (record_events (hook_events j (t s) (pre ++ [hook])) s, Raise e).
Proof.
  revert j s. induction pre as [|h pre IH]; intros j s Hpre.
  - split; [done|]. intros hook post e Hhook.
    rewrite !app_nil_l, (run_hooks_cons_raises _ _ _ e) by done.
    rewrite hook_events_cons. done.
  - inversion Hpre as [|? ? Hh Hpre']; subst.
    destruct (IH (S j) (record_event (StepHook j (t s)) s) Hpre')
      as [IH1 IH2].
    split.
    + rewrite run_hooks_cons_returns, IH1, hook_events_cons by done. done.
    + intros hook post e Hhook. rewrite <- !app_comm_cons.
      rewrite run_hooks_cons_returns, (IH2 hook post e Hhook),
        hook_events_cons by done.
      done.
Qed.

Lemma hooks_run_in_order_until_one_raises_witness :
  let s := initial_state ∅ None in
  let ok : Z → result unit := λ _, Returns tt in
  run_hooks 0 [ok; ok] s
  = (record_events (hook_events 0 (t s) [ok; ok]) s, Ok tt)
  ∧ ∀ hook post e,
      hook (t s) = Raises e →
      run_hooks 0 ([ok; ok] ++ hook :: post) s
      = (record_events (hook_events 0 (t s) ([ok; ok] ++ [hook])) s, Raise e).
Proof.
  intros s ok.
  apply (hooks_run_in_order_until_one_raises [ok; ok] 0 s).
  repeat constructor.
Defined.

(** ** The evaluation interval *)

Lemma training_loop_eval_interval c cfg np n fuel a b :
  eval_interval cfg = Some a →
  ∀ k s,
    training_loop c (set_eval_interval cfg (Some b)) np fuel n k s
    = training_loop c cfg np fuel n k s.
Proof.
  intros Hei.
  assert (Hbody : ∀ k s,
    loop_body c (set_eval_interval cfg (Some b)) np n k s
    = loop_body c cfg np n k s).
  { intros k s. destruct cfg. simpl in Hei. subst. reflexivity. }
  induction fuel as [|fuel IH]; intros k s; [done|].
  rewrite !training_loop_unfold. simpl.
  destruct (t s <? steps cfg); [|done].
  unfold bind. rewrite Hbody.
  destruct (loop_body c cfg np n k s) as [s1 [[]|e|]]; [done| |done..].
  apply IH.
Qed.

(** Inside [train_agent_batch] the value of [eval_interval] is never read:
    it only matters whether it is [None].  Two runs that differ in nothing
    but the value of a given interval do the same. *)
Theorem eval_interval_value_is_not_read
    (c : collaborators) (cfg : config) (np : numpy)
    (fuel : nat) (s : state) (a b : Z) :
  eval_interval cfg = Some a →
  train_agent_batch c (set_eval_interval cfg (Some b)) np fuel s
  = train_agent_batch c cfg np fuel s.
Proof.
  intros Hei.
  assert (Hguard : ∀ n s0,
    guarded_loop c (set_eval_interval cfg (Some b)) np fuel n s0
    = guarded_loop c cfg np fuel n s0).
  { intros n s0. rewrite !guarded_loop_unfold.
    by rewrite (training_loop_eval_interval c cfg np n fuel a b Hei). }
  unfold train_agent_batch, get_num_envs, bind, modify, call, ret, raise.
  simpl. destruct (env_num_envs c) as [n|[]]; simpl; try done.
  destruct (env_reset c) as [[]|e]; simpl; [|done].
  destruct (agent_has_t c); simpl; apply Hguard.
Qed.

Lemma eval_interval_value_is_not_read_witness :
  let c := with_evaluator (quiet 1 never_done_script)
             (Some (quiet_evaluator 0%Qc)) in
  let cfg := with_eval_interval (default_config 4 "out")
               (Some 1) (Some 2) None in
  train_agent_batch c (set_eval_interval cfg (Some 1000)) plain_numpy 5
    (initial_state ∅ None)
  = train_agent_batch c cfg plain_numpy 5 (initial_state ∅ None).
Proof.
  intros c cfg.
  apply (eval_interval_value_is_not_read c cfg plain_numpy 5
           (initial_state ∅ None) 1 1000).
  reflexivity.
Defined.

(** The evaluator is asked at the multiples of [log_interval]: whenever
    lines 138-148 call [evaluate_if_necessary], an evaluator was passed,
    [eval_interval] is given, [t] is a multiple of the nonzero
    [log_interval], and the call carries [t] and [episode_idx + 1]. *)
Theorem evaluation_follows_log_interval
    (c : collaborators) (cfg : config) (np : numpy) (k : nat) (s : state)
    (evs : list event) (now : Z) (episodes : list Z) :
  trace (fst (log_and_evaluate c cfg np k s)) = trace s ++ evs →
  EvaluateIfNecessary now episodes ∈ evs →
  now = t s
  ∧ episodes = (λ x, wrap32 (x + 1)) <$> episode_idx s
  ∧ is_Some (evaluator c) ∧ is_Some (eval_interval cfg)
  ∧ ∃ li, log_interval cfg = Some li ∧ li ≠ 0 ∧ t s `mod` li = 0.
Proof.
  unfold log_and_evaluate, bind, gets, lift, modify, call, ret.
  assert (Hnone : ∀ tr, tr = tr ++ evs →
            EvaluateIfNecessary now episodes ∈ evs → False).
  { intros tr Htr Hin. rewrite <- (app_nil_r tr) in Htr at 1.
    apply app_inv_head in Htr. subst evs. by apply elem_of_nil in Hin. }
  assert (Hshort : ∀ tr l, tr ++ l = tr ++ evs →
            EvaluateIfNecessary now episodes ∉ l →
            EvaluateIfNecessary now episodes ∈ evs → False).
  { intros tr l Htr Hl Hin. apply app_inv_head in Htr. by subst evs. }
  destruct (eval_interval cfg) as [ei|]; simpl; [|intros; exfalso; eauto].
  destruct (log_interval cfg) as [li|]; simpl; [|intros; exfalso; eauto].
  destruct (decide (li = 0)) as [->|Hli]; simpl; [intros; exfalso; eauto|].
  replace (match li with 0 => Raise ZeroDivisionError | _ => Ok (t s `mod` li) end)
    with (Ok (A:=Z) (t s `mod` li)) by (by destruct li).
  destruct (t s `mod` li =? 0) eqn:Hmod; simpl; [|intros; exfalso; eauto].
  apply Z.eqb_eq in Hmod.
  destruct (get_statistics c k); simpl.
  2:{ rewrite <- !app_assoc. intros Htr Hin. exfalso.
      eapply Hshort; [exact Htr| |exact Hin].
      intros H. repeat (apply elem_of_cons in H as [H|H]; [discriminate|]).
      by apply elem_of_nil in H. }
  destruct (evaluator c) as [ev|]; simpl.
  2:{ rewrite <- !app_assoc. intros Htr Hin. exfalso.
      eapply Hshort; [exact Htr| |exact Hin].
      intros H. repeat (apply elem_of_cons in H as [H|H]; [discriminate|]).
      by apply elem_of_nil in H. }
  assert (Hfinal :
    (((trace s ++ [LoggerInfoProgress (t s)
                     (np_mean np (recent_returns s))
                     (np_sum_Z (episode_idx s))])
      ++ [GetStatistics]) ++ [LoggerInfoStatistics])
    ++ [EvaluateIfNecessary (t s)
          ((λ x, wrap32 (x + 1)) <$> episode_idx s)]
    = trace s ++ evs →
    EvaluateIfNecessary now episodes ∈ evs →
    now = t s ∧ episodes = (λ x, wrap32 (x + 1)) <$> episode_idx s).
  { intros Htr Hin. rewrite <- !app_assoc in Htr.
    apply app_inv_head in Htr. subst evs. simpl in Hin.
    repeat (apply elem_of_cons in Hin as [Hin|Hin]; [discriminate|]).
    apply elem_of_cons in Hin as [Hin|Hin]; [by injection Hin as -> ->|].
    by apply elem_of_nil in Hin. }
  intros Htr Hin.
  assert (now = t s ∧ episodes = (λ x, wrap32 (x + 1)) <$> episode_idx s)
    as [-> ->].
  { destruct (evaluate_if_necessary ev k); simpl in Htr;
      [destruct (successful_score cfg); simpl in Htr|];
      by apply Hfinal. }
  repeat split; try done. by exists li.
Qed.

Lemma evaluation_follows_log_interval_witness :
  let c := with_evaluator (quiet 1 never_done_script)
             (Some (quiet_evaluator 0%Qc)) in
  let cfg := with_eval_interval (default_config 4 "out")
               (Some 7) (Some 2) None in
  let s := set_t 2 (loop_entry c cfg 1 (initial_state ∅ None)) in
  2 = t s
  ∧ [1] = (λ x, wrap32 (x + 1)) <$> episode_idx s
  ∧ is_Some (evaluator c) ∧ is_Some (eval_interval cfg)
  ∧ ∃ li, log_interval cfg = Some li ∧ li ≠ 0 ∧ t s `mod` li = 0.
Proof.
  intros c cfg s.
  apply (evaluation_follows_log_interval c cfg plain_numpy 0 s
           [LoggerInfoProgress 2 S754_nan 0; GetStatistics; LoggerInfoStatistics;
            EvaluateIfNecessary 2 [1]] 2 [1]).
  - vm_compute. reflexivity.
  - do 3 right. left.
Defined.

(** ** The files *)

Lemma string_app_nil_r (a : string) : a +:+ "" = a.
Proof.
  induction a as [|x a IH]; [done|].
  change (String x (a +:+ "") = String x a). by rewrite IH.
Qed.

Lemma training_r_lines_app np entries entries' :
  training_r_lines np (entries ++ entries')
  = training_r_lines np entries +:+ training_r_lines np entries'.
Proof.
  induction entries as [|e entries IH]; [done|].
  simpl. unfold training_r_lines in *. simpl.
  by rewrite IH, string_app_assoc.
Qed.

Lemma results_file_grown_refl cfg np fs : results_file_grown cfg np fs fs.
Proof. by left. Qed.

(** One more line. *)
Lemma results_file_grown_append cfg np fs fs' step window :
  results_file_grown cfg np fs fs' →
  (∃ li, log_interval cfg = Some li ∧ li ≠ 0 ∧ step `mod` li = 0) →
  results_file_grown cfg np fs
    (file_append fs' (training_r_path cfg) (training_r_line np step window)).
Proof.
  intros Hgrown Hstep. right. unfold file_append. rewrite lookup_insert_eq.
  destruct Hgrown as [->|(entries & Hne & -> & Hall)].
  - exists [(step, window)]. split; [done|]. split.
    + unfold training_r_lines. simpl. by rewrite string_app_nil_r.
    + by apply Forall_singleton.
  - exists (entries ++ [(step, window)]). split; [by destruct entries|]. split.
    + rewrite training_r_lines_app. simpl. unfold training_r_lines at 2. simpl.
      by rewrite string_app_nil_r, string_app_assoc.
    + apply Forall_app. split; [done|]. by apply Forall_singleton.
Qed.

Lemma write_training_r_results_file_grown cfg np fs :
  preserves (λ s, results_file_grown cfg np fs (files s))
    (write_training_r cfg np).
Proof.
  intros s Hs.
  unfold write_training_r, bind, gets, lift, ret, _write_to_file, modify.
  destruct (save_training_r cfg); [|done].
  destruct (log_interval cfg) as [li|] eqn:Hli; simpl; [|done].
  destruct (decide (li = 0)) as [->|Hnz]; [done|].
  replace (match li with 0 => Raise ZeroDivisionError | _ => Ok (t s `mod` li) end)
    with (Ok (A:=Z) (t s `mod` li)) by (by destruct li).
  destruct (t s `mod` li =? 0) eqn:Hmod; [|done]. simpl.
  apply Z.eqb_eq in Hmod.
  apply (results_file_grown_append cfg np fs (files s) (t s)
           (recent_returns s) Hs).
  by exists li.
Qed.

Lemma write_training_r_off cfg np s :
  save_training_r cfg = false → write_training_r cfg np s = (s, Ok tt).
Proof. intros Hoff. unfold write_training_r. by rewrite Hoff. Qed.

(** However a run goes and however it ends, all [train_agent_batch] does
    to [training_r.txt] in the output directory is append whole lines: what
    the file held stays in front, and every line added is the line of a
    step that is a multiple of [log_interval], made of that step, a tab,
    the mean of a window and a newline.  With [save_training_r] off the
    function does not write to it. *)
Theorem results_file_grows_by_whole_lines
    (c : collaborators) (cfg : config) (np : numpy)
    (fuel : nat) (s : state) :
  let s' := fst (train_agent_batch c cfg np fuel s) in
  results_file_grown cfg np (files s) (files s')
  ∧ (save_training_r cfg = false →
     files s' !! training_r_path cfg = files s !! training_r_path cfg).
Proof.
  intros s'. subst s'.
  assert (Hkeep : ∀ (P : gmap string string → Prop) n s0,
    preserves (λ s1, P (files s1)) (write_training_r cfg np) →
    P (files s0) →
    P (files (fst (guarded_loop c cfg np fuel n s0)))).
  { intros P n s0 Hwrite H0.
    apply (guarded_loop_preserves (λ s1, P (files s1))); [| |done|done].
    - intros s1 s2 (Hf & _). by rewrite Hf.
    - intros r masks s1.
      destruct (update_episodes_world cfg n r masks s1) as (_ & Hf & _).
      by rewrite Hf. }
  assert (Hrun : ∀ P : gmap string string → Prop,
    preserves (λ s1, P (files s1)) (write_training_r cfg np) →
    P (files s) →
    P (files (fst (train_agent_batch c cfg np fuel s)))).
  { intros P Hwrite H0.
    unfold train_agent_batch, get_num_envs, bind, modify, call, ret, raise.
    destruct (env_num_envs c) as [n|[]]; simpl; try done.
    destruct (env_reset c) as [[]|e]; simpl; [|done].
    destruct (agent_has_t c); simpl; by apply Hkeep. }
  split.
  - apply (Hrun (results_file_grown cfg np (files s))).
    + apply write_training_r_results_file_grown.
    + apply results_file_grown_refl.
  - intros Hoff.
    apply (Hrun (λ fs, fs !! training_r_path cfg
                       = files s !! training_r_path cfg)); [|done].
    intros s1 H1. by rewrite write_training_r_off.
Qed.

(** ** The info dicts *)





(** ** [train_agent_batch_with_evaluation] *)

(** The first pass with [log_interval] unset and a logging option on. *)
Lemma first_pass_raises_TypeError c cfg np fuel n s r done info :
  log_interval cfg = None →
  save_training_r cfg = true ∨ eval_interval cfg ≠ None →
  length (episode_r s) = n → length (episode_idx s) = n →
  length (episode_len s) = n → t s < steps cfg →
  batch_act_and_train c 0 = Returns tt →
  env_step c 0 = Returns (r, done, info) → length r = n → length done = n →
  env_reset_masked c 0 = Returns tt →
  batch_observe_and_train c 0 = Returns tt →
  Forall (λ hook : Z → result unit, hook (t s + Z.of_nat n) = Returns tt)
    (step_hooks c) →
  ∃ s3,
    training_loop c cfg np (S fuel) n 0 s = (s3, Raise TypeError)
    ∧ t s3 = t s + Z.of_nat n ∧ files s3 = files s.
Proof.
  intros Hli Hopt Hr Hi Hl Hlt Hact Hstep Hrew Hdone Hreset Hobs Hhooks.
  destruct (loop_body_reaches_logging c cfg np n 0 s r done info)
    as (s3 & Hbody & Ht3 & Hf3); try done.
  exists s3. split; [|done].
  rewrite training_loop_unfold, (proj2 (Z.ltb_lt _ _) Hlt).
  unfold bind at 1. rewrite Hbody.
  unfold bind, write_training_r, log_and_evaluate, gets, lift, ret.
  rewrite Hli. simpl.
  destruct (save_training_r cfg); [done|]. simpl.
  destruct Hopt as [?|Heval]; [done|].
  by destruct (eval_interval cfg).
Qed.

(** Nothing is touched when the set-up fails: if [makedirs] raises, or the
    construction of the evaluator does, the exception leaves at once; the
    environment is not even asked for its instance count. *)
Theorem with_evaluation_setup_failure
    (makedirs : string → result unit)
    (new_BatchEvaluator : evaluator_args → result evaluator_script)
    (c : collaborators) (cfg : config) (np : numpy)
    (eval_n_runs : Z) (eval_max_episode_len : option Z)
    (eval_env : option env_ref) (save_best_so_far_agent : bool)
    (fuel : nat) (s : state) (e : exn) :
  makedirs (outdir cfg) = Raises e
  ∨ (makedirs (outdir cfg) = Returns tt
     ∧ new_BatchEvaluator
         {| ea_n_runs := eval_n_runs;
            ea_eval_interval := eval_interval cfg;
            ea_outdir := outdir cfg;
            ea_max_episode_len :=
              match eval_max_episode_len with
              | None => max_episode_len cfg
              | Some m => Some m
              end;
            ea_env := default TrainingEnv eval_env;
            ea_step_offset := step_offset cfg;
            ea_save_best_so_far_agent := save_best_so_far_agent |}
       = Raises e) →
  train_agent_batch_with_evaluation makedirs new_BatchEvaluator c cfg
    np eval_n_runs eval_max_episode_len eval_env
    save_best_so_far_agent fuel s
  = (s, Raise e).
Proof.
  unfold train_agent_batch_with_evaluation, bind, lift.
  intros [->|[-> Hnew]]; [done|]. simpl.
  destruct eval_env; simpl in *; by rewrite Hnew.
Qed.

Lemma with_evaluation_setup_failure_witness :
  train_agent_batch_with_evaluation (λ _, Returns tt)
    (λ _, Raises (OtherException 2)) (quiet 1 never_done_script)
    (default_config 4 "out") plain_numpy 10 None None true 5
    (initial_state ∅ None)
  = (initial_state ∅ None, Raise (OtherException 2)).
Proof.
  apply (with_evaluation_setup_failure (λ _, Returns tt)
           (λ _, Raises (OtherException 2)) (quiet 1 never_done_script)
           (default_config 4 "out") plain_numpy 10 None None true 5
           (initial_state ∅ None) (OtherException 2)).
  right. split; reflexivity.
Defined.

(** [train_agent_batch_with_evaluation] leaves [log_interval] at [None]
    unless it is given, and always passes its [eval_interval] on; so with a
    given [eval_interval], no [log_interval] and steps to do, the first
    pass, its calls returning, ends at line 138 with a [TypeError]: the
    only checkpoint is the ["_except"] one after one pass, and no file is
    written. *)
Theorem with_evaluation_needs_log_interval
    (makedirs : string → result unit)
    (new_BatchEvaluator : evaluator_args → result evaluator_script)
    (c : collaborators) (cfg : config) (np : numpy)
    (eval_n_runs : Z) (eval_max_episode_len : option Z)
    (eval_env : option env_ref) (save_best_so_far_agent : bool)
    (fuel n : nat) (s : state) (ev : evaluator_script)
    (r : list spec_float) (done : list bool) (info : list info_dict) :
  log_interval cfg = None → eval_interval cfg ≠ None →
  makedirs (outdir cfg) = Returns tt →
  (∀ args, new_BatchEvaluator args = Returns ev) →
  env_num_envs c = Returns n → env_reset c = Returns tt →
  step_offset cfg < steps cfg →
  batch_act_and_train c 0 = Returns tt →
  env_step c 0 = Returns (r, done, info) → length r = n → length done = n →
  env_reset_masked c 0 = Returns tt →
  batch_observe_and_train c 0 = Returns tt →
  Forall (λ hook : Z → result unit,
            hook (step_offset cfg + Z.of_nat n) = Returns tt) (step_hooks c) →
  save_agent c (step_offset cfg + Z.of_nat n) "_except" = Returns tt →
  env_close c = Returns tt → evaluator_env_close ev = Returns tt →
  ∃ s',
    train_agent_batch_with_evaluation makedirs new_BatchEvaluator c cfg
      np eval_n_runs eval_max_episode_len eval_env
      save_best_so_far_agent (S fuel) s
    = (s', Raise TypeError)
    ∧ checkpoints_of_trace (trace s')
      = checkpoints_of_trace (trace s)
        ++ [(step_offset cfg + Z.of_nat n, "_except")]
    ∧ files s' = files s.
Proof.
  intros Hli Hei Hmk Hnew Hnum Hreset0 Hlt Hact Hstep Hrew Hdone Hreset Hobs
    Hhooks Hsave Hclose Hevclose.
  unfold train_agent_batch_with_evaluation, bind at 1, lift. rewrite Hmk.
  simpl. unfold bind at 1. rewrite Hnew. simpl.
  set (c' := with_evaluator c (Some ev)).
  rewrite (train_agent_batch_entry c' cfg np (S fuel) n s Hnum Hreset0).
  set (s0 := loop_entry c' cfg n s).
  destruct (first_pass_raises_TypeError c' cfg np fuel n s0 r done info)
    as (s3 & Hloop & Ht3 & Hf3); try done;
    try (subst s0; simpl; apply length_replicate).
  { by right. }
  destruct (training_loop_adds_only c' cfg np n (S fuel) 0 s0)
    as (evs & Htr & Hevs).
  rewrite Hloop in Htr. simpl in Htr.
  apply checkpoints_of_pass_events in Hevs.
  destruct (except_clause_returns c' TypeError s3) as (s' & Hex & Htr' & Hsame).
  { by rewrite Ht3. }
  { done. }
  { intros ev' [= <-]. done. }
  exists s'. rewrite guarded_loop_unfold, Hloop. simpl. split; [exact Hex|].
  split.
  - rewrite Htr', Htr, Ht3. subst s0. simpl.
    rewrite !checkpoints_of_trace_app, Hevs. simpl. by rewrite !app_nil_r.
  - destruct Hsame as (Hf & _). by rewrite Hf, Hf3.
Qed.

Lemma with_evaluation_needs_log_interval_witness :
  let cfg := with_eval_interval (default_config 4 "out") (Some 2) None None in
  ∃ s',
    train_agent_batch_with_evaluation (λ _, Returns tt)
      (λ _, Returns (quiet_evaluator 0%Qc)) (quiet 1 never_done_script) cfg
      plain_numpy 10 None None true 5 (initial_state ∅ None)
    = (s', Raise TypeError)
    ∧ checkpoints_of_trace (trace s')
      = checkpoints_of_trace (trace (initial_state ∅ None))
        ++ [(step_offset cfg + Z.of_nat 1, "_except")]
    ∧ files s' = files (initial_state ∅ None).
Proof.
  intros cfg.
  apply (with_evaluation_needs_log_interval (λ _, Returns tt)
           (λ _, Returns (quiet_evaluator 0%Qc)) (quiet 1 never_done_script)
           cfg plain_numpy 10 None None true 4 1 (initial_state ∅ None)
           (quiet_evaluator 0%Qc) [reward_1] [false] [∅]);
    try reflexivity; done.
Defined.

(** ** A whole pass without hooks and logging *)

(** With no hook, [save_training_r] off and no [eval_interval], a pass whose
    four calls return, on arrays of the right shape, does exactly this. *)
Lemma loop_body_plain c cfg np n k s r done info :
  length (episode_r s) = n → length (episode_idx s) = n →
  length (episode_len s) = n →
  batch_act_and_train c k = Returns tt →
  env_step c k = Returns (r, done, info) → length r = n → length done = n →
  env_reset_masked c k = Returns tt →
  batch_observe_and_train c k = Returns tt →
  step_hooks c = [] → save_training_r cfg = false → eval_interval cfg = None →
  let reset_mask := reset_mask_of n (episode_len s) (max_episode_len cfg) in
  let masks := np_logical_not (zip_with orb reset_mask done) in
  loop_body c cfg np n k s
  = ({| trace := trace s
                 ++ [BatchActAndTrain; EnvStep; EnvResetMasked masks;
                     BatchObserveAndTrain r done (package_reset info reset_mask)];
        files := files s; agent_t := agent_t s;
        t := t s + Z.of_nat n;
        episode_r :=
          zip_with f32_mul (zip_with f32_add_f64 (episode_r s) r)
            (f32_of_bool <$> masks);
        episode_idx :=
          zip_with (λ x y, wrap32 (x + y)) (episode_idx s)
            ((λ m, 1 - bool_to_Z m) <$> masks);
        episode_len :=
          zip_with f32_mul ((λ l, f32_add l f32_one) <$> episode_len s)
            (f32_of_bool <$> masks);
        recent_returns :=
          deque_extend (return_window_size cfg) (recent_returns s)
            (ma_compressed (zip_with f32_add_f64 (episode_r s) r) masks) |},
     Ok false).
Proof.
  intros Hr Hi Hl Hact Hstep Hrew Hdone Hreset Hobs Hhooks Hsave Heval
    reset_mask masks.
  set (s0 := record_event EnvStep (record_event BatchActAndTrain s)).
  pose proof (compute_masks_shaped cfg n done info s0 Hl Hdone) as Hmask0.
  pose proof (length_continuation_mask n (episode_len s0)
                (max_episode_len cfg) done Hl Hdone) as Hlm.
  set (s1 := record_event
               (BatchObserveAndTrain r done (package_reset info reset_mask))
               (record_event (EnvResetMasked masks) s0)).
  pose proof (update_episodes_shaped cfg n r masks s1 Hr Hi Hl Hrew Hlm)
    as Hupd.
  unfold loop_body.
  rewrite (bind_eq_Ok _ _ _ _ _ (call_Returns _ _ _ _ Hact)).
  rewrite (bind_eq_Ok _ _ _ _ _ (call_Returns _ _ _ _ Hstep)).
  fold s0. rewrite (bind_eq_Ok _ _ _ _ _ Hmask0).
  rewrite (bind_eq_Ok _ _ _ _ _ (call_Returns _ _ _ _ Hreset)).
  rewrite (bind_eq_Ok _ _ _ _ _ (call_Returns _ _ _ _ Hobs)).
  change (episode_len s0) with (episode_len s). fold reset_mask masks s1.
  rewrite (bind_eq_Ok _ _ _ _ _ Hupd), Hhooks.
  unfold bind, write_training_r, log_and_evaluate, ret. simpl.
  rewrite Hsave, Heval. simpl. by rewrite <- !app_assoc.
Qed.

(** ** A forced reset, in general *)

Lemma masks_of_trace_app tr tr' :
  masks_of_trace (tr ++ tr') = masks_of_trace tr ++ masks_of_trace tr'.
Proof. apply omap_app. Qed.

Lemma never_done_pass reward steps (m : Z) np k s a j :
  episode_r s = [a] → episode_idx s = [0] →
  episode_len s = [f32_of_Z j] → 0 ≤ j ≤ 2 ^ 24 →
  recent_returns s = [] →
  let c := quiet 1 (never_done_rewards reward) in
  let cfg := with_max_episode_len (default_config steps "out") (Some m) in
  let cut := SFeqb (f32_of_Z j) (f32_of_Z m) in
  ∃ s',
    loop_body c cfg np 1 k s = (s', Ok false)
    ∧ masks_of_trace (trace s') = masks_of_trace (trace s) ++ [[negb cut]]
    ∧ t s' = t s + 1
    ∧ if cut
      then episode_idx s' = [1] ∧ episode_len s' = [f32_zero]
           ∧ recent_returns s' = [f32_add_f64 a (reward k)]
      else episode_r s' = [f32_add_f64 a (reward k)] ∧ episode_idx s' = [0]
           ∧ episode_len s' = [f32_of_Z (Z.min (j + 1) (2 ^ 24))]
           ∧ recent_returns s' = [].
Proof.
  intros Hr Hi Hl Hj Hw c cfg cut.
  eexists. split.
  - apply (loop_body_plain c cfg np 1 k s [reward k] [false] [∅]);
      try reflexivity; by rewrite ?Hr, ?Hi, ?Hl.
  - cbn [trace t episode_r episode_idx episode_len recent_returns].
    rewrite Hr, Hi, Hl, Hw.
    change (reset_mask_of 1 [f32_of_Z j] (max_episode_len cfg)) with [cut].
    cbn [zip_with np_logical_not fmap list_fmap].
    rewrite masks_of_trace_app, orb_false_r, f32_count_step by done.
    split; [done|]. split; [done|].
    destruct cut; cbn [negb f32_of_bool bool_to_Z ma_compressed].
    + rewrite f32_count_times_zero by lia. done.
    + rewrite !f32_mul_one
        by (first [apply f32_add_f64_valid | apply f32_of_Z_valid]).
      done.
Qed.

Lemma never_done_until_reset reward (m : nat) np (d : nat) :
  Z.of_nat m ≤ 2 ^ 24 →
  let c := quiet 1 (never_done_rewards reward) in
  let cfg := with_max_episode_len (default_config (Z.of_nat (S m)) "out")
               (Some (Z.of_nat m)) in
  ∀ k s,
    (k + d = m)%nat →
    episode_r s = [rewards_sum reward k] → episode_idx s = [0] →
    episode_len s = [f32_of_Z (Z.of_nat k)] → recent_returns s = [] →
    t s = Z.of_nat k →
    ∃ s',
      training_loop c cfg np (S (S d)) 1 k s = (s', Ok tt)
      ∧ masks_of_trace (trace s')
        = masks_of_trace (trace s) ++ replicate d [true] ++ [[false]]
      ∧ recent_returns s' = [rewards_sum reward (S m)]
      ∧ episode_idx s' = [1] ∧ episode_len s' = [f32_zero]
      ∧ t s' = Z.of_nat (S m).
Proof.
  intros Hm c cfg. induction d as [|d IH]; intros k s Hk Hr Hi Hl Hw Ht.
  - assert (k = m) as -> by lia.
    destruct (never_done_pass reward (Z.of_nat (S m)) (Z.of_nat m) np
                m s _ (Z.of_nat m) Hr Hi Hl ltac:(lia) Hw)
      as (s' & Hbody & Hmask & Ht' & Hcase).
    rewrite f32_count_eqb, bool_decide_eq_true_2 in Hmask, Hcase
      by (done || lia).
    destruct Hcase as (Hi' & Hl' & Hw').
    exists s'. split.
    + rewrite training_loop_unfold.
      replace (t s <? steps cfg) with true
        by (symmetry; apply Z.ltb_lt; subst cfg; simpl; lia).
      rewrite (bind_eq_Ok _ _ _ _ _ Hbody), training_loop_unfold.
      replace (t s' <? steps cfg) with false
        by (symmetry; apply Z.ltb_ge; subst cfg; simpl; lia).
      done.
    + repeat split; try done. lia.
  - destruct (never_done_pass reward (Z.of_nat (S m)) (Z.of_nat m) np
                k s _ (Z.of_nat k) Hr Hi Hl ltac:(lia) Hw)
      as (s1 & Hbody & Hm1 & Ht1 & Hcase).
    rewrite f32_count_eqb, bool_decide_eq_false_2 in Hm1, Hcase by lia.
    destruct Hcase as (Hr1 & Hi1 & Hl1 & Hw1).
    destruct (IH (S k) s1) as (s' & Hloop & Hm' & Hrest); try done; try lia.
    { rewrite Hl1. do 2 f_equal. lia. }
    exists s'. split.
    + rewrite training_loop_unfold.
      replace (t s <? steps cfg) with true
        by (symmetry; apply Z.ltb_lt; subst cfg; simpl; lia).
      by rewrite (bind_eq_Ok _ _ _ _ _ Hbody).
    + split; [|exact Hrest].
      rewrite Hm', Hm1. simpl. by rewrite <- app_assoc.
Qed.

(** An episode that the environment never ends is cut by
    [max_episode_len = m], for [m] up to 2^24, in the pass that finds
    [episode_len] equal to [m], that is after [m + 1] steps: the [m] passes
    before it let it continue, and the return that enters the window is
    the float32 sum of [m + 1] rewards. *)
Theorem forced_reset_comes_after_one_more_step
    (reward : nat → spec_float) (m : nat) (np : numpy) :
  Z.of_nat m ≤ 2 ^ 24 →
  let c := quiet 1 (never_done_rewards reward) in
  let cfg := with_max_episode_len (default_config (Z.of_nat (S m)) "out")
               (Some (Z.of_nat m)) in
  ∃ s',
    training_loop c cfg np (S (S m)) 1 0
      (loop_entry c cfg 1 (initial_state ∅ None)) = (s', Ok tt)
    ∧ masks_of_trace (trace s') = replicate m [true] ++ [[false]]
    ∧ recent_returns s' = [rewards_sum reward (S m)]
    ∧ episode_idx s' = [1] ∧ episode_len s' = [f32_zero]
    ∧ t s' = Z.of_nat (S m).
Proof.
  intros Hm c cfg.
  destruct (never_done_until_reset reward m np m Hm 0%nat
              (loop_entry c cfg 1 (initial_state ∅ None)))
    as (s' & Hloop & Hmasks & Hrest); try done.
  exists s'. split; [exact Hloop|]. split; [|exact Hrest].
  by rewrite Hmasks.
Qed.

Lemma forced_reset_comes_after_one_more_step_witness :
  let c := quiet 1 (never_done_rewards (λ _, reward_1)) in
  let cfg := with_max_episode_len (default_config 3 "out") (Some 2) in
  ∃ s',
    training_loop c cfg plain_numpy 4 1 0
      (loop_entry c cfg 1 (initial_state ∅ None)) = (s', Ok tt)
    ∧ masks_of_trace (trace s') = [[true]; [true]; [false]]
    ∧ recent_returns s' = [rewards_sum (λ _, reward_1) 3]
    ∧ episode_idx s' = [1] ∧ episode_len s' = [f32_zero]
    ∧ t s' = 3.
Proof.
  apply (forced_reset_comes_after_one_more_step (λ _, reward_1) 2
           plain_numpy).
  change (2 ^ 24) with 16777216. lia.
Defined.

(** ** A maximum that a float32 count never equals *)

(** 2^24 + 2 is the first such maximum. *)
Lemma no_count_equals_16777218 : beyond_the_counts 16777218.
Proof.
  intros j Hj. destruct (decide (j = 0)) as [->|Hj0]; [done|].
  destruct (f32_of_Z_canon j) as (mj & ej & Hf & _ & _ & Hv); [lia|].
  rewrite Hf.
  change (f32_of_Z 16777218) with (S754_finite false 8388609 1).
  rewrite SFeqb_pos_finite. apply bool_decide_eq_false_2.
  intros [= -> ->]. change (2 ^ (1 + 23)) with 16777216 in Hv.
  change (2 ^ 23) with 8388608 in Hv. change (2 ^ 24) with 16777216 in Hj.
  lia.
Qed.

Lemma never_cut_loop reward total (m : Z) np :
  beyond_the_counts m →
  let c := quiet 1 (never_done_rewards reward) in
  let cfg := with_max_episode_len (default_config total "out") (Some m) in
  ∀ fuel k s a j,
    episode_r s = [a] → episode_idx s = [0] →
    episode_len s = [f32_of_Z j] → 0 ≤ j ≤ 2 ^ 24 →
    recent_returns s = [] →
    Forall (λ masks, masks = [true]) (masks_of_trace (trace s)) →
    let run := training_loop c cfg np fuel 1 k s in
    (∀ e, snd run ≠ Raise e)
    ∧ Forall (λ masks, masks = [true]) (masks_of_trace (trace (fst run)))
    ∧ recent_returns (fst run) = [] ∧ episode_idx (fst run) = [0].
Proof.
  intros Hm c cfg. induction fuel as [|fuel IH];
    intros k s a j Hr Hi Hl Hj Hw Hmasks run; subst run.
  - by simpl.
  - rewrite training_loop_unfold.
    destruct (t s <? steps cfg); [|by simpl].
    destruct (never_done_pass reward total m np k s a j Hr Hi Hl Hj Hw)
      as (s1 & Hbody & Hm1 & _ & Hcase).
    rewrite (Hm j Hj) in Hm1, Hcase.
    destruct Hcase as (Hr1 & Hi1 & Hl1 & Hw1).
    rewrite (bind_eq_Ok _ _ _ _ _ Hbody).
    apply (IH (S k) s1 _ (Z.min (j + 1) (2 ^ 24)) Hr1 Hi1 Hl1 ltac:(lia) Hw1).
    rewrite Hm1. apply Forall_app. split; [done|].
    by apply Forall_singleton.
Qed.

(** When [max_episode_len], made a float32, equals no count up to 2^24
    (16777218 is the first such value), an episode that the environment
    never ends is never cut: [episode_len] stops at 2^24, every mask the
    environment is given says to continue, no return enters the window and
    no episode is counted, however long the run is. *)
Theorem episode_beyond_the_counts_is_never_cut
    (reward : nat → spec_float) (np : numpy) (total m : Z) (fuel : nat) :
  beyond_the_counts m →
  let c := quiet 1 (never_done_rewards reward) in
  let cfg := with_max_episode_len (default_config total "out") (Some m) in
  let s' := fst (train_agent_batch c cfg np fuel (initial_state ∅ None)) in
  Forall (λ masks, masks = [true]) (masks_of_trace (trace s'))
  ∧ recent_returns s' = [] ∧ episode_idx s' = [0].
Proof.
  intros Hm c cfg s'. subst s'.
  rewrite (train_agent_batch_entry c cfg np fuel 1) by done.
  rewrite guarded_loop_unfold.
  destruct (never_cut_loop reward total m np Hm fuel 0%nat
              (loop_entry c cfg 1 (initial_state ∅ None)) f32_zero 0)
    as (Hraise & Hmasks & Hw & Hi);
    try done; try (change (2 ^ 24) with 16777216; lia);
    try (by apply Forall_nil).
  fold c cfg in Hraise, Hmasks, Hw, Hi.
  destruct (training_loop c cfg np fuel 1 0 _) as [s1 [[]|e|]];
    cbn [fst snd] in *.
  - rewrite else_clause_eq. cbn [fst]. simpl.
    rewrite masks_of_trace_app. simpl. by rewrite app_nil_r.
  - by destruct (Hraise e).
  - done.
Qed.

Lemma episode_beyond_the_counts_is_never_cut_witness :
  let c := quiet 1 (never_done_rewards (λ _, reward_1)) in
  let cfg := with_max_episode_len (default_config 3 "out") (Some 16777218) in
  let s' := fst (train_agent_batch c cfg plain_numpy 4
                   (initial_state ∅ None)) in
  Forall (λ masks, masks = [true]) (masks_of_trace (trace s'))
  ∧ recent_returns s' = [] ∧ episode_idx s' = [0].
Proof.
  apply (episode_beyond_the_counts_is_never_cut (λ _, reward_1) plain_numpy
           3 16777218 4).
  exact no_count_equals_16777218.
Defined.

(** ** The file of the replay buffer *)

Lemma string_app_inj_l (a x y : string) : a +:+ x = a +:+ y → x = y.
Proof.
  induction a as [|ch a IH]; [done|].
  change (String ch (a +:+ x) = String ch (a +:+ y) → x = y).
  intros [= H]. by apply IH.
Qed.

Lemma string_length_app (x y : string) :
  String.length (x +:+ y) = (String.length x + String.length y)%nat.
Proof.
  induction x as [|ch x IH]; [done|].
  change (S (String.length (x +:+ y)) = S (String.length x + String.length y)).
  by rewrite IH.
Qed.

Lemma string_app_inj_r (x y z : string) : x +:+ z = y +:+ z → x = y.
Proof.
  revert y. induction x as [|ch x IH]; intros [|ch' y] H.
  - done.
  - apply (f_equal String.length) in H.
    change (String.length z = S (String.length (y +:+ z))) in H.
    rewrite string_length_app in H. lia.
  - apply (f_equal String.length) in H.
    change (S (String.length (x +:+ z)) = String.length z) in H.
    rewrite string_length_app in H. lia.
  - change (String ch (x +:+ z) = String ch' (y +:+ z)) in H.
    injection H as -> H. f_equal. by apply IH.
Qed.

Lemma pretty_N_char_not_sep x : pretty_N_char x ≠ "/"%char.
Proof.
  unfold pretty_N_char. repeat case_match; discriminate.
Qed.

Lemma pretty_N_go_head (x : N) :
  ∀ s, (0 < x)%N →
    ∃ ch rest, pretty_N_go x s = String ch rest ∧ ch ≠ "/"%char.
Proof.
  induction (N.lt_wf_0 x) as [x _ IH]. intros s Hx.
  rewrite pretty_N_go_step by done.
  destruct (decide (x `div` 10 = 0)%N) as [->|Hdiv].
  - rewrite pretty_N_go_0. eexists _, _. split; [done|].
    apply pretty_N_char_not_sep.
  - apply IH; [apply N.div_lt; lia|by apply N.neq_0_lt_0].
Qed.

(** The decimal notation of an integer does not begin with a slash. *)
Lemma str_int_head (z : Z) :
  ∃ ch rest, str_int z = String ch rest ∧ ch ≠ "/"%char.
Proof.
  unfold str_int, pretty, pretty_Z.
  destruct z as [|p|p]; simpl.
  - by exists "0"%char, "".
  - unfold pretty, pretty_N.
    destruct (decide (N.pos p = 0)%N); [done|].
    apply pretty_N_go_head. lia.
  - exists "-"%char. eexists. split; [reflexivity|discriminate].
Qed.

Lemma os_path_join_relative outdir name ch rest :
  name = String ch rest → ch ≠ "/"%char →
  ∃ dir, ∀ name' ch' rest',
    name' = String ch' rest' → ch' ≠ "/"%char →
    os_path_join outdir name' = dir +:+ name'.
Proof.
  intros _ _. unfold os_path_join.
  exists (if bool_decide (outdir = "") || ends_with_sep outdir
          then outdir else outdir +:+ "/").
  intros name' ch' rest' -> Hch. simpl.
  rewrite bool_decide_eq_false_2 by done.
  destruct (bool_decide (outdir = "") || ends_with_sep outdir); [done|].
  by rewrite string_app_assoc.
Qed.

(** [save_agent_replay_buffer] saves the buffer, then logs; when the save
    raises nothing is logged, and an agent without a replay buffer gets an
    [AttributeError] before anything is done.  The file is named after the
    step, so with one output directory and one suffix two different steps
    never give the same file. *)
Theorem replay_buffer_files_differ_by_step
    (n : nat) (save : string → result unit) (outdir suffix : string)
    (t1 t2 : Z) (s : state) :
  t1 ≠ t2 →
  let file := λ t : Z,
    os_path_join outdir (str_int t +:+ suffix +:+ ".replay.pkl") in
  file t1 ≠ file t2
  ∧ save_agent_replay_buffer (Some n) save t1 outdir suffix s
    = match save (file t1) with
      | Returns _ =>
          (record_events [ReplayBufferSave (file t1); LoggerInfoSaved (file t1)]
             s, Ok tt)
      | Raises e => (record_event (ReplayBufferSave (file t1)) s, Raise e)
      end
  ∧ save_agent_replay_buffer None save t1 outdir suffix s
    = (s, Raise AttributeError).
Proof.
  intros Hne file. split; [|split].
  - destruct (str_int_head t1) as (ch1 & rest1 & H1 & Hch1).
    destruct (str_int_head t2) as (ch2 & rest2 & H2 & Hch2).
    destruct (os_path_join_relative outdir
                (str_int t1 +:+ suffix +:+ ".replay.pkl") ch1
                (rest1 +:+ suffix +:+ ".replay.pkl")) as (dir & Hdir);
      [by rewrite H1|done|].
    unfold file.
    rewrite (Hdir _ ch1 (rest1 +:+ suffix +:+ ".replay.pkl"))
      by (by rewrite ?H1).
    rewrite (Hdir _ ch2 (rest2 +:+ suffix +:+ ".replay.pkl"))
      by (by rewrite ?H2).
    intros Heq%string_app_inj_l%string_app_inj_r.
    apply Hne. by apply (inj pretty).
  - unfold save_agent_replay_buffer, bind, call, modify. simpl.
    fold (file t1). by destruct (save (file t1)).
  - done.
Qed.

Lemma replay_buffer_files_differ_by_step_witness :
  let file := λ t : Z, os_path_join "out" (str_int t +:+ "" +:+ ".replay.pkl") in
  file 10 ≠ file 20
  ∧ save_agent_replay_buffer (Some 3%nat) (λ _, Returns tt) 10 "out" ""
      (initial_state ∅ None)
    = match (λ _ : string, Returns tt) (file 10) with
      | Returns _ =>
          (record_events [ReplayBufferSave (file 10); LoggerInfoSaved (file 10)]
             (initial_state ∅ None), Ok tt)
      | Raises e =>
          (record_event (ReplayBufferSave (file 10)) (initial_state ∅ None),
           Raise e)
      end
  ∧ save_agent_replay_buffer None (λ _, Returns tt) 10 "out" ""
      (initial_state ∅ None)
    = (initial_state ∅ None, Raise AttributeError).
Proof.
  apply (replay_buffer_files_differ_by_step 3 (λ _, Returns tt) "out" ""
           10 20 (initial_state ∅ None)).
  discriminate.
Defined.

(** ** The window as a queue *)

(** The window is a queue of bounded length: after the bookkeeping of a
    pass it holds the newest [return_window_size] entries of what it held
    followed by the returns of the episodes that ended, the oldest being
    dropped first; with a capacity of 0 it stays empty. *)
Theorem window_keeps_the_newest_returns
    (cfg : config) (n cap : nat) (r : list spec_float) (masks : list bool)
    (s : state) :
  length (episode_r s) = n → length (episode_idx s) = n →
  length (episode_len s) = n → length r = n → length masks = n →
  return_window_size cfg = Some cap →
  (length (recent_returns s) ≤ cap)%nat →
  let ended := ma_compressed (zip_with f32_add_f64 (episode_r s) r) masks in
  let s' := fst (update_episodes cfg n r masks s) in
  recent_returns s'
  = drop (length (recent_returns s) + length ended - cap)
      (recent_returns s ++ ended)
  ∧ length (recent_returns s')
    = (cap `min` (length (recent_returns s) + length ended))%nat
  ∧ (cap = 0%nat → recent_returns s' = []).
Proof.
  intros Hr Hi Hl Hrew Hmasks Hcap Hw ended s'. subst s'.
  rewrite update_episodes_shaped by done. simpl. fold ended.
  rewrite Hcap, deque_extend_bounded by done.
  split; [done|]. split.
  - rewrite length_drop, length_app. lia.
  - intros ->. apply nil_length_inv.
    rewrite length_drop, length_app. lia.
Qed.

Lemma window_keeps_the_newest_returns_witness :
  let cfg := default_config 4 "out" in
  let s := set_recent_returns (replicate 100 f32_zero)
             (loop_entry (quiet 2 (two_slot_script reward_1 reward_1 reward_1 reward_1)) cfg 2
                (initial_state ∅ None)) in
  let ended := ma_compressed (zip_with f32_add_f64 (episode_r s) [reward_1; reward_1])
                 [false; false] in
  let s' := fst (update_episodes cfg 2 [reward_1; reward_1] [false; false] s) in
  recent_returns s'
  = drop (length (recent_returns s) + length ended - 100)
      (recent_returns s ++ ended)
  ∧ length (recent_returns s')
    = (100 `min` (length (recent_returns s) + length ended))%nat
  ∧ (100%nat = 0%nat → recent_returns s' = []).
Proof.
  intros cfg s.
  apply (window_keeps_the_newest_returns cfg 2 100 [reward_1; reward_1]
           [false; false] s); reflexivity.
Defined.
